(** * PyHearthStone: the rules engine of [a2.py], embedded in Rocq

    The development follows the source class by class: [Entity], the card
    classes, [CardDeck], [Hero], the minions and their targeting policies,
    [HearthModel] (the engine), and the save-file reader and the command
    reader of [Hearthstone].

    Python objects are mutable and compared by identity.  Card objects
    (minions included) therefore live in a store indexed by object
    identifiers; hands, decks and minion rosters are lists of identifiers,
    and a targeted entity is a reference.  The two heroes are the two
    distinguished objects held by the engine.

    A method that mutates its object returns the object afterwards, next to
    its result when it has one.  The type annotations of the source are
    taken as given: a roster holds minions and a target is an entity.  The
    exceptions that remain possible are results: [ValueError] from
    [list.remove], from unpacking and from [int], [IndexError] from
    indexing the fields of a snapshot or a hand, [TypeError] from the
    statement after the [append] of [play_card], and [DisplayError] from
    the screen.  Integers are unbounded ([Z]). *)

From Stdlib Require Import String Ascii.
From Stdlib Require Import DecimalString DecimalPos.
From Stdlib Require Import ZArith List Bool Lia Arith.
Import ListNotations.

Local Open Scope list_scope.
Local Open Scope Z_scope.

(** ** Constants of [support.py] *)

Module Support.

Local Open Scope string_scope.

Definition CARD_NAME := "Card".
Definition CARD_SYMBOL := "C".
Definition SHIELD_NAME := "Shield".
Definition SHIELD_SYMBOL := "S".
Definition HEAL_NAME := "Heal".
Definition HEAL_SYMBOL := "H".
Definition FIREBALL_NAME := "Fireball".
Definition MINION_NAME := "Minion".
Definition MINION_SYMBOL := "M".
Definition RAPTOR_NAME := "Raptor".
Definition RAPTOR_SYMBOL := "R".
Definition WYRM_NAME := "Wyrm".
Definition WYRM_SYMBOL := "W".

End Support.
Import Support.

(** ** Python built-ins the source relies on *)

Module Py.

(** Exceptions the embedded code can raise ([DisplayError] is the exception
    of [display.py]), and the outcome of a call. *)
Inductive exn := ValueError | IndexError | TypeError | DisplayError.

Inductive result (A : Type) : Type :=
| Ok (a : A)
| Raise (e : exn).
Arguments Ok {A} a.
Arguments Raise {A} e.

Definition bind {A B} (r : result A) (k : A -> result B) : result B :=
  match r with
  | Ok a => k a
  | Raise e => Raise e
  end.

Definition of_option {A} (e : exn) (o : option A) : result A :=
  match o with
  | Some a => Ok a
  | None => Raise e
  end.

(** [x in l] and [l.remove(x)] for a list of object references: objects are
    compared by identity, and [remove] deletes the first occurrence.  The
    caller raises [ValueError] when [contains] is false. *)
Definition contains (x : nat) (l : list nat) : bool := existsb (Nat.eqb x) l.

Fixpoint remove (x : nat) (l : list nat) : list nat :=
  match l with
  | [] => []
  | y :: l' => if Nat.eqb x y then l' else y :: remove x l'
  end.

(** The slice [l[0:stop]] and the statement [del l[0:stop]]: a negative
    [stop] counts from the end of the list, and the bound is clipped to the
    list. *)
Definition slice_stop (stop : Z) (len : nat) : nat :=
  if stop <? 0 then Z.to_nat (Z.max 0 (Z.of_nat len + stop))
  else Nat.min (Z.to_nat stop) len.

Definition slice_to {A} (stop : Z) (l : list A) : list A :=
  firstn (slice_stop stop (length l)) l.

Definition del_slice_to {A} (stop : Z) (l : list A) : list A :=
  skipn (slice_stop stop (length l)) l.

(** Strings are sequences of code points below 256. *)

Definition code (c : ascii) : Z := Z.of_nat (nat_of_ascii c).

(** [str.isspace] on one character. *)
Definition is_space (c : ascii) : bool :=
  let n := code c in
  ((9 <=? n) && (n <=? 13)) || ((28 <=? n) && (n <=? 32))
  || (n =? 133) || (n =? 160).

Fixpoint lstrip (s : string) : string :=
  match s with
  | EmptyString => EmptyString
  | String c r => if is_space c then lstrip r else s
  end.

Fixpoint rstrip (s : string) : string :=
  match s with
  | EmptyString => EmptyString
  | String c r =>
      match rstrip r with
      | EmptyString => if is_space c then EmptyString else String c EmptyString
      | r' => String c r'
      end
  end.

(** [s.strip()] *)
Definition strip (s : string) : string := rstrip (lstrip s).

(** [s.split(sep)] for a one-character separator: the first piece and the
    pieces after it. *)
Fixpoint split_pieces (sep : ascii) (s : string) : string * list string :=
  match s with
  | EmptyString => (EmptyString, [])
  | String c r =>
      let (piece, pieces) := split_pieces sep r in
      if Ascii.eqb c sep then (EmptyString, piece :: pieces)
      else (String c piece, pieces)
  end.

Definition split (sep : ascii) (s : string) : list string :=
  let (piece, pieces) := split_pieces sep s in piece :: pieces.

(** [sep.join(l)] *)
Definition join (sep : string) (l : list string) : string := String.concat sep l.

(** [s.isdigit()]: a non-empty string of digit characters; below 256 these
    are [0]..[9] and the superscripts two, three and one. *)
Definition is_digit_char (c : ascii) : bool :=
  let n := code c in
  ((48 <=? n) && (n <=? 57)) || (n =? 178) || (n =? 179) || (n =? 185).

Fixpoint all_chars (p : ascii -> bool) (s : string) : bool :=
  match s with
  | EmptyString => true
  | String c r => p c && all_chars p r
  end.

Definition isdigit (s : string) : bool :=
  match s with
  | EmptyString => false
  | _ => all_chars is_digit_char s
  end.

(** [str(n)] for an integer. *)
Definition str (n : Z) : string := NilZero.string_of_int (Z.to_int n).

(** The decimal digits [0]..[9]. *)
Definition is_decimal_char (c : ascii) : bool :=
  let n := code c in (48 <=? n) && (n <=? 57).

(** The digits of a literal, without the underscores that may stand, one at
    a time, between two digits; [None] when the literal is not of that
    form. *)
Fixpoint drop_underscores (s : string) (after_digit : bool) : option string :=
  match s with
  | EmptyString => if after_digit then Some EmptyString else None
  | String c r =>
      if is_decimal_char c then
        option_map (String c) (drop_underscores r true)
      else if Ascii.eqb c "_"%char && after_digit then drop_underscores r false
      else None
  end.

Definition int_unsigned (s : string) : option Z :=
  match drop_underscores s false with
  | Some digits => option_map Z.of_uint (NilEmpty.uint_of_string digits)
  | None => None
  end.

(** The whitespace [int] skips around a literal: the characters 9 to 13 and
    the space and, above 127, the characters [str.isspace] accepts.  The
    separators 28 to 31, which [strip] drops, are not among them. *)
Definition is_int_space (c : ascii) : bool :=
  let n := code c in
  ((9 <=? n) && (n <=? 13)) || (n =? 32) || (n =? 133) || (n =? 160).

Fixpoint ltrim (space : ascii -> bool) (s : string) : string :=
  match s with
  | EmptyString => EmptyString
  | String c r => if space c then ltrim space r else s
  end.

Fixpoint rtrim (space : ascii -> bool) (s : string) : string :=
  match s with
  | EmptyString => EmptyString
  | String c r =>
      match rtrim space r with
      | EmptyString => if space c then EmptyString else String c EmptyString
      | r' => String c r'
      end
  end.

(** [int(s)]: the whitespace around the literal is skipped, one sign is
    allowed, and the decimal digits may be grouped by single underscores.
    [None] stands for [ValueError].  Integers are unbounded: the limit that
    CPython 3.11 and later set, by default at 4300 digits, on the
    conversions between strings and integers depends on the interpreter
    and its settings and is not part of [int] and [str]. *)
Definition int (s : string) : option Z :=
  match rtrim is_int_space (ltrim is_int_space s) with
  | String c r =>
      if Ascii.eqb c "-"%char then option_map Z.opp (int_unsigned r)
      else if Ascii.eqb c "+"%char then int_unsigned r
      else int_unsigned (String c r)
  | EmptyString => None
  end.

(** The string holds no occurrence of the character [sep]. *)
Definition free_of (sep : ascii) (s : string) : bool :=
  all_chars (fun c => negb (Ascii.eqb c sep)) s.

End Py.
Import Py.

(** ** Entity *)

Record Entity := mkEntity { _health : Z; _shield : Z }.

Definition get_health (self : Entity) : Z := _health self.
Definition get_shield (self : Entity) : Z := _shield self.

Definition apply_shield (shield : Z) (self : Entity) : Entity :=
  mkEntity (_health self) (_shield self + shield).

Definition apply_health (health : Z) (self : Entity) : Entity :=
  mkEntity (_health self + health) (_shield self).

Definition apply_damage (damage : Z) (self : Entity) : Entity :=
  if damage <=? _shield self then
    mkEntity (_health self) (_shield self - damage)
  else
    let _damage_to_health := damage - _shield self in
    let h := _health self - _damage_to_health in
    mkEntity (if h <? 0 then 0 else h) 0.

Definition is_alive (self : Entity) : bool := 0 <? _health self.

(** [Entity.__str__] *)
Definition Entity_str (self : Entity) : string :=
  (str (_health self) ++ "," ++ str (_shield self))%string.

(** ** Card and its subclasses

    An object is the record of its instance attributes together with its
    class.  Attributes a class does not define ([_turns_in_hand] outside
    [Fireball], the [Entity] base outside the minions) hold zero and are
    never read for such an object by a well-typed run of the program. *)

Definition oid := nat.

Inductive class :=
| ClsCard | ClsShield | ClsHeal | ClsFireball | ClsMinion | ClsWyrm | ClsRaptor.

(** [type(x).__name__] *)
Definition type_name (k : class) : string :=
  match k with
  | ClsCard => "Card"
  | ClsShield => "Shield"
  | ClsHeal => "Heal"
  | ClsFireball => "Fireball"
  | ClsMinion => "Minion"
  | ClsWyrm => "Wyrm"
  | ClsRaptor => "Raptor"
  end%string.

(** The effect dictionary: each of the keys [DAMAGE], [HEALTH] and [SHIELD]
    of [support.py] is absent or bound to an integer. *)
Record Effect := mkEffect {
  DAMAGE : option Z;
  HEALTH : option Z;
  SHIELD : option Z
}.

Record Card := mkCard {
  cls : class;
  _name : string;
  _symbol : string;
  _cost : Z;
  _effect : Effect;
  _is_permanent : bool;
  _turns_in_hand : Z;
  as_entity : Entity
}.

Definition get_symbol (self : Card) : string := _symbol self.
Definition get_name (self : Card) : string := _name self.
Definition get_cost (self : Card) : Z := _cost self.
Definition is_permanent (self : Card) : bool := _is_permanent self.

(** [Card()] *)
Definition Card_new : Card :=
  mkCard ClsCard CARD_NAME CARD_SYMBOL 1 (mkEffect None None None) false
         0 (mkEntity 0 0).

(** [Shield()] *)
Definition Shield : Card :=
  mkCard ClsShield SHIELD_NAME SHIELD_SYMBOL 1 (mkEffect None None (Some 5))
         false 0 (mkEntity 0 0).

(** [Heal()] *)
Definition Heal : Card :=
  mkCard ClsHeal HEAL_NAME HEAL_SYMBOL 2 (mkEffect None (Some 2) None)
         false 0 (mkEntity 0 0).

(** [Fireball(turns_in_hand)] *)
Definition Fireball (turns_in_hand : Z) : Card :=
  mkCard ClsFireball FIREBALL_NAME (str turns_in_hand) 3
         (mkEffect (Some (turns_in_hand + 3)) None None)
         false turns_in_hand (mkEntity 0 0).

Definition increment_turn (self : Card) : Card :=
  let t := _turns_in_hand self + 1 in
  mkCard (cls self) (_name self) (str t) (_cost self)
         (mkEffect (Some (t + 3)) (HEALTH (_effect self)) (SHIELD (_effect self)))
         (_is_permanent self) t (as_entity self).

(** [Minion(health, shield)] *)
Definition Minion (health shield : Z) : Card :=
  mkCard ClsMinion MINION_NAME MINION_SYMBOL 2 (mkEffect None None None) true
         0 (mkEntity health shield).

(** [Wyrm(health, shield)] *)
Definition Wyrm (health shield : Z) : Card :=
  mkCard ClsWyrm WYRM_NAME WYRM_SYMBOL 2 (mkEffect None (Some 1) (Some 1)) true
         0 (mkEntity health shield).

(** [Raptor(health, shield)] *)
Definition Raptor (health shield : Z) : Card :=
  mkCard ClsRaptor RAPTOR_NAME RAPTOR_SYMBOL 2 (mkEffect (Some health) None None)
         true 0 (mkEntity health shield).

Definition set_effect (e : Effect) (self : Card) : Card :=
  mkCard (cls self) (_name self) (_symbol self) (_cost self) e
         (_is_permanent self) (_turns_in_hand self) (as_entity self).

Definition set_entity (e : Entity) (self : Card) : Card :=
  mkCard (cls self) (_name self) (_symbol self) (_cost self) (_effect self)
         (_is_permanent self) (_turns_in_hand self) e.

(** [get_effect]: [Raptor] overrides it to store its current health under
    [DAMAGE] before returning the dictionary; the other classes return the
    dictionary as it is.  The result is the object after the call, whose
    [_effect] is the value returned. *)
Definition get_effect (self : Card) : Card :=
  match cls self with
  | ClsRaptor =>
      set_effect (mkEffect (Some (_health (as_entity self)))
                           (HEALTH (_effect self)) (SHIELD (_effect self))) self
  | _ => self
  end.

(** ** CardDeck *)

Record CardDeck := mkCardDeck { _cards : list oid }.

Definition is_empty (self : CardDeck) : bool :=
  Nat.eqb (length (_cards self)) 0.

Definition remaining_count (self : CardDeck) : Z :=
  Z.of_nat (length (_cards self)).

(** [draw_cards]: the cards drawn and the deck afterwards. *)
Definition draw_cards (num : Z) (self : CardDeck) : list oid * CardDeck :=
  if Z.of_nat (length (_cards self)) <? num then
    (_cards self, mkCardDeck [])
  else
    (slice_to num (_cards self), mkCardDeck (del_slice_to num (_cards self))).

Definition add_card (card : oid) (self : CardDeck) : CardDeck :=
  mkCardDeck (_cards self ++ [card]).

(** ** Hero *)

Record Hero := mkHero {
  hero_entity : Entity;
  _energy_capacity : Z;
  _energy : Z;
  _deck : CardDeck;
  _hand : list oid
}.

(** [Hero(health, shield, max_energy, deck, hand)] *)
Definition Hero_new (health shield max_energy : Z) (deck : CardDeck)
    (hand : list oid) : Hero :=
  mkHero (mkEntity health shield) max_energy max_energy deck hand.

Definition get_energy (self : Hero) : Z := _energy self.
Definition get_max_energy (self : Hero) : Z := _energy_capacity self.
Definition get_deck (self : Hero) : CardDeck := _deck self.
Definition get_hand (self : Hero) : list oid := _hand self.

Definition set_hero_entity (e : Entity) (self : Hero) : Hero :=
  mkHero e (_energy_capacity self) (_energy self) (_deck self) (_hand self).

Definition set_energy (energy : Z) (self : Hero) : Hero :=
  mkHero (hero_entity self) (_energy_capacity self) energy (_deck self)
         (_hand self).

Definition set_deck (deck : CardDeck) (self : Hero) : Hero :=
  mkHero (hero_entity self) (_energy_capacity self) (_energy self) deck
         (_hand self).

Definition set_hand (hand : list oid) (self : Hero) : Hero :=
  mkHero (hero_entity self) (_energy_capacity self) (_energy self)
         (_deck self) hand.

(** [spend_energy]: the returned flag and the hero afterwards. *)
Definition spend_energy (energy : Z) (self : Hero) : bool * Hero :=
  if energy <=? _energy self then (true, set_energy (_energy self - energy) self)
  else (false, self).

(** The first loop of [new_turn]: every card of the hand whose name is
    [FIREBALL_NAME] registers one more turn. *)
Definition age_fireballs (objects : oid -> Card) (hand : list oid)
    : oid -> Card :=
  fold_left
    (fun objs card =>
       if String.eqb (get_name (objs card)) FIREBALL_NAME then
         fun j => if Nat.eqb j card then increment_turn (objs card) else objs j
       else objs)
    hand objects.

(** [new_turn]: the object store and the hero afterwards. *)
Definition new_turn (objects : oid -> Card) (self : Hero)
    : (oid -> Card) * Hero :=
  let objects' := age_fireballs objects (_hand self) in
  let _num_to_draw := 5 - Z.of_nat (length (_hand self)) in
  let (drawn, deck') := draw_cards _num_to_draw (_deck self) in
  let capacity := _energy_capacity self + 1 in
  (objects',
   mkHero (hero_entity self) capacity capacity deck' (_hand self ++ drawn)).

(** [Hero.is_alive] *)
Definition Hero_is_alive (self : Hero) : bool :=
  is_alive (hero_entity self) && (0 <? remaining_count (_deck self)).

(** ** Minion targeting

    An entity handed to the engine is a reference: one of the two heroes or
    a minion object of the store. *)

Inductive EntityRef :=
| PlayerHero
| EnemyHero
| MinionRef (id : oid).

Record HearthModel := mkHearthModel {
  objects : oid -> Card;
  _player : Hero;
  _active_player_minions : list oid;
  _enemy : Hero;
  _active_enemy_minions : list oid
}.

Definition get_player (self : HearthModel) : Hero := _player self.
Definition get_enemy (self : HearthModel) : Hero := _enemy self.
Definition get_player_minions (self : HearthModel) : list oid :=
  _active_player_minions self.
Definition get_enemy_minions (self : HearthModel) : list oid :=
  _active_enemy_minions self.

Definition set_objects (o : oid -> Card) (m : HearthModel) : HearthModel :=
  mkHearthModel o (_player m) (_active_player_minions m) (_enemy m)
                (_active_enemy_minions m).

Definition set_player (h : Hero) (m : HearthModel) : HearthModel :=
  mkHearthModel (objects m) h (_active_player_minions m) (_enemy m)
                (_active_enemy_minions m).

Definition set_enemy (h : Hero) (m : HearthModel) : HearthModel :=
  mkHearthModel (objects m) (_player m) (_active_player_minions m) h
                (_active_enemy_minions m).

Definition set_player_minions (l : list oid) (m : HearthModel) : HearthModel :=
  mkHearthModel (objects m) (_player m) l (_enemy m) (_active_enemy_minions m).

Definition set_enemy_minions (l : list oid) (m : HearthModel) : HearthModel :=
  mkHearthModel (objects m) (_player m) (_active_player_minions m) (_enemy m) l.

(** Writing object [id] of the store. *)
Definition store (id : oid) (c : Card) (m : HearthModel) : HearthModel :=
  set_objects (fun j => if Nat.eqb j id then c else objects m j) m.

(** Reading and writing the [Entity] part of the object behind a reference. *)
Definition deref (m : HearthModel) (r : EntityRef) : Entity :=
  match r with
  | PlayerHero => hero_entity (_player m)
  | EnemyHero => hero_entity (_enemy m)
  | MinionRef id => as_entity (objects m id)
  end.

Definition assign (r : EntityRef) (e : Entity) (m : HearthModel) : HearthModel :=
  match r with
  | PlayerHero => set_player (set_hero_entity e (_player m)) m
  | EnemyHero => set_enemy (set_hero_entity e (_enemy m)) m
  | MinionRef id => store id (set_entity e (objects m id)) m
  end.

(** [Wyrm.choose_target] *)
Definition Wyrm_choose_target (m : HearthModel) (ally_hero enemy_hero : EntityRef)
    (ally_minions enemy_minions : list oid) : EntityRef :=
  fold_left
    (fun _lowest_health minion =>
       if get_health (deref m (MinionRef minion))
            <? get_health (deref m _lowest_health)
       then MinionRef minion
       else _lowest_health)
    ally_minions ally_hero.

(** [Raptor.choose_target] *)
Definition Raptor_choose_target (m : HearthModel) (ally_hero enemy_hero : EntityRef)
    (ally_minions enemy_minions : list oid) : EntityRef :=
  match enemy_minions with
  | first :: _ =>
      fold_left
        (fun _highest_health minion =>
           if get_health (deref m _highest_health)
                <? get_health (deref m (MinionRef minion))
           then MinionRef minion
           else _highest_health)
        enemy_minions (MinionRef first)
  | [] => enemy_hero
  end.

(** [choose_target], dispatched on the class of the minion [self]: [Wyrm]
    and [Raptor] override the method of the base class [Minion], which
    returns the minion itself. *)
Definition choose_target (m : HearthModel) (self : oid)
    (ally_hero enemy_hero : EntityRef) (ally_minions enemy_minions : list oid)
    : EntityRef :=
  match cls (objects m self) with
  | ClsWyrm => Wyrm_choose_target m ally_hero enemy_hero ally_minions enemy_minions
  | ClsRaptor =>
      Raptor_choose_target m ally_hero enemy_hero ally_minions enemy_minions
  | _ => MinionRef self
  end.

(** ** HearthModel *)

Definition has_won (self : HearthModel) : bool :=
  Hero_is_alive (_player self) && negb (Hero_is_alive (_enemy self)).

Definition has_lost (self : HearthModel) : bool :=
  negb (Hero_is_alive (_player self)).

Definition minion_alive (m : HearthModel) (id : oid) : bool :=
  is_alive (as_entity (objects m id)).

Definition _remove_defeated_minions (self : HearthModel) : HearthModel :=
  let _alive_player_minions :=
    filter (minion_alive self) (_active_player_minions self) in
  let _alive_enemy_minions :=
    filter (minion_alive self) (_active_enemy_minions self) in
  set_enemy_minions _alive_enemy_minions
    (set_player_minions _alive_player_minions self).

(** One statement [if K in card.get_effect(): target.apply_K(card.get_effect()[K])]:
    the dictionary is read through [get_effect], which leaves it stored in
    the card, and the amount under the key, when present, is applied to the
    target. *)
Definition apply_if_present (key : Effect -> option Z) (apply : Z -> Entity -> Entity)
    (card : oid) (target : EntityRef) (m : HearthModel) : HearthModel :=
  let m1 := store card (get_effect (objects m card)) m in
  match key (_effect (objects m1 card)) with
  | Some amount => assign target (apply amount (deref m1 target)) m1
  | None => m1
  end.

Definition _use_effect (card : oid) (target : EntityRef) (self : HearthModel)
    : HearthModel :=
  let m0 := _remove_defeated_minions self in
  let m1 := apply_if_present DAMAGE apply_damage card target m0 in
  let m2 := apply_if_present HEALTH apply_health card target m1 in
  let m3 := apply_if_present SHIELD apply_shield card target m2 in
  _remove_defeated_minions m3.

(** Placing a permanent card in a roster, as both [play_card] and [end_turn]
    do: [pop(0)] when the roster holds exactly five minions, then [append]. *)
Definition place_minion (card : oid) (roster : list oid) : list oid :=
  (if Nat.eqb (length roster) 5 then tl roster else roster) ++ [card].

(** [play_card]: the returned flag and the model afterwards.  [remove]
    raises [ValueError] when the card is not in the hand; the loop after
    the [append] indexes the method object [pop] and raises [TypeError] as
    soon as its condition holds. *)
Definition play_card (card : oid) (target : EntityRef) (self : HearthModel)
    : result (bool * HearthModel) :=
  let (spent, player) := spend_energy (get_cost (objects self card)) (_player self) in
  if spent then
    if contains card (get_hand player) then
      let m1 := set_player (set_hand (remove card (get_hand player)) player) self in
      if is_permanent (objects m1 card) then
        let m2 :=
          set_player_minions (place_minion card (_active_player_minions m1)) m1 in
        if (5 <? length (_active_player_minions m2))%nat then Raise TypeError
        else Ok (true, m2)
      else
        Ok (true, _use_effect card target m1)
    else Raise ValueError
  else Ok (false, self).

Definition discard_card (card : oid) (self : HearthModel) : result HearthModel :=
  let player := set_deck (add_card card (get_deck (_player self))) (_player self) in
  if contains card (get_hand player) then
    Ok (set_player (set_hand (remove card (get_hand player)) player) self)
  else Raise ValueError.

(** *** end_turn *)

(** The loop [for _minion in self._active_player_minions]: it runs over the
    list object bound when the loop starts, while [_use_effect] rebinds the
    roster attributes to pruned copies; each minion chooses among the
    rosters as they stand when its turn comes. *)
Definition player_minions_act (self : HearthModel) : HearthModel :=
  fold_left
    (fun m _minion =>
       let _target :=
         choose_target m _minion PlayerHero EnemyHero
                       (_active_player_minions m) (_active_enemy_minions m) in
       _use_effect _minion _target m)
    (_active_player_minions self) self.

Definition enemy_minions_act (self : HearthModel) : HearthModel :=
  fold_left
    (fun m _minion =>
       let _target :=
         choose_target m _minion EnemyHero PlayerHero
                       (_active_enemy_minions m) (_active_player_minions m) in
       _use_effect _minion _target m)
    (_active_enemy_minions self) self.

Definition enemy_new_turn (self : HearthModel) : HearthModel :=
  let (objs, enemy) := new_turn (objects self) (_enemy self) in
  set_enemy enemy (set_objects objs self).

Definition player_new_turn (self : HearthModel) : HearthModel :=
  let (objs, player) := new_turn (objects self) (_player self) in
  set_player player (set_objects objs self).

(** The body run for the enemy card [_card] once its cost is paid (the
    energy is already deducted in [self]). *)
Definition enemy_plays (_card : oid) (self : HearthModel) : HearthModel :=
  let m1 :=
    if is_permanent (objects self _card) then
      set_enemy_minions (place_minion _card (_active_enemy_minions self)) self
    else
      match DAMAGE (_effect (get_effect (objects self _card))) with
      | Some _ =>
          _use_effect _card PlayerHero (store _card (get_effect (objects self _card)) self)
      | None =>
          _use_effect _card EnemyHero (store _card (get_effect (objects self _card)) self)
      end in
  set_enemy (set_hand (remove _card (get_hand (_enemy m1))) (_enemy m1)) m1.

(** One run of [for _card in self._enemy.get_hand()], over the cards not
    yet visited: the model afterwards, [_skipped_cards], and the type name
    of the card played, if one was. *)
Fixpoint enemy_scan (cards : list oid) (_skipped_cards : nat) (self : HearthModel)
    : HearthModel * nat * option string :=
  match cards with
  | [] => (self, _skipped_cards, None)
  | _card :: rest =>
      let (spent, enemy) :=
        spend_energy (get_cost (objects self _card)) (_enemy self) in
      if spent then
        (enemy_plays _card (set_enemy enemy self), _skipped_cards,
         Some (type_name (cls (objects self _card))))
      else enemy_scan rest (S _skipped_cards) self
  end.

(** The loop [while _playing_cards], with a bound on the number of rounds:
    [None] when the bound is reached before the loop stops. *)
Fixpoint enemy_play_loop (rounds : nat) (_played_cards : list string)
    (self : HearthModel) : option (list string * HearthModel) :=
  match rounds with
  | O => None
  | S rounds' =>
      let '(m, _skipped_cards, played) :=
        enemy_scan (get_hand (_enemy self)) 0 self in
      let _played_cards' :=
        match played with
        | Some name => _played_cards ++ [name]
        | None => _played_cards
        end in
      if (length (get_hand (_enemy m)) <=? _skipped_cards)%nat then
        Some (_played_cards', m)
      else enemy_play_loop rounds' _played_cards' m
  end.

(** A hand of [n] cards is exhausted within [n + 1] rounds. *)
Definition enemy_rounds (self : HearthModel) : nat :=
  S (length (get_hand (_enemy self))).

(** [end_turn]: the names of the cards the enemy played and the model
    afterwards. *)
Definition end_turn (self : HearthModel) : option (list string * HearthModel) :=
  let m1 := player_minions_act self in
  let m2 := enemy_new_turn m1 in
  if negb (Hero_is_alive (_enemy m2)) then Some ([], m2)
  else
    match enemy_play_loop (enemy_rounds m2) [] m2 with
    | Some (_played_cards, m3) =>
        let m4 := enemy_minions_act m3 in
        Some (_played_cards, player_new_turn m4)
    | None => None
    end.

(** *** The snapshot string: [__str__] of the model and its parts *)

Local Open Scope string_scope.

Definition symbols (objs : oid -> Card) (cards : list oid) : list string :=
  map (fun card => get_symbol (objs card)) cards.

(** [CardDeck.__str__] *)
Definition CardDeck_str (objs : oid -> Card) (self : CardDeck) : string :=
  join "," (symbols objs (_cards self)).

(** [Hero.__str__] *)
Definition Hero_str (objs : oid -> Card) (self : Hero) : string :=
  let _stats :=
    str (_health (hero_entity self)) ++ "," ++ str (_shield (hero_entity self))
    ++ "," ++ str (_energy_capacity self) in
  let _hand_symbols := join "," (symbols objs (_hand self)) in
  _stats ++ ";" ++ CardDeck_str objs (_deck self) ++ ";" ++ _hand_symbols.

Definition _get_minion_info (objs : oid -> Card) (minions : list oid) : string :=
  join ";"
    (map (fun _minion =>
            get_symbol (objs _minion) ++ ","
            ++ str (get_health (as_entity (objs _minion))) ++ ","
            ++ str (get_shield (as_entity (objs _minion))))
         minions).

(** [HearthModel.__str__] *)
Definition HearthModel_str (self : HearthModel) : string :=
  Hero_str (objects self) (_player self) ++ "|"
  ++ _get_minion_info (objects self) (_active_player_minions self) ++ "|"
  ++ Hero_str (objects self) (_enemy self) ++ "|"
  ++ _get_minion_info (objects self) (_active_enemy_minions self).

(** ** Hearthstone: reading a snapshot

    The reader creates objects; [Heap] is the store together with the next
    unused identifier. *)

Record Heap := mkHeap { cells : oid -> Card; next : oid }.

Definition empty_heap : Heap := mkHeap (fun _ => Card_new) O.

(** Creating an object: its identifier and the heap afterwards. *)
Definition alloc (c : Card) (h : Heap) : oid * Heap :=
  (next h,
   mkHeap (fun j => if Nat.eqb j (next h) then c else cells h j) (S (next h))).

(** The chain of tests in the loop of [_generate_cards]: the card built for
    one symbol, if any.  [int] fails on a string of digit characters that
    holds a superscript digit. *)
Definition card_of_symbol (_symbol : string) : result (option Card) :=
  if String.eqb _symbol CARD_SYMBOL then Ok (Some Card_new)
  else if String.eqb _symbol SHIELD_SYMBOL then Ok (Some Shield)
  else if String.eqb _symbol HEAL_SYMBOL then Ok (Some Heal)
  else if isdigit _symbol then
    bind (of_option ValueError (int _symbol)) (fun n => Ok (Some (Fireball n)))
  else if String.eqb _symbol MINION_SYMBOL then Ok (Some (Minion 1 0))
  else if String.eqb _symbol RAPTOR_SYMBOL then Ok (Some (Raptor 1 0))
  else if String.eqb _symbol WYRM_SYMBOL then Ok (Some (Wyrm 1 0))
  else Ok None.

Fixpoint generate_from (build : string -> result (option Card))
    (pieces : list string) (h : Heap) : result (list oid * Heap) :=
  match pieces with
  | [] => Ok ([], h)
  | piece :: rest =>
      bind (build piece) (fun made =>
        match made with
        | Some c =>
            let (id, h1) := alloc c h in
            bind (generate_from build rest h1) (fun '(ids, h2) => Ok (id :: ids, h2))
        | None => generate_from build rest h
        end)
  end.

Definition _generate_cards (cards : string) (h : Heap) : result (list oid * Heap) :=
  generate_from card_of_symbol (split "," cards) h.

Definition _generate_hero (hero : string) (h : Heap) : result (Hero * Heap) :=
  match split ";" hero with
  | [_stats; _deck_symbols; _hand_symbols] =>
      match split "," _stats with
      | [_health; _shield; _max_energy] =>
          bind (_generate_cards _deck_symbols h) (fun '(_deck, h1) =>
          bind (_generate_cards _hand_symbols h1) (fun '(_hand, h2) =>
          bind (of_option ValueError (int _health)) (fun health =>
          bind (of_option ValueError (int _shield)) (fun shield =>
          bind (of_option ValueError (int _max_energy)) (fun max_energy =>
          Ok (Hero_new health shield max_energy (mkCardDeck _deck) _hand, h2))))))
      | _ => Raise ValueError
      end
  | _ => Raise ValueError
  end.

(** The body of the loop of [_generate_minions] for one piece. *)
Definition minion_of_piece (_minion : string) : result (option Card) :=
  match split "," _minion with
  | [_symbol; _health; _shield] =>
      let build (make : Z -> Z -> Card) :=
        bind (of_option ValueError (int _health)) (fun health =>
        bind (of_option ValueError (int _shield)) (fun shield =>
        Ok (Some (make health shield)))) in
      if String.eqb _symbol MINION_SYMBOL then build Minion
      else if String.eqb _symbol RAPTOR_SYMBOL then build Raptor
      else if String.eqb _symbol WYRM_SYMBOL then build Wyrm
      else Ok None
  | _ => Raise ValueError
  end.

Definition _generate_minions (minions : string) (h : Heap)
    : result (list oid * Heap) :=
  if String.eqb (strip minions) "" then Ok ([], h)
  else generate_from minion_of_piece (split ";" minions) h.

(** [load_game], from the line read from the file on. *)
Definition load_game (_game_state : string) : result HearthModel :=
  match split "|" _game_state with
  | _player :: _active_player_minions :: _enemy :: _active_enemy_minions :: _ =>
      bind (_generate_hero _player empty_heap) (fun '(player, h1) =>
      bind (_generate_minions _active_player_minions h1) (fun '(player_minions, h2) =>
      bind (_generate_hero _enemy h2) (fun '(enemy, h3) =>
      bind (_generate_minions _active_enemy_minions h3) (fun '(enemy_minions, h4) =>
      Ok (mkHearthModel (cells h4) player player_minions enemy enemy_minions)))))
  | _ => Raise IndexError
  end.

Local Close Scope string_scope.

(** ** Sample states used by the statements below *)

Module Samples.

(** A store holding the objects of [l] at the identifiers [0], [1], ... *)
Definition store_of (l : list Card) : oid -> Card := fun j => nth j l Card_new.

Definition idle_hero : Hero := Hero_new 10 0 0 (mkCardDeck []) [].

(** An ally hero of health 10 with two Wyrm minions of health 10 each. *)
Definition wyrm_tie : HearthModel :=
  mkHearthModel (store_of [Wyrm 10 0; Wyrm 10 0]) idle_hero [0; 1]%nat
                idle_hero [].

(** Enemy minions of health 3, 7, 7 and 2. *)
Definition raptor_row : HearthModel :=
  mkHearthModel (store_of [Minion 3 0; Minion 7 0; Minion 7 0; Minion 2 0])
                idle_hero [] idle_hero [0; 1; 2; 3]%nat.

(** A card of cost 5 (no class of the source has this cost). *)
Definition costly : Card :=
  mkCard ClsShield SHIELD_NAME SHIELD_SYMBOL 5 (mkEffect None None (Some 5))
         false 0 (mkEntity 0 0).

(** A player with a Raptor and a Wyrm on the board facing an enemy whose
    deck holds its last card. *)
Definition last_draw : HearthModel :=
  mkHearthModel
    (store_of [Fireball 2; Shield; Raptor 3 1; Wyrm 2 0; Heal; Minion 1 0])
    (Hero_new 10 2 3 (mkCardDeck [0; 1]%nat) [4]%nat) [2; 3]%nat
    (Hero_new 7 0 1 (mkCardDeck [5]%nat) []) [].

(** A player with a full roster holding a Raptor card it can pay for. *)
Definition full_board : HearthModel :=
  mkHearthModel
    (store_of [Minion 1 0; Minion 2 0; Wyrm 3 0; Raptor 4 0; Minion 5 0;
               Raptor 1 0; Shield; Heal])
    (Hero_new 10 0 4 (mkCardDeck [6]%nat) [5]%nat) [0; 1; 2; 3; 4]%nat
    (Hero_new 10 0 1 (mkCardDeck [7]%nat) []) [].

(** The objects of the two heroes below: nine cards, two Fireballs among
    them. *)
Definition nine_cards : oid -> Card :=
  store_of [Fireball 0; Shield; Heal; Shield; Fireball 1; Heal; Shield; Heal;
            Fireball 4].

(** A hero with an empty hand and three cards in the deck. *)
Definition short_deck_hero : Hero :=
  Hero_new 10 0 2 (mkCardDeck [0; 1; 2]%nat) [].

(** A hero holding six cards, with three cards in the deck. *)
Definition crowded_hero : Hero :=
  Hero_new 10 0 2 (mkCardDeck [6; 7; 8]%nat) [0; 1; 2; 3; 4; 5]%nat.

(** A hero holding two cards, a Fireball among them, with four cards in the
    deck, the first a Fireball. *)
Definition fresh_hero : Hero :=
  Hero_new 10 0 2 (mkCardDeck [8; 1; 2; 3]%nat) [4; 5]%nat.

(** A player with 1 energy holding a Fireball. *)
Definition broke_player : HearthModel :=
  mkHearthModel (store_of [Fireball 0; Shield; Heal])
                (Hero_new 10 0 1 (mkCardDeck [1]%nat) [0]%nat) []
                (Hero_new 10 0 1 (mkCardDeck [2]%nat) []) [].

(** A player roster of six minions, which no run from a roster of at most
    five reaches, and a Raptor card in hand. *)
Definition six_minions : HearthModel :=
  mkHearthModel
    (store_of [Minion 1 0; Minion 1 0; Minion 1 0; Minion 1 0; Minion 1 0;
               Minion 1 0; Raptor 1 0; Shield; Heal])
    (Hero_new 10 0 4 (mkCardDeck [7]%nat) [6]%nat) [0; 1; 2; 3; 4; 5]%nat
    (Hero_new 10 0 1 (mkCardDeck [8]%nat) []) [].

(** An enemy with capacity 2 about to draw a Heal, a Fireball, a Shield, a
    Wyrm and a Shield from a deck of six, facing a player with one Raptor on
    the board. *)
Definition enemy_turn : HearthModel :=
  mkHearthModel
    (store_of [Heal; Fireball 0; Shield; Wyrm 1 0; Shield; Raptor 2 0; Heal; Heal;
               Heal])
    (Hero_new 10 0 1 (mkCardDeck [6; 7]%nat) []) [5]%nat
    (Hero_new 10 0 2 (mkCardDeck [0; 1; 2; 3; 4; 8]%nat) []) [].

(** An enemy with a full roster and capacity 1 about to draw a Wyrm card
    and four Shields from a deck of six. *)
Definition enemy_full_board : HearthModel :=
  mkHearthModel
    (store_of [Minion 1 0; Minion 2 0; Minion 3 0; Minion 4 0; Minion 5 0;
               Wyrm 1 0; Shield; Shield; Shield; Shield; Heal; Heal; Heal])
    (Hero_new 10 0 1 (mkCardDeck [11; 12]%nat) []) []
    (Hero_new 10 0 1 (mkCardDeck [5; 6; 7; 8; 9; 10]%nat) [])
    [0; 1; 2; 3; 4]%nat.

(** An enemy holding three cards of cost 5 with 3 energy. *)
Definition poor_enemy : HearthModel :=
  mkHearthModel (store_of [costly; costly; costly])
                idle_hero []
                (mkHero (mkEntity 10 0) 3 3 (mkCardDeck []) [0; 1; 2]%nat) [].

End Samples.

(** * Vocabulary of the statements *)

(** ** Targeting *)

(** The health read from the object behind a reference. *)
Definition health_of (m : HearthModel) (r : EntityRef) : Z :=
  get_health (deref m r).

(** The step of the Wyrm loop, on references. *)
Definition lower (m : HearthModel) (best x : EntityRef) : EntityRef :=
  if health_of m x <? health_of m best then x else best.

(** The step of the Raptor loop, on references. *)
Definition higher (m : HearthModel) (best x : EntityRef) : EntityRef :=
  if health_of m best <? health_of m x then x else best.

(** [best] is the leftmost entity of [seen] with the lowest health. *)
Definition leftmost_lowest (m : HearthModel) (seen : list EntityRef)
    (best : EntityRef) : Prop :=
  exists before after,
    seen = before ++ best :: after
    /\ (forall x, In x before -> health_of m best < health_of m x)
    /\ (forall x, In x after -> health_of m best <= health_of m x).

(** [best] is the leftmost entity of [seen] with the highest health. *)
Definition leftmost_highest (m : HearthModel) (seen : list EntityRef)
    (best : EntityRef) : Prop :=
  exists before after,
    seen = before ++ best :: after
    /\ (forall x, In x before -> health_of m x < health_of m best)
    /\ (forall x, In x after -> health_of m x <= health_of m best).

(** ** Frames

    The attributes of a card object that no step of a turn writes except
    [increment_turn], and the part of a hero that effects do not touch. *)
Definition card_static (c : Card) :=
  (cls c, _name c, _symbol c, _cost c, _is_permanent c, _turns_in_hand c).

Definition hero_static (h : Hero) :=
  (_energy_capacity h, _energy h, _deck h, _hand h).

Definition effect_frame (m m' : HearthModel) : Prop :=
  hero_static (_player m') = hero_static (_player m)
  /\ hero_static (_enemy m') = hero_static (_enemy m)
  /\ forall id, card_static (objects m' id) = card_static (objects m id).

Definition rosters_shrink (m m' : HearthModel) : Prop :=
  (length (_active_player_minions m') <= length (_active_player_minions m))%nat
  /\ (length (_active_enemy_minions m') <= length (_active_enemy_minions m))%nat.

(** ** The enemy's card-playing loop *)

(** The enemy can pay for card [id] in state [m]. *)
Definition affordable (m : HearthModel) (id : oid) : bool :=
  get_cost (objects m id) <=? get_energy (_enemy m).

(** The state in which the enemy has paid for [card] and played it. *)
Definition enemy_played (card : oid) (m : HearthModel) : HearthModel :=
  enemy_plays card
    (set_enemy (set_energy (_energy (_enemy m) - get_cost (objects m card)) (_enemy m)) m).

(** *** The reference policy, in the words of the specification

    A hand is seen as the list of the type names and costs of its cards.
    One scan from the first card plays the first card the energy pays for;
    the scan is repeated from the start of the hand that remains, until a
    scan plays nothing. *)

Fixpoint first_affordable (energy : Z) (hand : list (string * Z))
    : option (string * Z * list (string * Z)) :=
  match hand with
  | [] => None
  | (name, cost) :: rest =>
      if cost <=? energy then Some (name, cost, rest)
      else
        match first_affordable energy rest with
        | Some (n, c, rest') => Some (n, c, (name, cost) :: rest')
        | None => None
        end
  end.

Fixpoint reference_plays (scans : nat) (energy : Z) (hand : list (string * Z))
    : list string :=
  match scans with
  | O => []
  | S scans' =>
      match first_affordable energy hand with
      | Some (name, cost, hand') =>
          name :: reference_plays scans' (energy - cost) hand'
      | None => []
      end
  end.

(** Every successful scan removes a card, so a hand of [n] cards is played
    out within [n] successful scans. *)
Definition reference_policy (energy : Z) (hand : list (string * Z)) : list string :=
  reference_plays (length hand) energy hand.

(** The enemy hand of a state, seen that way. *)
Definition card_view (m : HearthModel) (id : oid) : string * Z :=
  (type_name (cls (objects m id)), get_cost (objects m id)).

Definition hand_view (m : HearthModel) : list (string * Z) :=
  map (card_view m) (get_hand (_enemy m)).

(** ** Rosters *)

(** Each roster holds at most five minions. *)
Definition rosters_bounded (m : HearthModel) : Prop :=
  (length (_active_player_minions m) <= 5)%nat
  /\ (length (_active_enemy_minions m) <= 5)%nat.

(** ** new_turn *)

(** The number of cards a call of [new_turn] adds to the hand, and the
    number the specification gives, [max(0, 5 - |hand|)]. *)
Definition drawn_count (objs : oid -> Card) (self : Hero) : nat :=
  length (_hand (snd (new_turn objs self))) - length (_hand self).

Definition stated_draw (self : Hero) : nat :=
  Z.to_nat (Z.max 0 (5 - Z.of_nat (length (_hand self)))).

(** ** Snapshots *)

(** Characters of a printed integer: decimal digits and the minus sign. *)
Definition is_number_char (c : ascii) : bool :=
  is_decimal_char c || Ascii.eqb c "-"%char.

(** The cards of the catalog: an object whose symbol is the one its class
    sets; a Fireball carries a count of turns, which is not negative, and
    its symbol is that count printed. *)
Definition catalog_card (c : Card) : bool :=
  match cls c with
  | ClsCard => String.eqb (_symbol c) CARD_SYMBOL
  | ClsShield => String.eqb (_symbol c) SHIELD_SYMBOL
  | ClsHeal => String.eqb (_symbol c) HEAL_SYMBOL
  | ClsFireball =>
      (0 <=? _turns_in_hand c) && String.eqb (_symbol c) (str (_turns_in_hand c))
  | ClsMinion => String.eqb (_symbol c) MINION_SYMBOL
  | ClsWyrm => String.eqb (_symbol c) WYRM_SYMBOL
  | ClsRaptor => String.eqb (_symbol c) RAPTOR_SYMBOL
  end.

Definition catalog_minion (c : Card) : bool :=
  match cls c with
  | ClsMinion | ClsWyrm | ClsRaptor => catalog_card c
  | _ => false
  end.

Definition catalog_hero (objs : oid -> Card) (h : Hero) : bool :=
  forallb (fun id => catalog_card (objs id)) (_cards (_deck h))
  && forallb (fun id => catalog_card (objs id)) (_hand h).

Definition catalog_state (m : HearthModel) : bool :=
  catalog_hero (objects m) (_player m)
  && catalog_hero (objects m) (_enemy m)
  && forallb (fun id => catalog_minion (objects m id)) (_active_player_minions m)
  && forallb (fun id => catalog_minion (objects m id)) (_active_enemy_minions m).

(** What the snapshot records of a hero and of a roster. *)
Definition hero_stats (h : Hero) : Z * Z * Z :=
  (_health (hero_entity h), _shield (hero_entity h), _energy_capacity h).

Definition minion_triples (objs : oid -> Card) (minions : list oid)
    : list (string * Z * Z) :=
  map (fun id => (get_symbol (objs id), get_health (as_entity (objs id)),
                  get_shield (as_entity (objs id))))
      minions.

(** The object the reader builds for a card of the catalog, in a hand or
    deck and in a roster. *)
Definition reread_card (c : Card) : Card :=
  match cls c with
  | ClsCard => Card_new
  | ClsShield => Shield
  | ClsHeal => Heal
  | ClsFireball => Fireball (_turns_in_hand c)
  | ClsMinion => Minion 1 0
  | ClsWyrm => Wyrm 1 0
  | ClsRaptor => Raptor 1 0
  end.

Definition reread_minion (c : Card) : Card :=
  match cls c with
  | ClsWyrm => Wyrm (_health (as_entity c)) (_shield (as_entity c))
  | ClsRaptor => Raptor (_health (as_entity c)) (_shield (as_entity c))
  | _ => Minion (_health (as_entity c)) (_shield (as_entity c))
  end.

(** The text of one roster entry. *)
Definition minion_piece (c : Card) : string :=
  (get_symbol c ++ "," ++ str (get_health (as_entity c)) ++ ","
   ++ str (get_shield (as_entity c)))%string.

(** Heap [h'] holds every object of [h] unchanged. *)
Definition extends (h h' : Heap) : Prop :=
  (next h <= next h')%nat
  /\ forall j, (j < next h)%nat -> cells h' j = cells h j.

(** The three separators of the snapshot format. *)
Definition separator (c : ascii) : bool :=
  Ascii.eqb c ","%char || Ascii.eqb c ";"%char || Ascii.eqb c "|"%char.

(** The first field of [Hero.__str__]. *)
Definition stats_text (self : Hero) : string :=
  (str (_health (hero_entity self)) ++ "," ++ str (_shield (hero_entity self))
   ++ "," ++ str (_energy_capacity self))%string.

(** * Further vocabulary *)

(** ** Genuine objects

    The classes of the source fix the name, the cost and the permanence of
    their objects; the name of each class is its type name. *)

Definition minion_class (k : class) : bool :=
  match k with
  | ClsMinion | ClsWyrm | ClsRaptor => true
  | _ => false
  end.

Definition class_cost (k : class) : Z :=
  match k with
  | ClsCard | ClsShield => 1
  | ClsHeal => 2
  | ClsFireball => 3
  | ClsMinion | ClsWyrm | ClsRaptor => 2
  end.

(** An object as a constructor of the source builds it and the methods
    keep it: a card of the catalog whose name, permanence and cost are
    those of its class. *)
Definition genuine (c : Card) : bool :=
  catalog_card c
  && String.eqb (_name c) (type_name (cls c))
  && Bool.eqb (_is_permanent c) (minion_class (cls c))
  && (_cost c =? class_cost (cls c)).

(** Every object of the store is genuine and the rosters hold minions. *)
Definition well_formed (m : HearthModel) : Prop :=
  (forall id, genuine (objects m id) = true)
  /\ Forall (fun id => minion_class (cls (objects m id)) = true)
            (_active_player_minions m)
  /\ Forall (fun id => minion_class (cls (objects m id)) = true)
            (_active_enemy_minions m).

(** Each hand holds at most five cards. *)
Definition hands_bounded (m : HearthModel) : Prop :=
  (length (_hand (_player m)) <= 5)%nat /\ (length (_hand (_enemy m)) <= 5)%nat.

(** The energy of a hero lies between zero and its capacity. *)
Definition energy_bounded (h : Hero) : Prop :=
  0 <= _energy h <= _energy_capacity h.

(** An amount, when the effect has one, applied to an entity. *)
Definition apply_amount (apply : Z -> Entity -> Entity) (amount : option Z)
    (e : Entity) : Entity :=
  match amount with
  | Some n => apply n e
  | None => e
  end.

(** The effect of a card resolved on an entity: damage, then health, then
    shield. *)
Definition resolve (eff : Effect) (e : Entity) : Entity :=
  apply_amount apply_shield (SHIELD eff)
    (apply_amount apply_health (HEALTH eff)
       (apply_amount apply_damage (DAMAGE eff) e)).

(** ** Objects created by the reader *)

(** The objects [ids] were created on heap [h], which gave [h']: they take
    the identifiers from [next h] on, in order, each satisfies [Q], and no
    other cell of the heap changed. *)
Definition created (Q : Card -> Prop) (h : Heap) (ids : list oid) (h' : Heap)
    : Prop :=
  ids = seq (next h) (length ids)
  /\ next h' = (next h + length ids)%nat
  /\ (forall j, (j < next h)%nat \/ (next h' <= j)%nat -> cells h' j = cells h j)
  /\ Forall (fun id => Q (cells h' id)) ids.

(** A card as [_generate_cards] builds it: the value its constructor
    returns, a Fireball with a count of turns that is not negative, a
    minion with 1 health and no shield. *)
Definition new_card (c : Card) : Prop :=
  c = reread_card c /\ genuine c = true.

(** A minion as [_generate_minions] builds it: the value the constructor of
    a minion class returns for its health and shield. *)
Definition new_minion (c : Card) : Prop :=
  c = reread_minion c.

(** ** Energy *)

(** No object has a negative cost (the classes of the source set 1, 2 or
    3). *)
Definition costs_not_negative (m : HearthModel) : Prop :=
  forall id, 0 <= get_cost (objects m id).

(** No cost is negative and each hero holds an energy between zero and its
    capacity. *)
Definition energies_bounded (m : HearthModel) : Prop :=
  costs_not_negative m
  /\ energy_bounded (_player m) /\ energy_bounded (_enemy m).

(** * The controller: commands

    [get_command] and the branches of [play] that read a play or discard
    command, with the model of the controller as argument.  The lines the
    user enters are, like all strings here, sequences of code points below
    256.  The screen is drawn by [display.py], which is not embedded:
    [get_command] takes the method [update_display] as an argument, a
    function of the model and the messages that returns nothing or raises
    (a [DisplayError] when the content does not fit the screen). *)

Definition HELP_COMMAND : string := "help".
Definition END_TURN_COMMAND : string := "end turn".
Definition PLAY_COMMAND : string := "play".
Definition DISCARD_COMMAND : string := "discard".
Definition LOAD_COMMAND : string := "load".
Definition INVALID_COMMAND : string :=
  "Invalid command! Enter 'Help' to see a list of valid commands.".

Module PyStr.

(** [c.lower()] for one character: the capitals [A] to [Z], and the capitals
    of the upper half (192 to 222, but for the multiplication sign 215),
    stand 32 places below their small letters. *)
Definition lower_char (c : ascii) : ascii :=
  let n := code c in
  if ((65 <=? n) && (n <=? 90))
     || ((192 <=? n) && (n <=? 222) && negb (n =? 215))
  then ascii_of_nat (nat_of_ascii c + 32)
  else c.

(** [s.lower()] *)
Fixpoint lower (s : string) : string :=
  match s with
  | EmptyString => EmptyString
  | String c r => String (lower_char c) (lower r)
  end.

(** [s.split()]: the runs of characters that are not whitespace.
    [split_runs] gives the run the string starts with, which is empty when
    it starts with whitespace, and the runs after it. *)
Definition push_word (word : string) (words : list string) : list string :=
  match word with
  | EmptyString => words
  | _ => word :: words
  end.

Fixpoint split_runs (s : string) : string * list string :=
  match s with
  | EmptyString => (EmptyString, [])
  | String c r =>
      let (word, words) := split_runs r in
      if is_space c then (EmptyString, push_word word words)
      else (String c word, words)
  end.

Definition split_whitespace (s : string) : list string :=
  let (word, words) := split_runs s in push_word word words.

(** [l[i]]: a negative index counts from the end of the list. *)
Definition index {A} (l : list A) (i : Z) : result A :=
  let n := Z.of_nat (length l) in
  if (0 <=? i) && (i <? n) then of_option IndexError (nth_error l (Z.to_nat i))
  else if (- n <=? i) && (i <? 0) then
    of_option IndexError (nth_error l (Z.to_nat (n + i)))
  else Raise IndexError.

End PyStr.

(** The condition of the [if] in [get_command], on the lowered line. *)
Definition command_test (_model : HearthModel) (_command : string) : result bool :=
  if String.eqb _command HELP_COMMAND || String.eqb _command END_TURN_COMMAND
  then Ok true
  else
    match PyStr.split_whitespace _command with
    | [first; second] =>
        if String.eqb first LOAD_COMMAND then Ok true
        else if String.eqb first PLAY_COMMAND || String.eqb first DISCARD_COMMAND
        then
          if isdigit second then
            bind (of_option ValueError (int second)) (fun n =>
              Ok ((1 <=? n)
                  && (n <? Z.of_nat (length (get_hand (get_player _model))) + 1)))
          else Ok false
        else Ok false
    | _ => Ok false
    end.

(** [get_command], over the lines the user enters one after the other:
    a line that is refused is answered by [update_display] with the message
    [INVALID_COMMAND], and the prompt stands again.  [None] when every line
    was refused. *)
Fixpoint get_command (update_display : HearthModel -> list string -> result unit)
    (_model : HearthModel) (lines : list string) : result (option string) :=
  match lines with
  | [] => Ok None
  | line :: rest =>
      let _command := PyStr.lower line in
      bind (command_test _model _command) (fun valid =>
        if valid then Ok (Some _command)
        else
          bind (update_display _model [INVALID_COMMAND]) (fun _ =>
            get_command update_display _model rest))
  end.

(** In [play], the card a play or discard command names:
    [hand[int(_command.split()[1]) - 1]]. *)
Definition commanded_card (_model : HearthModel) (_command : string) : result oid :=
  match PyStr.split_whitespace _command with
  | _ :: second :: _ =>
      bind (of_option ValueError (int second)) (fun n =>
        PyStr.index (get_hand (get_player _model)) (n - 1))
  | _ => Raise IndexError
  end.

(** The branch of [play] for a discard command. *)
Definition run_discard (_model : HearthModel) (_command : string)
    : result HearthModel :=
  bind (commanded_card _model _command) (fun _card => discard_card _card _model).

(** The branch of [play] for a play command, with the target the user
    chose (a permanent card is played with a target that is not read). *)
Definition run_play (_model : HearthModel) (_command : string) (_target : EntityRef)
    : result (bool * HearthModel) :=
  bind (commanded_card _model _command) (fun _card => play_card _card _target _model).

(** * Properties *)

(** ** Entity: damage arithmetic *)

(** C5: for health [h >= 0], shield [s >= 0] and damage [d >= 0], after
    [apply_damage d] the health is [max 0 (h - max 0 (d - s))], the shield
    is [max 0 (s - d)], and the health is not negative. *)
Theorem apply_damage_clamped (h s d : Z) :
  0 <= h -> 0 <= s -> 0 <= d ->
  let e := apply_damage d (mkEntity h s) in
  _health e = Z.max 0 (h - Z.max 0 (d - s))
  /\ _shield e = Z.max 0 (s - d)
  /\ 0 <= _health e.
Proof.
  intros Hh Hs Hd. unfold apply_damage. cbn [_health _shield].
  destruct (Z.leb_spec d s) as [Hle | Hgt]; cbn [_health _shield].
  - repeat split; lia.
  - destruct (Z.ltb_spec (h - (d - s)) 0); repeat split; lia.
Qed.

Lemma apply_damage_clamped_witness :
  let e := apply_damage 7 (mkEntity 4 5) in
  _health e = Z.max 0 (4 - Z.max 0 (7 - 5))
  /\ _shield e = Z.max 0 (5 - 7)
  /\ 0 <= _health e.
Proof. apply (apply_damage_clamped 4 5 7); lia. Defined.

(** ** Win and loss *)

Lemma won_and_lost_false (m : HearthModel) : has_won m && has_lost m = false.
Proof.
  unfold has_won, has_lost.
  destruct (Hero_is_alive (_player m)), (Hero_is_alive (_enemy m)); reflexivity.
Qed.

(** C1, as the code has it: [has_won] is [player.is_alive() and not
    enemy.is_alive()], [has_lost] is [not player.is_alive()], and no state
    makes both true; a state with both heroes defeated reports a loss only. *)
Theorem has_won_has_lost_exclusive (m : HearthModel) :
  has_won m = Hero_is_alive (_player m) && negb (Hero_is_alive (_enemy m))
  /\ has_lost m = negb (Hero_is_alive (_player m))
  /\ (has_won m = true -> has_lost m = false)
  /\ (Hero_is_alive (_player m) = false -> Hero_is_alive (_enemy m) = false ->
      has_won m = false /\ has_lost m = true).
Proof.
  repeat split; try reflexivity.
  - intros Hw. pose proof (won_and_lost_false m) as H. rewrite Hw in H. exact H.
  - unfold has_won. rewrite H. reflexivity.
  - unfold has_lost. rewrite H. reflexivity.
Qed.

(** C1, as stated, fails: no game state has [has_won] and [has_lost] both
    true. *)
Lemma no_state_won_and_lost :
  ~ exists m : HearthModel, has_won m = true /\ has_lost m = true.
Proof.
  intros [m [Hw Hl]]. pose proof (won_and_lost_false m) as H.
  rewrite Hw, Hl in H. discriminate H.
Qed.

(** ** Targeting policies *)

Section Scans.

Variable m : HearthModel.

Lemma lower_step seen best x :
  leftmost_lowest m seen best -> leftmost_lowest m (seen ++ [x]) (lower m best x).
Proof.
  intros (before & after & Hseen & Hb & Ha). unfold lower.
  destruct (Z.ltb_spec (health_of m x) (health_of m best)) as [Hlt | Hge].
  - exists seen, []. split; [reflexivity | split].
    + intros y Hy. rewrite Hseen in Hy. apply in_app_or in Hy.
      destruct Hy as [Hy | [Hy | Hy]].
      * specialize (Hb y Hy). lia.
      * subst y. lia.
      * specialize (Ha y Hy). lia.
    + intros y [].
  - exists before, (after ++ [x]). split; [| split].
    + rewrite Hseen, <- app_assoc. reflexivity.
    + exact Hb.
    + intros y Hy. apply in_app_or in Hy. destruct Hy as [Hy | [Hy | []]].
      * apply Ha, Hy.
      * subst y. lia.
Qed.

Lemma higher_step seen best x :
  leftmost_highest m seen best -> leftmost_highest m (seen ++ [x]) (higher m best x).
Proof.
  intros (before & after & Hseen & Hb & Ha). unfold higher.
  destruct (Z.ltb_spec (health_of m best) (health_of m x)) as [Hlt | Hge].
  - exists seen, []. split; [reflexivity | split].
    + intros y Hy. rewrite Hseen in Hy. apply in_app_or in Hy.
      destruct Hy as [Hy | [Hy | Hy]].
      * specialize (Hb y Hy). lia.
      * subst y. lia.
      * specialize (Ha y Hy). lia.
    + intros y [].
  - exists before, (after ++ [x]). split; [| split].
    + rewrite Hseen, <- app_assoc. reflexivity.
    + exact Hb.
    + intros y Hy. apply in_app_or in Hy. destruct Hy as [Hy | [Hy | []]].
      * apply Ha, Hy.
      * subst y. lia.
Qed.

Lemma lower_scan minions : forall seen best,
  leftmost_lowest m seen best ->
  leftmost_lowest m (seen ++ map MinionRef minions)
    (fold_left (fun b minion => lower m b (MinionRef minion)) minions best).
Proof.
  induction minions as [| x rest IH]; intros seen best H; cbn [map fold_left].
  - rewrite app_nil_r. exact H.
  - replace (seen ++ MinionRef x :: map MinionRef rest)
      with ((seen ++ [MinionRef x]) ++ map MinionRef rest)
      by (rewrite <- app_assoc; reflexivity).
    apply IH, lower_step, H.
Qed.

Lemma higher_scan minions : forall seen best,
  leftmost_highest m seen best ->
  leftmost_highest m (seen ++ map MinionRef minions)
    (fold_left (fun b minion => higher m b (MinionRef minion)) minions best).
Proof.
  induction minions as [| x rest IH]; intros seen best H; cbn [map fold_left].
  - rewrite app_nil_r. exact H.
  - replace (seen ++ MinionRef x :: map MinionRef rest)
      with ((seen ++ [MinionRef x]) ++ map MinionRef rest)
      by (rewrite <- app_assoc; reflexivity).
    apply IH, higher_step, H.
Qed.

Lemma leftmost_lowest_min seen best :
  leftmost_lowest m seen best ->
  forall x, In x seen -> health_of m best <= health_of m x.
Proof.
  intros (before & after & -> & Hb & Ha) x Hx.
  apply in_app_or in Hx. destruct Hx as [Hx | [Hx | Hx]].
  - specialize (Hb x Hx). lia.
  - subst x. lia.
  - apply Ha, Hx.
Qed.

Lemma leftmost_highest_max seen best :
  leftmost_highest m seen best ->
  forall x, In x seen -> health_of m x <= health_of m best.
Proof.
  intros (before & after & -> & Hb & Ha) x Hx.
  apply in_app_or in Hx. destruct Hx as [Hx | [Hx | Hx]].
  - specialize (Hb x Hx). lia.
  - subst x. lia.
  - apply Ha, Hx.
Qed.

(** The head of the list is chosen as soon as nothing beats it strictly. *)
Lemma leftmost_lowest_head hd tl best :
  leftmost_lowest m (hd :: tl) best ->
  (forall x, In x tl -> health_of m hd <= health_of m x) ->
  best = hd.
Proof.
  intros (before & after & Hseen & Hb & Ha) Hhd.
  destruct before as [| b before'].
  - cbn in Hseen. congruence.
  - cbn in Hseen. injection Hseen as Hb0 Htl. subst b.
    assert (Hin : In best tl) by (rewrite Htl; apply in_or_app; right; left; reflexivity).
    specialize (Hhd best Hin). specialize (Hb hd (or_introl eq_refl)). lia.
Qed.

End Scans.

(** C7: [Wyrm.choose_target] returns the leftmost entity of lowest health
    among the ally hero followed by the ally minions in order: the hero
    whenever no minion is strictly lower, else the leftmost of the lowest
    minions.  With a hero of health 10 and two minions of health 10 the hero
    is returned. *)
Theorem Wyrm_choose_target_leftmost_lowest
    (m : HearthModel) (ally_hero enemy_hero : EntityRef)
    (ally_minions enemy_minions : list oid) :
  let allies := ally_hero :: map MinionRef ally_minions in
  let target :=
    Wyrm_choose_target m ally_hero enemy_hero ally_minions enemy_minions in
  leftmost_lowest m allies target
  /\ (forall x, In x allies -> health_of m target <= health_of m x)
  /\ ((forall minion, In minion ally_minions ->
         health_of m ally_hero <= health_of m (MinionRef minion)) ->
      target = ally_hero)
  /\ (forall a b,
        health_of m ally_hero = 10 -> health_of m (MinionRef a) = 10 ->
        health_of m (MinionRef b) = 10 ->
        Wyrm_choose_target m ally_hero enemy_hero [a; b] enemy_minions = ally_hero)
  /\ Wyrm_choose_target Samples.wyrm_tie PlayerHero EnemyHero
       (_active_player_minions Samples.wyrm_tie)
       (_active_enemy_minions Samples.wyrm_tie) = PlayerHero.
Proof.
  intros allies target.
  assert (Hscan : forall minions,
             leftmost_lowest m (ally_hero :: map MinionRef minions)
               (Wyrm_choose_target m ally_hero enemy_hero minions enemy_minions)).
  { intros minions.
    apply (lower_scan m minions [ally_hero] ally_hero).
    exists [], []. split; [reflexivity | split]; intros x []. }
  split; [apply Hscan | split; [| split; [| split]]].
  - apply leftmost_lowest_min, Hscan.
  - intros Hall. apply (leftmost_lowest_head m ally_hero (map MinionRef ally_minions)).
    + apply Hscan.
    + intros x Hx. apply in_map_iff in Hx. destruct Hx as (minion & <- & Hin).
      apply Hall, Hin.
  - intros a b Hh Ha Hb.
    apply (leftmost_lowest_head m ally_hero (map MinionRef [a; b])).
    + apply Hscan.
    + intros x [<- | [<- | []]]; lia.
  - reflexivity.
Qed.

Lemma raptor_seed (m : HearthModel) (first : oid) (rest : list oid) :
  fold_left (fun b minion => higher m b (MinionRef minion)) (first :: rest)
            (MinionRef first)
  = fold_left (fun b minion => higher m b (MinionRef minion)) rest
              (MinionRef first).
Proof.
  cbn [fold_left]. unfold higher at 2. rewrite Z.ltb_irrefl. reflexivity.
Qed.

(** C8: [Raptor.choose_target] returns the enemy hero when there is no
    enemy minion, and otherwise the leftmost enemy minion of highest health;
    for healths 3, 7, 7, 2 this is the minion at index 1. *)
Theorem Raptor_choose_target_leftmost_highest
    (m : HearthModel) (ally_hero enemy_hero : EntityRef)
    (ally_minions enemy_minions : list oid) :
  let target :=
    Raptor_choose_target m ally_hero enemy_hero ally_minions enemy_minions in
  (enemy_minions = [] -> target = enemy_hero)
  /\ (enemy_minions <> [] ->
      leftmost_highest m (map MinionRef enemy_minions) target
      /\ forall minion, In minion enemy_minions ->
           health_of m (MinionRef minion) <= health_of m target)
  /\ (forall a b c d,
        health_of m (MinionRef a) = 3 -> health_of m (MinionRef b) = 7 ->
        health_of m (MinionRef c) = 7 -> health_of m (MinionRef d) = 2 ->
        Raptor_choose_target m ally_hero enemy_hero ally_minions [a; b; c; d]
        = MinionRef (nth 1 [a; b; c; d] a))
  /\ Raptor_choose_target Samples.raptor_row PlayerHero EnemyHero
       (_active_player_minions Samples.raptor_row)
       (_active_enemy_minions Samples.raptor_row)
     = MinionRef (nth 1 (_active_enemy_minions Samples.raptor_row) O).
Proof.
  intros target. split; [| split; [| split]].
  - intros ->. reflexivity.
  - intros Hne. destruct enemy_minions as [| first rest]; [congruence |].
    assert (H : leftmost_highest m (map MinionRef (first :: rest)) target).
    { unfold target, Raptor_choose_target.
      change (leftmost_highest m ([MinionRef first] ++ map MinionRef rest)
                (fold_left (fun b minion => higher m b (MinionRef minion))
                           (first :: rest) (MinionRef first))).
      rewrite raptor_seed. apply higher_scan.
      exists [], []. split; [reflexivity | split]; intros x []. }
    split; [exact H |].
    intros minion Hin. apply (leftmost_highest_max m _ _ H).
    apply in_map, Hin.
  - intros a b c d Ha Hb Hc Hd. unfold Raptor_choose_target. cbn [fold_left nth].
    unfold health_of, get_health in *. cbn [deref] in *.
    repeat (progress (cbn; rewrite ?Ha, ?Hb, ?Hc, ?Hd)). reflexivity.
  - reflexivity.
Qed.

(** ** What the engine's steps leave unchanged *)

Lemma effect_frame_refl m : effect_frame m m.
Proof. repeat split. Qed.

Lemma effect_frame_trans m1 m2 m3 :
  effect_frame m1 m2 -> effect_frame m2 m3 -> effect_frame m1 m3.
Proof.
  intros (Hp & He & Hc) (Hp' & He' & Hc'). repeat split.
  - rewrite Hp'. exact Hp.
  - rewrite He'. exact He.
  - intros id. rewrite Hc'. apply Hc.
Qed.

Lemma rosters_shrink_refl m : rosters_shrink m m.
Proof. split; apply Nat.le_refl. Qed.

Lemma rosters_shrink_trans m1 m2 m3 :
  rosters_shrink m1 m2 -> rosters_shrink m2 m3 -> rosters_shrink m1 m3.
Proof. intros [H1 H2] [H3 H4]. split; eapply Nat.le_trans; eassumption. Qed.

Lemma filter_shorter {A} (p : A -> bool) (l : list A) :
  (length (filter p l) <= length l)%nat.
Proof.
  induction l as [| x l IH]; cbn; [apply Nat.le_refl |].
  destruct (p x); cbn; lia.
Qed.

Lemma store_frame id c m :
  card_static c = card_static (objects m id) -> effect_frame m (store id c m).
Proof.
  intros Hc. repeat split. intros j. cbn.
  destruct (Nat.eqb_spec j id) as [-> | Hne]; [exact Hc | reflexivity].
Qed.

Lemma store_rosters id c m :
  _active_player_minions (store id c m) = _active_player_minions m
  /\ _active_enemy_minions (store id c m) = _active_enemy_minions m.
Proof. split; reflexivity. Qed.

Lemma assign_frame r e m : effect_frame m (assign r e m).
Proof.
  destruct r as [| | id]; cbn [assign].
  - repeat split.
  - repeat split.
  - apply store_frame. reflexivity.
Qed.

Lemma assign_rosters r e m :
  _active_player_minions (assign r e m) = _active_player_minions m
  /\ _active_enemy_minions (assign r e m) = _active_enemy_minions m.
Proof. destruct r; split; reflexivity. Qed.

Lemma remove_defeated_frame m : effect_frame m (_remove_defeated_minions m).
Proof. repeat split. Qed.

Lemma remove_defeated_shrinks m : rosters_shrink m (_remove_defeated_minions m).
Proof. split; cbn; apply filter_shorter. Qed.

Lemma get_effect_static c : card_static (get_effect c) = card_static c.
Proof. unfold get_effect. destruct (cls c); reflexivity. Qed.

Lemma apply_if_present_frame key apply card target m :
  effect_frame m (apply_if_present key apply card target m).
Proof.
  unfold apply_if_present.
  set (m1 := store card (get_effect (objects m card)) m).
  assert (H1 : effect_frame m m1) by (apply store_frame, get_effect_static).
  destruct (key (_effect (objects m1 card))); [| exact H1].
  eapply effect_frame_trans; [exact H1 | apply assign_frame].
Qed.

Lemma apply_if_present_rosters key apply card target m :
  _active_player_minions (apply_if_present key apply card target m)
  = _active_player_minions m
  /\ _active_enemy_minions (apply_if_present key apply card target m)
     = _active_enemy_minions m.
Proof.
  unfold apply_if_present.
  destruct (key _); [| split; reflexivity].
  destruct target; split; reflexivity.
Qed.

Lemma use_effect_frame card target m : effect_frame m (_use_effect card target m).
Proof.
  unfold _use_effect.
  eapply effect_frame_trans; [| apply remove_defeated_frame].
  do 3 (eapply effect_frame_trans; [| apply apply_if_present_frame]).
  apply remove_defeated_frame.
Qed.

Lemma use_effect_shrinks card target m : rosters_shrink m (_use_effect card target m).
Proof.
  unfold _use_effect.
  eapply rosters_shrink_trans; [| apply remove_defeated_shrinks].
  eapply rosters_shrink_trans; [apply remove_defeated_shrinks |].
  set (m0 := _remove_defeated_minions m).
  destruct (apply_if_present_rosters DAMAGE apply_damage card target m0) as [P1 E1].
  set (m1 := apply_if_present DAMAGE apply_damage card target m0) in *.
  destruct (apply_if_present_rosters HEALTH apply_health card target m1) as [P2 E2].
  set (m2 := apply_if_present HEALTH apply_health card target m1) in *.
  destruct (apply_if_present_rosters SHIELD apply_shield card target m2) as [P3 E3].
  unfold rosters_shrink. rewrite P3, P2, P1, E3, E2, E1. split; apply Nat.le_refl.
Qed.

(** ** play_card *)

Lemma play_card_unaffordable m card target :
  get_energy (_player m) < get_cost (objects m card) ->
  play_card card target m = Ok (false, m).
Proof.
  intros Hlt. unfold play_card, spend_energy, get_energy in *.
  destruct (Z.leb_spec (get_cost (objects m card)) (_energy (_player m))); [lia |].
  reflexivity.
Qed.

Lemma play_card_affordable m card target :
  get_cost (objects m card) <= get_energy (_player m) ->
  play_card card target m = Raise ValueError
  \/ play_card card target m = Raise TypeError
  \/ exists m', play_card card target m = Ok (true, m').
Proof.
  intros Hle. unfold play_card, spend_energy, get_energy in *.
  destruct (Z.leb_spec (get_cost (objects m card)) (_energy (_player m))); [| lia].
  cbn [get_hand _hand set_energy].
  destruct (contains card (_hand (_player m))); [| left; reflexivity].
  match goal with |- context [if is_permanent ?c then _ else _] =>
    destruct (is_permanent c) end.
  - match goal with |- context [if ?b then Raise TypeError else _] =>
      destruct b end.
    + right; left; reflexivity.
    + right; right; eexists; reflexivity.
  - right; right; eexists; reflexivity.
Qed.

(** C9: [play_card] returns [False] exactly when the cost of the card
    exceeds the player's energy (for every card, those of the hand
    included); the call then returns normally and the model, with the
    energy, hand and deck of the player, the health and shield of both heroes
    and both rosters, is the one it started from. *)
Theorem play_card_false_iff_unaffordable
    (m : HearthModel) (card : oid) (target : EntityRef) :
  ((exists m', play_card card target m = Ok (false, m'))
   <-> get_energy (_player m) < get_cost (objects m card))
  /\ (get_energy (_player m) < get_cost (objects m card) ->
      play_card card target m = Ok (false, m))
  /\ (forall e, get_energy (_player m) < get_cost (objects m card) ->
      play_card card target m <> Raise e).
Proof.
  split; [split |].
  - intros [m' H].
    destruct (Z.lt_ge_cases (get_energy (_player m)) (get_cost (objects m card)))
      as [Hlt | Hge]; [exact Hlt |].
    destruct (play_card_affordable m card target Hge) as [E | [E | [m'' E]]];
      rewrite E in H; discriminate H.
  - intros Hlt. exists m. apply play_card_unaffordable, Hlt.
  - split.
    + apply play_card_unaffordable.
    + intros e Hlt. rewrite (play_card_unaffordable m card target Hlt). discriminate.
Qed.

(** ** The enemy's card-playing loop *)

Lemma enemy_scan_none cards : forall k m,
  (forall x, In x cards -> affordable m x = false) ->
  enemy_scan cards k m = (m, (k + length cards)%nat, None).
Proof.
  induction cards as [| c rest IH]; intros k m Hall; cbn [enemy_scan length].
  - rewrite Nat.add_0_r. reflexivity.
  - pose proof (Hall c (or_introl eq_refl)) as Hc.
    unfold affordable, get_energy in Hc. unfold spend_energy. rewrite Hc.
    rewrite IH by (intros x Hx; apply Hall; right; exact Hx).
    rewrite Nat.add_succ_r. reflexivity.
Qed.

Lemma enemy_scan_some pre : forall k m card post,
  (forall x, In x pre -> affordable m x = false) ->
  affordable m card = true ->
  enemy_scan (pre ++ card :: post) k m
  = (enemy_played card m, (k + length pre)%nat,
     Some (type_name (cls (objects m card)))).
Proof.
  induction pre as [| c rest IH]; intros k m card post Hall Hcard;
    cbn [enemy_scan length app].
  - unfold affordable, get_energy in Hcard. unfold spend_energy. rewrite Hcard.
    rewrite Nat.add_0_r. reflexivity.
  - pose proof (Hall c (or_introl eq_refl)) as Hc.
    unfold affordable, get_energy in Hc. unfold spend_energy. rewrite Hc.
    rewrite (IH (S k) m card post) by
      (first [exact Hcard | intros x Hx; apply Hall; right; exact Hx]).
    rewrite Nat.add_succ_r. reflexivity.
Qed.

Lemma find_first {A} (p : A -> bool) (l : list A) :
  (forall x, In x l -> p x = false)
  \/ exists pre card post,
       l = pre ++ card :: post
       /\ (forall x, In x pre -> p x = false) /\ p card = true.
Proof.
  induction l as [| y l IH].
  - left. intros x [].
  - destruct (p y) eqn:Hy.
    + right. exists [], y, l. split; [reflexivity | split; [intros x [] | exact Hy]].
    + destruct IH as [Hall | (pre & card & post & -> & Hpre & Hcard)].
      * left. intros x [<- | Hx]; [exact Hy | apply Hall, Hx].
      * right. exists (y :: pre), card, post.
        split; [reflexivity | split; [| exact Hcard]].
        intros x [<- | Hx]; [exact Hy | apply Hpre, Hx].
Qed.

Lemma remove_first (p : oid -> bool) pre card post :
  (forall x, In x pre -> p x = false) -> p card = true ->
  remove card (pre ++ card :: post) = pre ++ post.
Proof.
  intros Hpre Hcard. induction pre as [| y pre IH]; cbn [remove app].
  - rewrite Nat.eqb_refl. reflexivity.
  - destruct (Nat.eqb_spec card y) as [-> | Hne].
    + rewrite (Hpre y (or_introl eq_refl)) in Hcard. discriminate Hcard.
    + rewrite IH by (intros x Hx; apply Hpre; right; exact Hx). reflexivity.
Qed.

(** What playing a card leaves unchanged, and what it does to the hand and
    to the rosters. *)
Lemma enemy_plays_frame card m :
  let m' := enemy_plays card m in
  hero_static (_player m') = hero_static (_player m)
  /\ _energy_capacity (_enemy m') = _energy_capacity (_enemy m)
  /\ _energy (_enemy m') = _energy (_enemy m)
  /\ _deck (_enemy m') = _deck (_enemy m)
  /\ _hand (_enemy m') = remove card (_hand (_enemy m))
  /\ (forall id, card_static (objects m' id) = card_static (objects m id))
  /\ (is_permanent (objects m card) = true ->
      _active_enemy_minions m' = place_minion card (_active_enemy_minions m)
      /\ _active_player_minions m' = _active_player_minions m)
  /\ (is_permanent (objects m card) = false -> rosters_shrink m m').
Proof.
  unfold enemy_plays.
  destruct (is_permanent (objects m card)) eqn:Hperm.
  - cbn. repeat split; intros; discriminate.
  - set (m0 := store card (get_effect (objects m card)) m).
    assert (H0 : effect_frame m m0) by (apply store_frame, get_effect_static).
    assert (Hstep : forall t,
               effect_frame m (_use_effect card t m0)
               /\ rosters_shrink m (_use_effect card t m0)).
    { intros t. split.
      - eapply effect_frame_trans; [exact H0 | apply use_effect_frame].
      - apply (use_effect_shrinks card t m0). }
    assert (Hgoal : forall m1, effect_frame m m1 /\ rosters_shrink m m1 ->
      let m' := set_enemy (set_hand (remove card (get_hand (_enemy m1))) (_enemy m1)) m1 in
      hero_static (_player m') = hero_static (_player m)
      /\ _energy_capacity (_enemy m') = _energy_capacity (_enemy m)
      /\ _energy (_enemy m') = _energy (_enemy m)
      /\ _deck (_enemy m') = _deck (_enemy m)
      /\ _hand (_enemy m') = remove card (_hand (_enemy m))
      /\ (forall id, card_static (objects m' id) = card_static (objects m id))
      /\ (false = true ->
          _active_enemy_minions m' = place_minion card (_active_enemy_minions m)
          /\ _active_player_minions m' = _active_player_minions m)
      /\ (false = false -> rosters_shrink m m')).
    { intros m1 [(Hp & He & Hc) Hr]. cbn.
      unfold hero_static in He. injection He as Hcap Hen Hdeck Hhand.
      unfold get_hand. rewrite Hhand.
      repeat split; try assumption; try discriminate; apply Hr. }
    destruct (DAMAGE (_effect (get_effect (objects m card)))); apply Hgoal, Hstep.
Qed.

Lemma card_view_static m m' :
  (forall id, card_static (objects m' id) = card_static (objects m id)) ->
  forall l, map (card_view m') l = map (card_view m) l.
Proof.
  intros Hc l. apply map_ext. intros id. specialize (Hc id).
  unfold card_static in Hc. unfold card_view, get_cost. congruence.
Qed.

Lemma first_affordable_none m e l :
  (forall x, In x l -> e < get_cost (objects m x)) ->
  first_affordable e (map (card_view m) l) = None.
Proof.
  induction l as [| y l IH]; intros Hall; cbn; [reflexivity |].
  destruct (Z.leb_spec (get_cost (objects m y)) e) as [Hle | _].
  - specialize (Hall y (or_introl eq_refl)). lia.
  - rewrite IH by (intros x Hx; apply Hall; right; exact Hx). reflexivity.
Qed.

Lemma first_affordable_some m e pre card post :
  (forall x, In x pre -> e < get_cost (objects m x)) ->
  get_cost (objects m card) <= e ->
  first_affordable e (map (card_view m) (pre ++ card :: post))
  = Some (type_name (cls (objects m card)), get_cost (objects m card),
          map (card_view m) (pre ++ post)).
Proof.
  intros Hpre Hcard. induction pre as [| y pre IH]; cbn.
  - destruct (Z.leb_spec (get_cost (objects m card)) e); [reflexivity | lia].
  - destruct (Z.leb_spec (get_cost (objects m y)) e) as [Hle | _].
    + specialize (Hpre y (or_introl eq_refl)). lia.
    + cbn in IH. rewrite IH by (intros x Hx; apply Hpre; right; exact Hx).
      reflexivity.
Qed.

Lemma reference_plays_none scans e hand :
  first_affordable e hand = None -> reference_plays scans e hand = [].
Proof. intros H. destruct scans; cbn; [| rewrite H]; reflexivity. Qed.

Lemma affordable_false m x :
  affordable m x = false <-> get_energy (_enemy m) < get_cost (objects m x).
Proof. unfold affordable. rewrite Z.leb_gt. reflexivity. Qed.

Lemma affordable_true m x :
  affordable m x = true <-> get_cost (objects m x) <= get_energy (_enemy m).
Proof. unfold affordable. rewrite Z.leb_le. reflexivity. Qed.

(** The state after a card is paid for and played, seen from the hand. *)
Lemma enemy_played_frame card m pre post :
  get_hand (_enemy m) = pre ++ card :: post ->
  (forall x, In x pre -> affordable m x = false) ->
  affordable m card = true ->
  let m' := enemy_played card m in
  get_hand (_enemy m') = pre ++ post
  /\ get_energy (_enemy m') = get_energy (_enemy m) - get_cost (objects m card)
  /\ (forall id, card_static (objects m' id) = card_static (objects m id)).
Proof.
  intros Hhand Hpre Hcard. unfold enemy_played.
  match goal with |- context [enemy_plays card ?m0] =>
    destruct (enemy_plays_frame card m0) as (_ & _ & Hen & _ & Hh & Hc & _) end.
  cbn [_enemy set_enemy _hand _energy set_energy objects] in Hen, Hh, Hc.
  unfold get_hand, get_energy in *. cbn zeta.
  rewrite Hh, Hen, Hhand. repeat split.
  - apply (remove_first (affordable m)); assumption.
  - exact Hc.
Qed.

Lemma enemy_play_loop_reference : forall rounds m _played_cards,
  (length (get_hand (_enemy m)) < rounds)%nat ->
  (forall card, In card (get_hand (_enemy m)) -> 0 <= get_cost (objects m card)) ->
  exists m',
    enemy_play_loop rounds _played_cards m
    = Some (_played_cards ++ reference_policy (get_energy (_enemy m)) (hand_view m), m')
    /\ (forall card, In card (get_hand (_enemy m')) -> affordable m' card = false).
Proof.
  induction rounds as [| r IH]; intros m played Hlen Hcost; [lia |].
  cbn [enemy_play_loop].
  destruct (find_first (affordable m) (get_hand (_enemy m)))
    as [Hnone | (pre & card & post & Hhand & Hpre & Hcard)].
  - rewrite enemy_scan_none by exact Hnone. cbn [Nat.add]. rewrite Nat.leb_refl.
    exists m. split; [| exact Hnone].
    unfold reference_policy, hand_view.
    rewrite reference_plays_none, app_nil_r; [reflexivity |].
    apply first_affordable_none. intros x Hx. apply affordable_false, Hnone, Hx.
  - destruct (enemy_played_frame card m pre post Hhand Hpre Hcard)
      as (Hh1 & He1 & Hc1).
    set (m1 := enemy_played card m) in *.
    assert (Hc : 0 <= get_cost (objects m card)).
    { apply Hcost. rewrite Hhand. apply in_or_app. right. left. reflexivity. }
    assert (Href : reference_policy (get_energy (_enemy m)) (hand_view m)
                   = type_name (cls (objects m card))
                     :: reference_policy (get_energy (_enemy m1)) (hand_view m1)).
    { unfold reference_policy, hand_view. rewrite Hh1, He1, Hhand.
      rewrite (card_view_static m m1 Hc1).
      rewrite !length_map, !length_app. cbn [length].
      rewrite Nat.add_succ_r. cbn [reference_plays].
      rewrite first_affordable_some.
      - reflexivity.
      - intros x Hx. apply affordable_false, Hpre, Hx.
      - apply affordable_true, Hcard. }
    rewrite Hhand. rewrite enemy_scan_some by assumption. fold m1.
    cbn [Nat.add]. rewrite Href.
    destruct (Nat.leb_spec (length (get_hand (_enemy m1))) (length pre)) as [Hstop | Hgo].
    + exists m1.
      assert (Hpost : post = []).
      { rewrite Hh1, length_app in Hstop. destruct post; [reflexivity | cbn in Hstop; lia]. }
      subst post. rewrite app_nil_r in Hh1.
      assert (Hrest : forall x, In x (get_hand (_enemy m1)) -> affordable m1 x = false).
      { intros x Hx. rewrite Hh1 in Hx. apply affordable_false. rewrite He1.
        pose proof (proj1 (affordable_false m x) (Hpre x Hx)) as Hx'.
        specialize (Hc1 x). unfold card_static in Hc1. unfold get_cost in *.
        assert (E : _cost (objects m1 x) = _cost (objects m x)) by congruence.
        rewrite E. lia. }
      split; [| exact Hrest].
      unfold reference_policy at 1, hand_view at 1.
      rewrite reference_plays_none; [reflexivity |].
      apply first_affordable_none. intros x Hx. apply affordable_false, Hrest, Hx.
    + destruct (IH m1 (played ++ [type_name (cls (objects m card))])) as (m' & Hrun & Hfin).
      * rewrite Hh1. rewrite Hhand, length_app in Hlen. cbn [length] in Hlen.
        rewrite length_app. lia.
      * intros x Hx. rewrite Hh1 in Hx.
        specialize (Hc1 x). unfold card_static in Hc1. unfold get_cost in *.
        assert (E : _cost (objects m1 x) = _cost (objects m x)) by congruence.
        rewrite E. apply Hcost. rewrite Hhand.
        apply in_app_or in Hx. apply in_or_app. destruct Hx; [left | right; right]; assumption.
      * exists m'. split; [| exact Hfin].
        rewrite Hrun, <- app_assoc. reflexivity.
Qed.

(** A property kept by every card the enemy plays holds when the loop
    stops, and the loop stops within [length hand + 1] rounds. *)
Lemma enemy_play_loop_invariant (P : HearthModel -> Prop) :
  (forall m card, P m -> In card (get_hand (_enemy m)) ->
                  affordable m card = true -> P (enemy_played card m)) ->
  forall rounds m _played_cards,
    (length (get_hand (_enemy m)) < rounds)%nat -> P m ->
    exists l m', enemy_play_loop rounds _played_cards m = Some (l, m') /\ P m'.
Proof.
  intros Hstep. induction rounds as [| r IH]; intros m played Hlen HP; [lia |].
  cbn [enemy_play_loop].
  destruct (find_first (affordable m) (get_hand (_enemy m)))
    as [Hnone | (pre & card & post & Hhand & Hpre & Hcard)].
  - rewrite enemy_scan_none by exact Hnone. cbn [Nat.add]. rewrite Nat.leb_refl.
    exists played, m. split; [reflexivity | exact HP].
  - destruct (enemy_played_frame card m pre post Hhand Hpre Hcard) as (Hh1 & _ & _).
    assert (HP1 : P (enemy_played card m)).
    { apply Hstep; [exact HP | | exact Hcard].
      rewrite Hhand. apply in_or_app. right. left. reflexivity. }
    rewrite Hhand. rewrite enemy_scan_some by assumption.
    set (m1 := enemy_played card m) in *. cbn [Nat.add].
    destruct (Nat.leb_spec (length (get_hand (_enemy m1))) (length pre)).
    + eexists _, m1. split; [reflexivity | exact HP1].
    + apply IH; [| exact HP1].
      rewrite Hh1, length_app. rewrite Hhand, length_app in Hlen.
      cbn [length] in Hlen. lia.
Qed.

Lemma enemy_play_loop_more : forall rounds _played_cards m x,
  enemy_play_loop rounds _played_cards m = Some x ->
  forall rounds', (rounds <= rounds')%nat ->
  enemy_play_loop rounds' _played_cards m = Some x.
Proof.
  induction rounds as [| r IH]; intros played m x Hrun rounds' Hle;
    [discriminate Hrun |].
  destruct rounds' as [| r']; [lia |].
  cbn [enemy_play_loop] in *.
  destruct (enemy_scan (get_hand (_enemy m)) 0 m) as [[m1 skipped] name].
  destruct (length (get_hand (_enemy m1)) <=? skipped)%nat; [exact Hrun |].
  apply (IH _ _ _ Hrun). lia.
Qed.

(** *** Rosters hold at most five minions *)

Lemma rosters_bounded_shrink m m' :
  rosters_shrink m m' -> rosters_bounded m -> rosters_bounded m'.
Proof. intros [H1 H2] [H3 H4]. split; lia. Qed.

Lemma place_minion_full card roster :
  length roster = 5%nat -> place_minion card roster = skipn 1 roster ++ [card].
Proof.
  intros H. unfold place_minion. rewrite H. cbn [Nat.eqb].
  destruct roster; reflexivity.
Qed.

Lemma place_minion_room card roster :
  (length roster < 5)%nat -> place_minion card roster = roster ++ [card].
Proof.
  intros H. unfold place_minion.
  destruct (Nat.eqb_spec (length roster) 5); [lia | reflexivity].
Qed.

Lemma place_minion_bounded card roster :
  (length roster <= 5)%nat -> (length (place_minion card roster) <= 5)%nat.
Proof.
  intros H. unfold place_minion.
  destruct (Nat.eqb_spec (length roster) 5) as [E | Hne];
    rewrite length_app; cbn [length].
  - destruct roster; cbn [tl length] in *; lia.
  - lia.
Qed.

Lemma enemy_played_bounded m card :
  rosters_bounded m -> rosters_bounded (enemy_played card m).
Proof.
  intros [Hp He]. unfold enemy_played.
  match goal with |- context [enemy_plays card ?m0] =>
    destruct (enemy_plays_frame card m0) as (_ & _ & _ & _ & _ & _ & Hperm & Hnot);
    set (paid := m0) in *
  end.
  destruct (is_permanent (objects paid card)).
  - destruct (Hperm eq_refl) as [E1 E2]. split.
    + rewrite E2. exact Hp.
    + rewrite E1. apply place_minion_bounded. exact He.
  - apply (rosters_bounded_shrink paid); [apply Hnot; reflexivity |].
    split; assumption.
Qed.

Lemma minions_act_shrink (step_target : HearthModel -> oid -> EntityRef) l :
  forall m,
    rosters_shrink m
      (fold_left (fun m _minion => _use_effect _minion (step_target m _minion) m) l m)
    /\ effect_frame m
      (fold_left (fun m _minion => _use_effect _minion (step_target m _minion) m) l m).
Proof.
  induction l as [| x l IH]; intros m; cbn [fold_left].
  - split; [apply rosters_shrink_refl | apply effect_frame_refl].
  - destruct (IH (_use_effect x (step_target m x) m)) as [H1 H2]. split.
    + eapply rosters_shrink_trans; [apply use_effect_shrinks | exact H1].
    + eapply effect_frame_trans; [apply use_effect_frame | exact H2].
Qed.

Lemma player_minions_act_frame m :
  rosters_shrink m (player_minions_act m) /\ effect_frame m (player_minions_act m).
Proof.
  apply (minions_act_shrink
           (fun m _minion =>
              choose_target m _minion PlayerHero EnemyHero
                            (_active_player_minions m) (_active_enemy_minions m))).
Qed.

Lemma enemy_minions_act_frame m :
  rosters_shrink m (enemy_minions_act m) /\ effect_frame m (enemy_minions_act m).
Proof.
  apply (minions_act_shrink
           (fun m _minion =>
              choose_target m _minion EnemyHero PlayerHero
                            (_active_enemy_minions m) (_active_player_minions m))).
Qed.

Lemma enemy_new_turn_frame m :
  _player (enemy_new_turn m) = _player m
  /\ _active_player_minions (enemy_new_turn m) = _active_player_minions m
  /\ _active_enemy_minions (enemy_new_turn m) = _active_enemy_minions m.
Proof.
  unfold enemy_new_turn, new_turn.
  destruct (draw_cards _ _). repeat split.
Qed.

Lemma player_new_turn_frame m :
  _enemy (player_new_turn m) = _enemy m
  /\ _active_player_minions (player_new_turn m) = _active_player_minions m
  /\ _active_enemy_minions (player_new_turn m) = _active_enemy_minions m.
Proof.
  unfold player_new_turn, new_turn.
  destruct (draw_cards _ _). repeat split.
Qed.

(** [end_turn] returns: the bound on the rounds of the loop is never hit. *)
Lemma end_turn_returns m : exists l m', end_turn m = Some (l, m').
Proof.
  unfold end_turn.
  set (m2 := enemy_new_turn (player_minions_act m)).
  destruct (negb (Hero_is_alive (_enemy m2))); [eexists _, _; reflexivity |].
  destruct (enemy_play_loop_invariant (fun _ => True) (fun _ _ _ _ _ => I)
              (enemy_rounds m2) m2 []) as (l & m3 & Hrun & _).
  - unfold enemy_rounds. lia.
  - exact I.
  - rewrite Hrun. eexists _, _; reflexivity.
Qed.

Lemma end_turn_bounded m l m' :
  rosters_bounded m -> end_turn m = Some (l, m') -> rosters_bounded m'.
Proof.
  intros Hb. unfold end_turn.
  set (m1 := player_minions_act m).
  set (m2 := enemy_new_turn m1).
  assert (Hb1 : rosters_bounded m1).
  { apply (rosters_bounded_shrink m); [apply player_minions_act_frame | exact Hb]. }
  assert (Hb2 : rosters_bounded m2).
  { destruct (enemy_new_turn_frame m1) as (_ & E1 & E2).
    unfold rosters_bounded. fold m2 in E1, E2. rewrite E1, E2. exact Hb1. }
  destruct (negb (Hero_is_alive (_enemy m2))).
  - intros H. injection H as _ <-. exact Hb2.
  - destruct (enemy_play_loop_invariant rosters_bounded
                (fun m card H _ _ => enemy_played_bounded m card H)
                (enemy_rounds m2) m2 []) as (l3 & m3 & Hrun & Hb3).
    + unfold enemy_rounds. lia.
    + exact Hb2.
    + rewrite Hrun. intros H. injection H as _ <-.
      destruct (player_new_turn_frame (enemy_minions_act m3)) as (_ & E1 & E2).
      unfold rosters_bounded. rewrite E1, E2.
      apply (rosters_bounded_shrink m3); [apply enemy_minions_act_frame | exact Hb3].
Qed.

Lemma enemy_scan_played m m' k name :
  enemy_scan (get_hand (_enemy m)) 0 m = (m', k, Some name) ->
  exists card,
    nth_error (get_hand (_enemy m)) k = Some card
    /\ affordable m card = true
    /\ m' = enemy_played card m.
Proof.
  destruct (find_first (affordable m) (get_hand (_enemy m)))
    as [Hnone | (pre & card & post & Hhand & Hpre & Hcard)].
  - rewrite enemy_scan_none by exact Hnone. discriminate.
  - rewrite Hhand. rewrite enemy_scan_some by assumption.
    intros H. injection H as <- <- _. exists card. cbn [Nat.add].
    split; [| split; [exact Hcard | reflexivity]].
    rewrite nth_error_app2 by apply Nat.le_refl. rewrite Nat.sub_diag. reflexivity.
Qed.

Lemma play_card_bounded m card target b m' :
  rosters_bounded m -> play_card card target m = Ok (b, m') -> rosters_bounded m'.
Proof.
  intros Hb. unfold play_card.
  destruct (spend_energy _ _) as [spent player]. destruct spent.
  - destruct (contains card (get_hand player)); [| discriminate].
    cbn [objects set_player].
    destruct (is_permanent (objects m card)).
    + cbn [_active_player_minions set_player set_player_minions].
      destruct (5 <? _)%nat; [discriminate |].
      intros H. injection H as _ <-. destruct Hb as [Hp He].
      split; [apply place_minion_bounded, Hp | exact He].
    + intros H. injection H as _ <-.
      eapply rosters_bounded_shrink; [apply use_effect_shrinks | exact Hb].
  - intros H. injection H as _ <-. exact Hb.
Qed.

(** The list [enemy_play_loop] returns starts with the names it was given. *)
Lemma enemy_play_loop_prefix : forall rounds _played_cards m l m',
  enemy_play_loop rounds _played_cards m = Some (l, m') ->
  exists rest, l = _played_cards ++ rest.
Proof.
  induction rounds as [| r IH]; intros played m l m'; cbn [enemy_play_loop];
    [discriminate |].
  destruct (enemy_scan (get_hand (_enemy m)) 0 m) as [[m1 skipped] name].
  destruct (length (get_hand (_enemy m1)) <=? skipped)%nat.
  - intros H. injection H as <- _.
    destruct name; [eexists; reflexivity | exists []; symmetry; apply app_nil_r].
  - intros H. destruct (IH _ _ _ _ H) as [rest ->].
    destruct name as [name |]; [| exists rest; reflexivity].
    exists (name :: rest). rewrite <- app_assoc. reflexivity.
Qed.

(** The run of the [for] loop over the enemy's hand when the first card it
    can pay for is permanent: the card is placed in the enemy's roster. *)
Lemma enemy_scan_places m pre card post :
  get_hand (_enemy m) = pre ++ card :: post ->
  (forall x, In x pre -> affordable m x = false) ->
  affordable m card = true ->
  is_permanent (objects m card) = true ->
  exists m',
    enemy_scan (get_hand (_enemy m)) 0 m
    = (m', length pre, Some (type_name (cls (objects m card))))
    /\ _active_enemy_minions m' = place_minion card (_active_enemy_minions m)
    /\ _active_player_minions m' = _active_player_minions m
    /\ get_hand (_enemy m') = pre ++ post.
Proof.
  intros Hhand Hpre Hcard Hperm. exists (enemy_played card m).
  split; [rewrite Hhand; apply (enemy_scan_some pre 0%nat); assumption |].
  destruct (enemy_played_frame card m pre post Hhand Hpre Hcard) as (Hh & _).
  cbn zeta in Hh. unfold enemy_played in *.
  match goal with |- context [enemy_plays card ?m0] =>
    destruct (enemy_plays_frame card m0) as (_ & _ & _ & _ & _ & _ & Hins & _) end.
  destruct (Hins Hperm) as [E1 E2]. rewrite E1, E2.
  cbn [_active_enemy_minions _active_player_minions set_enemy].
  repeat split. exact Hh.
Qed.

(** C6: with at most five minions in each roster, a permanent card enters a
    roster of five by removing the minion at index 0 and appending the card
    after the other four, and a shorter roster by appending.  This is so
    for a permanent card of the hand that the player can pay for, played by
    [play_card]; for the first card of the enemy's hand that the enemy can
    pay for, when it is permanent, in a run of the loop over the enemy's
    hand from any state; and in [end_turn], where that run starts from the
    state left by the player's minions and the enemy's [new_turn]: the card
    is placed, its name is the first of the list returned, and the turn
    goes on from the state with the card in the roster.  [play_card],
    [discard_card] and [end_turn] leave at most five minions in each
    roster. *)
Theorem roster_insertion_and_bound (m : HearthModel) :
  rosters_bounded m ->
  (forall card target,
     contains card (get_hand (_player m)) = true ->
     get_cost (objects m card) <= get_energy (_player m) ->
     is_permanent (objects m card) = true ->
     exists m',
       play_card card target m = Ok (true, m')
       /\ (length (_active_player_minions m) = 5%nat ->
           _active_player_minions m' = skipn 1 (_active_player_minions m) ++ [card])
       /\ (length (_active_player_minions m) < 5 ->
           _active_player_minions m' = _active_player_minions m ++ [card])%nat
       /\ _active_enemy_minions m' = _active_enemy_minions m)
  /\ (forall pre card post,
        get_hand (_enemy m) = pre ++ card :: post ->
        (forall x, In x pre -> affordable m x = false) ->
        affordable m card = true ->
        is_permanent (objects m card) = true ->
        exists m',
          enemy_scan (get_hand (_enemy m)) 0 m
          = (m', length pre, Some (type_name (cls (objects m card))))
          /\ (length (_active_enemy_minions m) = 5%nat ->
              _active_enemy_minions m'
              = skipn 1 (_active_enemy_minions m) ++ [card])
          /\ (length (_active_enemy_minions m) < 5 ->
              _active_enemy_minions m' = _active_enemy_minions m ++ [card])%nat
          /\ _active_player_minions m' = _active_player_minions m
          /\ get_hand (_enemy m') = pre ++ post)
  /\ (forall pre card post,
        let m2 := enemy_new_turn (player_minions_act m) in
        let name := type_name (cls (objects m2 card)) in
        Hero_is_alive (_enemy m2) = true ->
        get_hand (_enemy m2) = pre ++ card :: post ->
        (forall x, In x pre -> affordable m2 x = false) ->
        affordable m2 card = true ->
        is_permanent (objects m2 card) = true ->
        exists m3 l m5,
          enemy_scan (get_hand (_enemy m2)) 0 m2 = (m3, length pre, Some name)
          /\ (length (_active_enemy_minions m2) <= 5)%nat
          /\ (length (_active_enemy_minions m2) = 5%nat ->
              _active_enemy_minions m3
              = skipn 1 (_active_enemy_minions m2) ++ [card])
          /\ (length (_active_enemy_minions m2) < 5 ->
              _active_enemy_minions m3 = _active_enemy_minions m2 ++ [card])%nat
          /\ _active_player_minions m3 = _active_player_minions m2
          /\ (post = [] -> l = [] /\ m5 = m3)
          /\ (post <> [] ->
              enemy_play_loop (length (get_hand (_enemy m2))) [name] m3
              = Some (name :: l, m5))
          /\ end_turn m = Some (name :: l, player_new_turn (enemy_minions_act m5)))
  /\ (forall card target b m',
        play_card card target m = Ok (b, m') -> rosters_bounded m')
  /\ (forall card m', discard_card card m = Ok m' -> rosters_bounded m')
  /\ (exists l m', end_turn m = Some (l, m') /\ rosters_bounded m').
Proof.
  intros Hb. split; [| split; [| split; [| split; [| split]]]].
  - intros card target Hin Hcost Hperm. unfold play_card, spend_energy.
    unfold get_energy in Hcost.
    destruct (Z.leb_spec (get_cost (objects m card)) (_energy (_player m))); [| lia].
    unfold get_hand in *. cbn [_hand set_energy]. rewrite Hin.
    cbn [objects set_player]. rewrite Hperm.
    cbn [_active_player_minions set_player set_player_minions].
    destruct Hb as [Hp He].
    pose proof (place_minion_bounded card _ Hp) as Hlen.
    destruct (Nat.ltb_spec 5 (length (place_minion card (_active_player_minions m))));
      [lia |].
    eexists. split; [reflexivity |].
    cbn [_active_player_minions _active_enemy_minions set_player set_player_minions].
    split; [apply place_minion_full | split; [apply place_minion_room | reflexivity]].
  - intros pre card post Hhand Hpre Hcard Hperm.
    destruct (enemy_scan_places m pre card post Hhand Hpre Hcard Hperm)
      as (m' & Hscan & He & Hp & Hh).
    exists m'. split; [exact Hscan |]. rewrite He.
    split; [apply place_minion_full |
            split; [apply place_minion_room | split; [exact Hp | exact Hh]]].
  - intros pre card post m2 name Halive Hhand Hpre Hcard Hperm.
    assert (Hb2 : rosters_bounded m2).
    { destruct (enemy_new_turn_frame (player_minions_act m)) as (_ & E1 & E2).
      unfold rosters_bounded. fold m2 in E1, E2. rewrite E1, E2.
      apply (rosters_bounded_shrink m); [apply player_minions_act_frame | exact Hb]. }
    destruct (enemy_scan_places m2 pre card post Hhand Hpre Hcard Hperm)
      as (m3 & Hscan & He & Hp & Hh). fold name in Hscan.
    assert (Hturn : end_turn m
              = match
                  (if (length (get_hand (_enemy m3)) <=? length pre)%nat
                   then Some ([name], m3)
                   else enemy_play_loop (length (get_hand (_enemy m2))) [name] m3)
                with
                | Some (_played_cards, m5) =>
                    Some (_played_cards, player_new_turn (enemy_minions_act m5))
                | None => None
                end).
    { unfold end_turn. fold m2. rewrite Halive. cbn [negb].
      unfold enemy_rounds. cbn [enemy_play_loop]. rewrite Hscan. reflexivity. }
    assert (Hlen : length (get_hand (_enemy m2)) = S (length pre + length post)).
    { rewrite Hhand, length_app. cbn [length]. lia. }
    rewrite Hh, length_app in Hturn.
    destruct post as [| p post].
    + exists m3, [], m3.
      cbn [length] in Hturn. rewrite Nat.add_0_r, Nat.leb_refl in Hturn.
      split; [exact Hscan | split; [apply Hb2 |]]. rewrite He.
      split; [apply place_minion_full | split; [apply place_minion_room |]].
      split; [exact Hp | split; [intros _; split; reflexivity |]].
      split; [intros Hne; congruence | exact Hturn].
    + destruct (Nat.leb_spec (length pre + length (p :: post)) (length pre))
        as [Hstop | Hgo]; [cbn [length] in Hstop; lia |].
      destruct (enemy_play_loop_invariant (fun _ => True) (fun _ _ _ _ _ => I)
                  (length (get_hand (_enemy m2))) m3 [name])
        as (l & m5 & Hrun & _); [rewrite Hh, length_app, Hlen; lia | exact I |].
      destruct (enemy_play_loop_prefix _ _ _ _ _ Hrun) as [rest ->].
      cbn [app] in Hrun. rewrite Hrun in Hturn.
      exists m3, rest, m5.
      split; [exact Hscan | split; [apply Hb2 |]]. rewrite He.
      split; [apply place_minion_full | split; [apply place_minion_room |]].
      split; [exact Hp | split; [intros Hnil; discriminate Hnil |]].
      split; [intros _; exact Hrun | exact Hturn].
  - intros card target b m'. apply play_card_bounded, Hb.
  - intros card m'. unfold discard_card.
    destruct (contains card _); [| discriminate].
    intros H. injection H as <-. exact Hb.
  - destruct (end_turn_returns m) as (l & m' & Hrun).
    exists l, m'. split; [exact Hrun | apply (end_turn_bounded m l m' Hb Hrun)].
Qed.

Lemma roster_insertion_and_bound_witness :
  (exists m',
     play_card 5%nat PlayerHero Samples.full_board = Ok (true, m')
     /\ _active_player_minions m' = [1; 2; 3; 4; 5]%nat)
  /\ (exists m3 l m5,
        enemy_scan [5; 6; 7; 8; 9]%nat 0
          (enemy_new_turn (player_minions_act Samples.enemy_full_board))
        = (m3, 0%nat, Some "Wyrm"%string)
        /\ _active_enemy_minions m3 = [1; 2; 3; 4; 5]%nat
        /\ end_turn Samples.enemy_full_board
           = Some ("Wyrm"%string :: l, player_new_turn (enemy_minions_act m5))).
Proof.
  split.
  - destruct (roster_insertion_and_bound Samples.full_board) as [Hplay _].
    + split; cbn; lia.
    + destruct (Hplay 5%nat PlayerHero) as (m' & Hrun & Hfull & _).
      * reflexivity.
      * cbn. lia.
      * reflexivity.
      * exists m'. split; [exact Hrun |]. apply Hfull. reflexivity.
  - destruct (roster_insertion_and_bound Samples.enemy_full_board)
      as (_ & _ & Hturn & _).
    + split; cbn; lia.
    + destruct (Hturn [] 5%nat [6; 7; 8; 9]%nat)
        as (m3 & l & m5 & Hscan & _ & Hfull & _ & _ & _ & _ & Hend).
      * reflexivity.
      * reflexivity.
      * intros x [].
      * reflexivity.
      * reflexivity.
      * exists m3, l, m5.
        split; [exact Hscan | split; [apply Hfull; reflexivity | exact Hend]].
Defined.

(** The enemy turn of that state to its end: the Wyrm card takes the place
    of the minion at index 0 and stays the last of the roster. *)
Example end_turn_enemy_full_roster :
  match end_turn Samples.enemy_full_board with
  | Some (played, m') =>
      played = ["Wyrm"]%string
      /\ _active_enemy_minions m' = [1; 2; 3; 4; 5]%nat
      /\ get_hand (_enemy m') = [6; 7; 8; 9]%nat
  | None => False
  end.
Proof. vm_compute. repeat split. Qed.

(** ** end_turn when the enemy is defeated by its own draw *)

(** C10: when the enemy hero is not alive right after [enemy.new_turn()],
    [end_turn] returns the empty list and the model as that call left it:
    [player.new_turn()] does not run (the player's energy capacity, energy,
    deck and hand are those the turn started with), the enemy keeps the
    hand and the full energy its [new_turn] gave it, and the rosters are as
    the player's minions left them.  (An enemy whose draw empties its deck
    is such a case: [empty_deck_not_alive] below.) *)
Theorem end_turn_enemy_defeated_after_draw (m : HearthModel) :
  let m1 := player_minions_act m in
  let m2 := enemy_new_turn m1 in
  Hero_is_alive (_enemy m2) = false ->
  end_turn m = Some ([], m2)
  /\ hero_static (_player m2) = hero_static (_player m)
  /\ _player m2 = _player m1
  /\ get_energy (_enemy m2) = get_max_energy (_enemy m2)
  /\ _active_player_minions m2 = _active_player_minions m1
  /\ _active_enemy_minions m2 = _active_enemy_minions m1.
Proof.
  intros m1 m2 Hdead.
  destruct (enemy_new_turn_frame m1) as (Hp & Hpm & Hem). fold m2 in Hp, Hpm, Hem.
  split; [| split; [| split; [| split; [| split]]]]; try assumption.
  - unfold end_turn. fold m1. fold m2. rewrite Hdead. reflexivity.
  - rewrite Hp. apply (player_minions_act_frame m).
  - unfold m2, enemy_new_turn, new_turn. destruct (draw_cards _ _). reflexivity.
Qed.

Lemma end_turn_enemy_defeated_after_draw_witness :
  end_turn Samples.last_draw
  = Some ([], enemy_new_turn (player_minions_act Samples.last_draw))
  /\ hero_static (_player (enemy_new_turn (player_minions_act Samples.last_draw)))
     = hero_static (_player Samples.last_draw).
Proof.
  destruct (end_turn_enemy_defeated_after_draw Samples.last_draw) as (H1 & H2 & _).
  - reflexivity.
  - split; [exact H1 | exact H2].
Defined.

(** A hero whose deck is empty is not alive, whatever its health. *)
Lemma empty_deck_not_alive (h : Hero) :
  is_empty (_deck h) = true -> Hero_is_alive h = false.
Proof.
  unfold is_empty, Hero_is_alive, remaining_count. intros H.
  apply Nat.eqb_eq in H. rewrite H. cbn. apply andb_false_r.
Qed.

Lemma enemy_played_player m card :
  hero_static (_player (enemy_played card m)) = hero_static (_player m).
Proof.
  unfold enemy_played.
  match goal with |- context [enemy_plays card ?m0] =>
    destruct (enemy_plays_frame card m0) as (Hp & _) end.
  exact Hp.
Qed.

(** When the enemy survives its draw, the turn goes on to
    [player.new_turn()]: the player's energy capacity grows by one. *)
Lemma end_turn_enemy_alive_advances_player (m : HearthModel) :
  Hero_is_alive (_enemy (enemy_new_turn (player_minions_act m))) = true ->
  exists l m',
    end_turn m = Some (l, m')
    /\ _energy_capacity (_player m') = _energy_capacity (_player m) + 1.
Proof.
  intros Halive. unfold end_turn.
  set (m1 := player_minions_act m) in *. set (m2 := enemy_new_turn m1) in *.
  rewrite Halive. cbn [negb].
  assert (H2 : hero_static (_player m2) = hero_static (_player m)).
  { destruct (enemy_new_turn_frame m1) as (Hp & _). fold m2 in Hp. rewrite Hp.
    apply (player_minions_act_frame m). }
  destruct (enemy_play_loop_invariant
              (fun m' => hero_static (_player m') = hero_static (_player m))
              (fun m0 card H _ _ => eq_trans (enemy_played_player m0 card) H)
              (enemy_rounds m2) m2 []) as (l & m3 & Hrun & H3).
  - unfold enemy_rounds. lia.
  - exact H2.
  - rewrite Hrun. eexists _, _. split; [reflexivity |].
    destruct (enemy_minions_act_frame m3) as (_ & (H4 & _)).
    rewrite H3 in H4. unfold hero_static in H4. injection H4 as Hcap _ _ _.
    unfold player_new_turn, new_turn. destruct (draw_cards _ _).
    cbn. rewrite Hcap. reflexivity.
Qed.

(** ** The enemy loop against the reference policy *)

(** C2: the card-playing loop of [end_turn] stops for every enemy hand and
    energy (within [length hand + 1] rounds, and more rounds change
    nothing).  When no card of the hand has a negative cost, no card left
    in the hand is affordable when the loop stops, and the names recorded
    are those of the reference policy; [end_turn] returns that list.  With
    three cards of cost 5 and 3 energy nothing is played and the list is
    empty. *)
Theorem enemy_play_loop_stops_as_reference (m : HearthModel) :
  exists played m',
    (forall rounds, (length (get_hand (_enemy m)) < rounds)%nat ->
       enemy_play_loop rounds [] m = Some (played, m'))
    /\ ((forall card, In card (get_hand (_enemy m)) ->
           0 <= get_cost (objects m card)) ->
        (forall card, In card (get_hand (_enemy m')) ->
           get_energy (_enemy m') < get_cost (objects m' card))
        /\ played = reference_policy (get_energy (_enemy m)) (hand_view m)
        /\ (map snd (hand_view m) = [5; 5; 5] -> get_energy (_enemy m) = 3 ->
            played = [] /\ m' = m)
        /\ (forall m0,
              m = enemy_new_turn (player_minions_act m0) ->
              Hero_is_alive (_enemy m) = true ->
              exists m'', end_turn m0 = Some (played, m''))).
Proof.
  destruct (enemy_play_loop_invariant (fun _ => True) (fun _ _ _ _ _ => I)
              (enemy_rounds m) m []) as (played & m' & Hrun & _);
    [unfold enemy_rounds; lia | exact I |].
  exists played, m'. split.
  - intros rounds Hlen. apply (enemy_play_loop_more _ _ _ _ Hrun).
    unfold enemy_rounds. lia.
  - intros Hcost.
    destruct (enemy_play_loop_reference (enemy_rounds m) m []) as (m'' & Href & Hfin);
      [unfold enemy_rounds; lia | exact Hcost |].
    rewrite Hrun in Href. cbn [app] in Href. injection Href as Hplayed <-.
    split; [| split; [exact Hplayed | split]].
    + intros card Hin. apply affordable_false, Hfin, Hin.
    + intros Hcosts Henergy.
      assert (Hnone : forall x, In x (get_hand (_enemy m)) -> affordable m x = false).
      { intros x Hx. apply affordable_false. rewrite Henergy.
        assert (Hin : In (get_cost (objects m x)) (map snd (hand_view m))).
        { unfold hand_view. rewrite map_map. cbn [card_view snd].
          apply (in_map (fun id => get_cost (objects m id))), Hx. }
        rewrite Hcosts in Hin. destruct Hin as [<- | [<- | [<- | []]]]; lia. }
      unfold enemy_rounds in Hrun. cbn [enemy_play_loop] in Hrun.
      rewrite enemy_scan_none in Hrun by exact Hnone.
      cbn [Nat.add] in Hrun. rewrite Nat.leb_refl in Hrun.
      injection Hrun as <- <-. split; reflexivity.
    + intros m0 Hm Halive. unfold end_turn. rewrite <- Hm, Halive. cbn [negb].
      rewrite Hrun. eexists. reflexivity.
Qed.

Lemma enemy_play_loop_stops_as_reference_witness :
  exists played m',
    enemy_play_loop 4 [] Samples.poor_enemy = Some (played, m')
    /\ played = [] /\ m' = Samples.poor_enemy.
Proof.
  destruct (enemy_play_loop_stops_as_reference Samples.poor_enemy)
    as (played & m' & Hrun & Hrest).
  exists played, m'. split.
  - apply Hrun. cbn. lia.
  - destruct Hrest as (_ & _ & Hex & _).
    + intros card [<- | [<- | [<- | []]]]; cbn; lia.
    + apply Hex; reflexivity.
Defined.

(** ** Hero.new_turn *)

Lemma increment_turn_name c : get_name (increment_turn c) = get_name c.
Proof. reflexivity. Qed.

Lemma iter_shift {A} (f : A -> A) n x : Nat.iter n f (f x) = f (Nat.iter n f x).
Proof. rewrite <- Nat.iter_succ_r. apply Nat.iter_succ. Qed.

(** The loop over the hand ages an object once for each place it holds in
    the hand. *)
Lemma age_fireballs_count hand : forall objs card,
  age_fireballs objs hand card
  = if String.eqb (get_name (objs card)) FIREBALL_NAME
    then Nat.iter (count_occ Nat.eq_dec hand card) increment_turn (objs card)
    else objs card.
Proof.
  induction hand as [| y hand IH]; intros objs card.
  - cbn. destruct (String.eqb _ _); reflexivity.
  - change (age_fireballs objs (y :: hand))
      with (age_fireballs
              (if String.eqb (get_name (objs y)) FIREBALL_NAME
               then fun j => if Nat.eqb j y then increment_turn (objs y) else objs j
               else objs) hand).
    rewrite IH. cbn [count_occ].
    destruct (Nat.eq_dec y card) as [-> | Hne].
    + destruct (String.eqb (get_name (objs card)) FIREBALL_NAME) eqn:Hname.
      * rewrite Nat.eqb_refl, increment_turn_name, Hname.
        rewrite Nat.iter_succ. apply iter_shift.
      * rewrite Hname. reflexivity.
    + destruct (String.eqb (get_name (objs y)) FIREBALL_NAME); [| reflexivity].
      destruct (Nat.eqb_spec card y) as [-> | _]; [contradiction | reflexivity].
Qed.

Lemma draw_cards_front num deck :
  0 <= num ->
  draw_cards num deck
  = (firstn (Nat.min (Z.to_nat num) (length (_cards deck))) (_cards deck),
     mkCardDeck (skipn (Nat.min (Z.to_nat num) (length (_cards deck))) (_cards deck))).
Proof.
  intros Hnum. unfold draw_cards.
  destruct (Z.ltb_spec (Z.of_nat (length (_cards deck))) num) as [Hshort | Hlong].
  - rewrite Nat.min_r by lia. rewrite firstn_all, skipn_all. reflexivity.
  - unfold slice_to, del_slice_to, slice_stop.
    destruct (Z.ltb_spec num 0); [lia | reflexivity].
Qed.

(** C3, as the code has it: for a hero whose hand holds at most five cards,
    [new_turn] first registers one more turn on every Fireball of the hand
    (once for each place the object holds in the hand) and on no other
    object, then moves the first [min(5 - |hand|, |deck|)] cards of the deck
    to the end of the hand in deck order (none when the hand holds five; a
    Fireball drawn now is not aged now), then adds one to the energy
    capacity and sets the energy to the new capacity. *)
Theorem new_turn_refresh (objs : oid -> Card) (self : Hero) :
  (length (_hand self) <= 5)%nat ->
  let objs' := fst (new_turn objs self) in
  let self' := snd (new_turn objs self) in
  let k := Nat.min (5 - length (_hand self)) (length (_cards (_deck self))) in
  (forall card, get_name (objs card) = FIREBALL_NAME ->
     objs' card
     = Nat.iter (count_occ Nat.eq_dec (_hand self) card) increment_turn (objs card))
  /\ (forall card, get_name (objs card) = FIREBALL_NAME ->
        count_occ Nat.eq_dec (_hand self) card = 1%nat ->
        objs' card = increment_turn (objs card))
  /\ (forall card, get_name (objs card) <> FIREBALL_NAME -> objs' card = objs card)
  /\ (forall card, ~ In card (_hand self) -> objs' card = objs card)
  /\ (forall t, increment_turn (Fireball t) = Fireball (t + 1))
  /\ _hand self' = _hand self ++ firstn k (_cards (_deck self))
  /\ _cards (_deck self') = skipn k (_cards (_deck self))
  /\ (length (_hand self) = 5%nat -> _hand self' = _hand self)
  /\ _energy_capacity self' = _energy_capacity self + 1
  /\ _energy self' = _energy_capacity self + 1
  /\ hero_entity self' = hero_entity self.
Proof.
  intros Hlen. unfold new_turn.
  rewrite draw_cards_front by lia.
  replace (Z.to_nat (5 - Z.of_nat (length (_hand self))))
    with (5 - length (_hand self))%nat by lia.
  cbn [fst snd _hand _deck _cards _energy_capacity _energy hero_entity].
  repeat split.
  - intros card Hname. rewrite age_fireballs_count, Hname. reflexivity.
  - intros card Hname Hone. rewrite age_fireballs_count, Hname, Hone. reflexivity.
  - intros card Hname. rewrite age_fireballs_count.
    destruct (String.eqb_spec (get_name (objs card)) FIREBALL_NAME);
      [contradiction | reflexivity].
  - intros card Hout. rewrite age_fireballs_count.
    rewrite (proj1 (count_occ_not_In Nat.eq_dec _ _) Hout).
    destruct (String.eqb _ _); reflexivity.
  - intros Hfull. rewrite Hfull. cbn. apply app_nil_r.
Qed.

Lemma new_turn_refresh_witness :
  let objs' := fst (new_turn Samples.nine_cards Samples.fresh_hero) in
  let self' := snd (new_turn Samples.nine_cards Samples.fresh_hero) in
  _turns_in_hand (objs' 4%nat) = 2
  /\ _turns_in_hand (objs' 8%nat) = 4
  /\ _hand self' = [4; 5; 8; 1; 2]%nat
  /\ _cards (_deck self') = [3]%nat
  /\ _energy self' = 3.
Proof.
  destruct (new_turn_refresh Samples.nine_cards Samples.fresh_hero)
    as (_ & Hin & _ & Hout & _ & Hhand & Hdeck & _ & _ & Hen & _).
  - cbn. lia.
  - cbn zeta.
    rewrite (Hin 4%nat eq_refl eq_refl).
    rewrite (Hout 8%nat) by (intros [H | [H | []]]; discriminate H).
    rewrite Hhand, Hdeck, Hen. repeat split.
Defined.

(** C3, as stated, fails on two heroes: with an empty hand and a deck of
    three cards, three cards are drawn where [max(0, 5 - 0) = 5] is stated;
    with six cards in hand and a deck of three, two cards are drawn where
    [max(0, 5 - 6) = 0] is stated. *)
Lemma new_turn_draw_count_differs :
  (drawn_count Samples.nine_cards Samples.short_deck_hero = 3%nat
   /\ stated_draw Samples.short_deck_hero = 5%nat)
  /\ (drawn_count Samples.nine_cards Samples.crowded_hero = 2%nat
      /\ stated_draw Samples.crowded_hero = 0%nat
      /\ _hand (snd (new_turn Samples.nine_cards Samples.crowded_hero))
         = [0; 1; 2; 3; 4; 5; 6; 7]%nat
      /\ _cards (_deck (snd (new_turn Samples.nine_cards Samples.crowded_hero)))
         = [8]%nat).
Proof. repeat split. Qed.

(** ** Strings: splitting, joining, printing and reading integers *)

Section Strings.

Local Open Scope string_scope.

Lemma all_chars_impl (p q : ascii -> bool) s :
  (forall c, p c = true -> q c = true) ->
  all_chars p s = true -> all_chars q s = true.
Proof.
  intros Hpq. induction s as [| c r IH]; cbn; [reflexivity |].
  intros H. apply andb_true_iff in H. destruct H as [Hc Hr].
  rewrite (Hpq c Hc), (IH Hr). reflexivity.
Qed.

Lemma all_chars_app p a b :
  all_chars p (a ++ b) = all_chars p a && all_chars p b.
Proof.
  induction a as [| c r IH]; cbn; [reflexivity |].
  rewrite IH. apply andb_assoc.
Qed.

Lemma free_of_app sep a b :
  free_of sep (a ++ b) = free_of sep a && free_of sep b.
Proof. apply all_chars_app. Qed.

Lemma free_of_join c sep l :
  free_of c sep = true -> Forall (fun s => free_of c s = true) l ->
  free_of c (join sep l) = true.
Proof.
  intros Hsep Hl. unfold join. induction Hl as [| x l Hx Hl IH]; [reflexivity |].
  destruct l as [| y l]; [exact Hx |].
  change (String.concat sep (x :: y :: l))
    with (x ++ sep ++ String.concat sep (y :: l)).
  rewrite !free_of_app, Hx, Hsep, IH. reflexivity.
Qed.

Lemma split_pieces_free sep s :
  free_of sep s = true -> split_pieces sep s = (s, []).
Proof.
  induction s as [| c r IH]; cbn; [reflexivity |].
  intros H. apply andb_true_iff in H. destruct H as [Hc Hr].
  rewrite (IH Hr). apply negb_true_iff in Hc. rewrite Hc. reflexivity.
Qed.

Lemma split_free sep s : free_of sep s = true -> split sep s = [s].
Proof. intros H. unfold split. rewrite split_pieces_free by exact H. reflexivity. Qed.

Lemma split_app sep a b :
  free_of sep a = true -> split sep (a ++ String sep b) = a :: split sep b.
Proof.
  unfold split. induction a as [| c r IH]; cbn.
  - intros _. destruct (split_pieces sep b). rewrite Ascii.eqb_refl. reflexivity.
  - intros H. apply andb_true_iff in H. destruct H as [Hc Hr].
    specialize (IH Hr). destruct (split_pieces sep (r ++ String sep b)) as [p ps].
    injection IH as -> ->. apply negb_true_iff in Hc. rewrite Hc.
    destruct (split_pieces sep b). reflexivity.
Qed.

Lemma split_join sep x l :
  Forall (fun s => free_of sep s = true) (x :: l) ->
  split sep (join (String sep "") (x :: l)) = x :: l.
Proof.
  revert x. unfold join. induction l as [| y l IH]; intros x Hall.
  - cbn [String.concat]. apply split_free. inversion Hall; assumption.
  - inversion Hall as [| ? ? Hx Hrest]; subst.
    change (String.concat (String sep "") (x :: y :: l))
      with (x ++ String sep (String.concat (String sep "") (y :: l))).
    rewrite split_app by exact Hx. rewrite IH by exact Hrest. reflexivity.
Qed.

Lemma digits_decimal d : all_chars is_decimal_char (NilEmpty.string_of_uint d) = true.
Proof. induction d; cbn; try rewrite IHd; reflexivity. Qed.

Lemma str_nonneg n :
  0 <= n -> exists c r, str n = String c r /\ all_chars is_decimal_char (str n) = true.
Proof.
  intros Hn. unfold str. destruct n as [| p | p]; [| | lia].
  - exists "0"%char, "". split; reflexivity.
  - cbn [Z.to_int NilZero.string_of_int]. unfold NilZero.string_of_uint.
    pose proof (DecimalPos.Unsigned.to_uint_nonnil p) as Hnil.
    pose proof (digits_decimal (Pos.to_uint p)) as Hdec.
    destruct (Pos.to_uint p) eqn:E; [congruence | ..];
      (eexists _, _; split; [reflexivity | exact Hdec]).
Qed.

Lemma str_number_chars n : all_chars is_number_char (str n) = true.
Proof.
  assert (Hpos : forall p,
             all_chars is_number_char (NilZero.string_of_uint (Pos.to_uint p)) = true).
  { intros p. unfold NilZero.string_of_uint.
    pose proof (digits_decimal (Pos.to_uint p)) as Hdec.
    apply (all_chars_impl is_decimal_char).
    - intros c Hc. unfold is_number_char. rewrite Hc. reflexivity.
    - destruct (Pos.to_uint p); [reflexivity | exact Hdec ..]. }
  unfold str. destruct n as [| p | p]; [reflexivity | apply Hpos |].
  cbn [Z.to_int NilZero.string_of_int all_chars]. rewrite Hpos. reflexivity.
Qed.

Lemma number_char_free sep s :
  is_number_char sep = false ->
  all_chars is_number_char s = true -> free_of sep s = true.
Proof.
  intros Hsep. apply all_chars_impl. intros c Hc.
  apply negb_true_iff. destruct (Ascii.eqb_spec c sep) as [-> | _]; [| reflexivity].
  rewrite Hsep in Hc. discriminate Hc.
Qed.

Lemma str_free sep n : is_number_char sep = false -> free_of sep (str n) = true.
Proof. intros H. apply number_char_free; [exact H | apply str_number_chars]. Qed.

Lemma lstrip_id s :
  all_chars (fun c => negb (is_space c)) s = true -> lstrip s = s.
Proof.
  destruct s as [| c r]; cbn; [reflexivity |].
  intros H. apply andb_true_iff in H. destruct H as [Hc _].
  apply negb_true_iff in Hc. rewrite Hc. reflexivity.
Qed.

Lemma rstrip_id s :
  all_chars (fun c => negb (is_space c)) s = true -> rstrip s = s.
Proof.
  induction s as [| c r IH]; cbn; [reflexivity |].
  intros H. apply andb_true_iff in H. destruct H as [Hc Hr].
  rewrite (IH Hr). apply negb_true_iff in Hc. rewrite Hc.
  destruct r; reflexivity.
Qed.

Lemma strip_id s :
  all_chars (fun c => negb (is_space c)) s = true -> strip s = s.
Proof. intros H. unfold strip. rewrite lstrip_id by exact H. apply rstrip_id, H. Qed.

Lemma number_char_not_space c : is_number_char c = true -> negb (is_space c) = true.
Proof.
  unfold is_number_char, is_decimal_char, is_space. intros H.
  apply negb_true_iff.
  destruct (Ascii.eqb c "-") eqn:E.
  { apply Ascii.eqb_eq in E. subst c. reflexivity. }
  rewrite orb_false_r in H. apply andb_true_iff in H. destruct H as [H1 H2].
  apply Z.leb_le in H1. apply Z.leb_le in H2.
  repeat match goal with
         | |- context [Z.leb ?a ?b] => destruct (Z.leb_spec a b); try lia
         | |- context [Z.eqb ?a ?b] => destruct (Z.eqb_spec a b); try lia
         end; reflexivity.
Qed.

Lemma strip_str n : strip (str n) = str n.
Proof.
  apply strip_id. apply (all_chars_impl is_number_char).
  - apply number_char_not_space.
  - apply str_number_chars.
Qed.

Lemma int_space_is_space c : is_int_space c = true -> is_space c = true.
Proof.
  destruct c as [[] [] [] [] [] [] [] []]; intros H;
    first [reflexivity | discriminate H].
Qed.

(** [int] finds nothing to skip around a string without whitespace. *)
Lemma int_trim_id s :
  all_chars (fun c => negb (is_space c)) s = true ->
  rtrim is_int_space (ltrim is_int_space s) = s.
Proof.
  intros H.
  assert (Hint : all_chars (fun c => negb (is_int_space c)) s = true).
  { revert H. apply all_chars_impl. intros c Hc.
    destruct (is_int_space c) eqn:E; [| reflexivity].
    rewrite (int_space_is_space c E) in Hc. discriminate Hc. }
  clear H.
  assert (Hl : ltrim is_int_space s = s).
  { destruct s as [| c r]; cbn; [reflexivity |].
    cbn in Hint. apply andb_true_iff in Hint. destruct Hint as [Hc _].
    apply negb_true_iff in Hc. rewrite Hc. reflexivity. }
  rewrite Hl. induction s as [| c r IH]; cbn; [reflexivity |].
  cbn in Hint. apply andb_true_iff in Hint. destruct Hint as [Hc Hr].
  rewrite IH.
  - apply negb_true_iff in Hc. rewrite Hc. destruct r; reflexivity.
  - exact Hr.
  - destruct r as [| d r']; cbn; [reflexivity |].
    cbn in Hr. apply andb_true_iff in Hr. destruct Hr as [Hd _].
    apply negb_true_iff in Hd. rewrite Hd. reflexivity.
Qed.

Lemma int_trim_str n : rtrim is_int_space (ltrim is_int_space (str n)) = str n.
Proof.
  apply int_trim_id. apply (all_chars_impl is_number_char).
  - apply number_char_not_space.
  - apply str_number_chars.
Qed.

Lemma drop_underscores_digits s : forall after_digit,
  all_chars is_decimal_char s = true ->
  s <> "" \/ after_digit = true ->
  drop_underscores s after_digit = Some s.
Proof.
  induction s as [| c r IH]; intros b Hall Hne; cbn.
  - destruct Hne as [Hne | ->]; [congruence | reflexivity].
  - cbn in Hall. apply andb_true_iff in Hall. destruct Hall as [Hc Hr].
    rewrite Hc. rewrite IH by (first [exact Hr | right; reflexivity]). reflexivity.
Qed.

Lemma int_unsigned_digits p :
  int_unsigned (NilEmpty.string_of_uint (Pos.to_uint p)) = Some (Z.pos p).
Proof.
  unfold int_unsigned. rewrite drop_underscores_digits.
  - rewrite NilEmpty.usu. cbn [option_map]. unfold Z.of_uint.
    rewrite DecimalPos.Unsigned.of_to. reflexivity.
  - apply digits_decimal.
  - left. pose proof (DecimalPos.Unsigned.to_uint_nonnil p) as Hnil.
    destruct (Pos.to_uint p); [congruence | discriminate ..].
Qed.

Lemma decimal_char_not c d :
  is_decimal_char c = true -> is_decimal_char d = false -> Ascii.eqb c d = false.
Proof.
  intros Hc Hd. destruct (Ascii.eqb_spec c d) as [-> | _]; [| reflexivity].
  rewrite Hc in Hd. discriminate Hd.
Qed.

(** Reading back a printed integer. *)
Lemma int_str n : int (str n) = Some n.
Proof.
  unfold int. rewrite int_trim_str. unfold str.
  destruct n as [| p | p]; [reflexivity | |].
  - cbn [Z.to_int NilZero.string_of_int]. unfold NilZero.string_of_uint.
    pose proof (DecimalPos.Unsigned.to_uint_nonnil p) as Hnil.
    pose proof (digits_decimal (Pos.to_uint p)) as Hdec.
    pose proof (int_unsigned_digits p) as Hint.
    destruct (Pos.to_uint p) eqn:E; [congruence | ..]; cbn in Hdec |- *; exact Hint.
  - cbn [Z.to_int NilZero.string_of_int]. rewrite Ascii.eqb_refl.
    unfold NilZero.string_of_uint.
    pose proof (DecimalPos.Unsigned.to_uint_nonnil p) as Hnil.
    pose proof (int_unsigned_digits p) as Hint.
    destruct (Pos.to_uint p) eqn:E; [congruence | ..]; rewrite Hint; reflexivity.
Qed.

Lemma isdigit_str n : 0 <= n -> isdigit (str n) = true.
Proof.
  intros Hn. destruct (str_nonneg n Hn) as (c & r & E & Hdec).
  unfold isdigit. rewrite E in *.
  apply (all_chars_impl is_decimal_char); [| exact Hdec].
  intros a Ha. unfold is_digit_char. unfold is_decimal_char in Ha.
  rewrite Ha. reflexivity.
Qed.

(** A printed natural number is none of the letter symbols. *)
Lemma str_not_letter n (letter : ascii) :
  0 <= n -> is_decimal_char letter = false ->
  String.eqb (str n) (String letter "") = false.
Proof.
  intros Hn Hl. destruct (str_nonneg n Hn) as (c & r & E & Hdec).
  rewrite E in *. cbn in Hdec. apply andb_true_iff in Hdec. destruct Hdec as [Hc _].
  cbn [String.eqb]. rewrite (decimal_char_not c letter Hc Hl). reflexivity.
Qed.

End Strings.

(** ** Writing a snapshot and reading it back *)

Lemma extends_refl h : extends h h.
Proof. split; [apply Nat.le_refl | reflexivity]. Qed.

Lemma extends_trans h1 h2 h3 : extends h1 h2 -> extends h2 h3 -> extends h1 h3.
Proof.
  intros [L1 C1] [L2 C2]. split; [lia |].
  intros j Hj. rewrite C2 by lia. apply C1, Hj.
Qed.

Lemma extends_map {A} (f : Card -> A) h h' ids :
  extends h h' -> Forall (fun id => (id < next h)%nat) ids ->
  map (fun id => f (cells h' id)) ids = map (fun id => f (cells h id)) ids.
Proof.
  intros [_ Hc] Hall. induction Hall as [| id ids Hid _ IH]; cbn; [reflexivity |].
  rewrite IH, (Hc id Hid). reflexivity.
Qed.

Lemma alloc_spec c h :
  let (id, h') := alloc c h in
  id = next h /\ next h' = S (next h) /\ cells h' id = c /\ extends h h'.
Proof.
  cbn. repeat split.
  - rewrite Nat.eqb_refl. reflexivity.
  - cbn. lia.
  - intros j Hj. cbn. destruct (Nat.eqb_spec j (next h)); [lia | reflexivity].
Qed.

(** Reading pieces that each build an object: the objects are created in
    order, above every object of the heap, which stays as it was. *)
Lemma generate_from_all (build : string -> result (option Card))
    (source : oid -> Card) (piece : Card -> string) (made : Card -> Card) xs :
  (forall x, In x xs -> build (piece (source x)) = Ok (Some (made (source x)))) ->
  forall h,
  exists ids h',
    generate_from build (map (fun x => piece (source x)) xs) h = Ok (ids, h')
    /\ extends h h'
    /\ Forall (fun id => (id < next h')%nat) ids
    /\ map (cells h') ids = map (fun x => made (source x)) xs.
Proof.
  induction xs as [| x xs IH]; intros Hbuild h.
  - exists [], h. repeat split; [apply extends_refl | constructor].
  - cbn [map generate_from].
    rewrite (Hbuild x (or_introl eq_refl)). cbn [bind].
    pose proof (alloc_spec (made (source x)) h) as Ha.
    destruct (alloc (made (source x)) h) as [id h1].
    destruct Ha as (Hid & Hnext & Hcell & Hext).
    destruct (IH (fun y Hy => Hbuild y (or_intror Hy)) h1)
      as (ids & h' & Hrun & Hext' & Hfresh & Hmap).
    rewrite Hrun. cbn [bind]. exists (id :: ids), h'.
    split; [reflexivity | split; [| split]].
    + eapply extends_trans; eassumption.
    + constructor; [| exact Hfresh]. destruct Hext' as [Hle _]. lia.
    + cbn [map]. rewrite Hmap. f_equal.
      destruct Hext' as [_ Hc]. rewrite Hc by lia. exact Hcell.
Qed.

Section Snapshot.

Local Open Scope string_scope.

Lemma separator_cases sep :
  separator sep = true -> sep = ","%char \/ sep = ";"%char \/ sep = "|"%char.
Proof.
  unfold separator. intros H.
  destruct (Ascii.eqb_spec sep ","); [left; assumption |].
  destruct (Ascii.eqb_spec sep ";"); [right; left; assumption |].
  destruct (Ascii.eqb_spec sep "|"); [right; right; assumption | discriminate H].
Qed.

Lemma separator_not_number sep : separator sep = true -> is_number_char sep = false.
Proof. intros H. destruct (separator_cases sep H) as [-> | [-> | ->]]; reflexivity. Qed.

Lemma str_free_separator sep n : separator sep = true -> free_of sep (str n) = true.
Proof. intros H. apply str_free, separator_not_number, H. Qed.

Lemma sep_app (c : ascii) (x : string) : String c "" ++ x = String c x.
Proof. reflexivity. Qed.

Lemma catalog_symbol_free sep c :
  separator sep = true -> catalog_card c = true -> free_of sep (get_symbol c) = true.
Proof.
  intros Hsep Hc. unfold catalog_card, get_symbol in *.
  destruct (cls c);
    try (apply String.eqb_eq in Hc; rewrite Hc;
         destruct (separator_cases sep Hsep) as [-> | [-> | ->]]; reflexivity).
  apply andb_true_iff in Hc. destruct Hc as [_ Hc].
  apply String.eqb_eq in Hc. rewrite Hc. apply str_free_separator, Hsep.
Qed.

Lemma card_of_symbol_catalog c :
  catalog_card c = true ->
  card_of_symbol (get_symbol c) = Ok (Some (reread_card c))
  /\ get_symbol (reread_card c) = get_symbol c.
Proof.
  intros Hc. unfold catalog_card, reread_card, get_symbol in *.
  destruct (cls c);
    try (apply String.eqb_eq in Hc; rewrite Hc; split; reflexivity).
  apply andb_true_iff in Hc. destruct Hc as [Ht Hc].
  apply Z.leb_le in Ht. apply String.eqb_eq in Hc. rewrite Hc.
  split; [| reflexivity]. unfold card_of_symbol.
  unfold CARD_SYMBOL, SHIELD_SYMBOL, HEAL_SYMBOL.
  rewrite !str_not_letter by (first [exact Ht | reflexivity]).
  rewrite isdigit_str by exact Ht. rewrite int_str. reflexivity.
Qed.

Lemma catalog_minion_card c : catalog_minion c = true -> catalog_card c = true.
Proof. unfold catalog_minion. destruct (cls c); intros H; first [exact H | discriminate H]. Qed.

Lemma minion_piece_free sep c :
  sep = ";"%char \/ sep = "|"%char ->
  catalog_minion c = true -> free_of sep (minion_piece c) = true.
Proof.
  intros Hsep Hc.
  assert (Hs : separator sep = true) by (destruct Hsep as [-> | ->]; reflexivity).
  unfold minion_piece. rewrite !free_of_app.
  rewrite (catalog_symbol_free sep c Hs (catalog_minion_card c Hc)).
  rewrite !str_free_separator by exact Hs.
  destruct Hsep as [-> | ->]; reflexivity.
Qed.

Lemma minion_of_piece_catalog c :
  catalog_minion c = true ->
  minion_of_piece (minion_piece c) = Ok (Some (reread_minion c))
  /\ get_symbol (reread_minion c) = get_symbol c
  /\ as_entity (reread_minion c) = as_entity c.
Proof.
  intros Hc. unfold minion_of_piece, minion_piece.
  pose proof (catalog_symbol_free "," c eq_refl (catalog_minion_card c Hc)) as Hfree.
  rewrite !sep_app. rewrite split_app by exact Hfree.
  rewrite split_app by (apply str_free_separator; reflexivity).
  rewrite split_free by (apply str_free_separator; reflexivity).
  rewrite !int_str. cbn [of_option bind].
  unfold catalog_minion, catalog_card, reread_minion, get_symbol, get_health, get_shield in *.
  destruct (as_entity c) as [health shield]. cbn [_health _shield].
  destruct (cls c); try discriminate Hc;
    apply String.eqb_eq in Hc; rewrite Hc; repeat split.
Qed.

Lemma symbols_free sep objs l :
  separator sep = true ->
  forallb (fun id => catalog_card (objs id)) l = true ->
  Forall (fun s => free_of sep s = true) (symbols objs l).
Proof.
  intros Hsep Hl. unfold symbols. apply Forall_map.
  rewrite forallb_forall in Hl. apply Forall_forall. intros x Hx.
  apply catalog_symbol_free; [exact Hsep | apply Hl, Hx].
Qed.

Lemma generate_cards_symbols objs l h :
  forallb (fun id => catalog_card (objs id)) l = true ->
  exists ids h',
    _generate_cards (join "," (symbols objs l)) h = Ok (ids, h')
    /\ extends h h'
    /\ Forall (fun id => (id < next h')%nat) ids
    /\ symbols (cells h') ids = symbols objs l.
Proof.
  intros Hl. unfold _generate_cards.
  destruct l as [| x l].
  - exists [], h. repeat split; [apply extends_refl | constructor].
  - change (symbols objs (x :: l)) with (get_symbol (objs x) :: symbols objs l).
    rewrite split_join
      by (apply (symbols_free "," objs (x :: l)); [reflexivity | exact Hl]).
    destruct (generate_from_all card_of_symbol objs get_symbol reread_card (x :: l))
      with (h := h) as (ids & h' & Hrun & Hext & Hfresh & Hmap).
    + intros y Hy. rewrite forallb_forall in Hl.
      apply card_of_symbol_catalog, Hl, Hy.
    + exists ids, h'. split; [exact Hrun | split; [exact Hext | split; [exact Hfresh |]]].
      unfold symbols. rewrite <- (map_map (cells h') get_symbol), Hmap, map_map.
      change (get_symbol (objs x) :: map (fun card => get_symbol (objs card)) l)
        with (map (fun card => get_symbol (objs card)) (x :: l)).
      apply map_ext_in. intros y Hy. rewrite forallb_forall in Hl.
      apply card_of_symbol_catalog, Hl, Hy.
Qed.

Lemma lstrip_empty s : lstrip s = "" -> all_chars is_space s = true.
Proof.
  induction s as [| c r IH]; cbn; [reflexivity |].
  destruct (is_space c); [exact IH | discriminate].
Qed.

Lemma rstrip_empty s : rstrip s = "" -> all_chars is_space s = true.
Proof.
  induction s as [| c r IH]; cbn; [reflexivity |].
  destruct (rstrip r); [| discriminate].
  destruct (is_space c); [intros _; apply IH; reflexivity | discriminate].
Qed.

(** A string starting with a non-blank character is not blank. *)
Lemma strip_nonblank c r : is_space c = false -> String.eqb (strip (String c r)) "" = false.
Proof.
  intros Hc. apply String.eqb_neq. intros H. unfold strip in H. cbn [lstrip] in H.
  rewrite Hc in H. apply rstrip_empty in H. cbn in H. rewrite Hc in H. discriminate H.
Qed.

Lemma catalog_symbol_head c :
  catalog_minion c = true ->
  exists a r, get_symbol c = String a r /\ is_space a = false.
Proof.
  unfold catalog_minion, catalog_card, get_symbol. intros H.
  destruct (cls c); try discriminate H;
    apply String.eqb_eq in H; rewrite H; eexists _, _; split; reflexivity.
Qed.

Lemma generate_minions_triples objs l h :
  forallb (fun id => catalog_minion (objs id)) l = true ->
  exists ids h',
    _generate_minions (_get_minion_info objs l) h = Ok (ids, h')
    /\ extends h h'
    /\ Forall (fun id => (id < next h')%nat) ids
    /\ minion_triples (cells h') ids = minion_triples objs l.
Proof.
  intros Hl. unfold _generate_minions, _get_minion_info.
  change (map _ l) with (map (fun x => minion_piece (objs x)) l).
  destruct l as [| x l].
  - exists [], h. repeat split; [apply extends_refl | constructor].
  - assert (Hx : catalog_minion (objs x) = true).
    { rewrite forallb_forall in Hl. apply Hl. left. reflexivity. }
    set (pieces := map (fun x => minion_piece (objs x)) l).
    cbn [map]. fold pieces.
    assert (Hblank : String.eqb
              (strip (join ";" (minion_piece (objs x) :: pieces))) "" = false).
    { destruct (catalog_symbol_head (objs x) Hx) as (a & r & Hsym & Ha).
      unfold join. unfold minion_piece at 1. rewrite Hsym.
      destruct pieces; cbn [String.concat append]; apply strip_nonblank, Ha. }
    rewrite Hblank.
    rewrite split_join.
    2:{ apply (Forall_map (fun x => minion_piece (objs x))
                          (fun s => free_of ";" s = true) (x :: l)).
        apply Forall_forall. intros y Hy. rewrite forallb_forall in Hl.
        apply (minion_piece_free ";"); [left; reflexivity | apply Hl, Hy]. }
    destruct (generate_from_all minion_of_piece objs minion_piece reread_minion (x :: l))
      with (h := h) as (ids & h' & Hrun & Hext & Hfresh & Hmap).
    + intros y Hy. rewrite forallb_forall in Hl.
      apply minion_of_piece_catalog, Hl, Hy.
    + exists ids, h'. split; [exact Hrun | split; [exact Hext | split; [exact Hfresh |]]].
      unfold minion_triples.
      rewrite <- (map_map (cells h')
                   (fun c => (get_symbol c, get_health (as_entity c),
                              get_shield (as_entity c)))).
      rewrite Hmap, map_map.
      apply map_ext_in. intros y Hy. rewrite forallb_forall in Hl.
      destruct (minion_of_piece_catalog (objs y) (Hl y Hy)) as (_ & Hs & He).
      rewrite Hs, He. reflexivity.
Qed.

End Snapshot.

Section RoundTrip.

Local Open Scope string_scope.

Lemma joined_symbols_free sep objs l :
  sep = ";"%char \/ sep = "|"%char ->
  forallb (fun id => catalog_card (objs id)) l = true ->
  free_of sep (join "," (symbols objs l)) = true.
Proof.
  intros Hsep Hl.
  assert (Hs : separator sep = true) by (destruct Hsep as [-> | ->]; reflexivity).
  apply free_of_join.
  - destruct Hsep as [-> | ->]; reflexivity.
  - apply symbols_free; assumption.
Qed.

Lemma stats_text_free sep self :
  sep = ";"%char \/ sep = "|"%char -> free_of sep (stats_text self) = true.
Proof.
  intros Hsep.
  assert (Hs : separator sep = true) by (destruct Hsep as [-> | ->]; reflexivity).
  unfold stats_text. rewrite !free_of_app, !str_free_separator by exact Hs.
  destruct Hsep as [-> | ->]; reflexivity.
Qed.

Lemma Hero_str_free objs self :
  catalog_hero objs self = true -> free_of "|" (Hero_str objs self) = true.
Proof.
  intros Hc. unfold catalog_hero in Hc. apply andb_true_iff in Hc.
  destruct Hc as [Hdeck Hhand].
  unfold Hero_str, CardDeck_str. fold (stats_text self).
  rewrite !free_of_app.
  rewrite stats_text_free by (right; reflexivity).
  rewrite !joined_symbols_free by (first [right; reflexivity | assumption]).
  reflexivity.
Qed.

Lemma minion_info_free objs l :
  forallb (fun id => catalog_minion (objs id)) l = true ->
  free_of "|" (_get_minion_info objs l) = true.
Proof.
  intros Hl. unfold _get_minion_info. apply free_of_join; [reflexivity |].
  apply (Forall_map (fun x => minion_piece (objs x)) (fun s => free_of "|" s = true)).
  apply Forall_forall. intros y Hy. rewrite forallb_forall in Hl.
  apply (minion_piece_free "|"); [right; reflexivity | apply Hl, Hy].
Qed.

Lemma fresh_weaken h h' ids :
  extends h h' -> Forall (fun id => (id < next h)%nat) ids ->
  Forall (fun id => (id < next h')%nat) ids.
Proof.
  intros [Hle _] Hall. eapply Forall_impl; [| exact Hall].
  cbn. intros id Hid. lia.
Qed.

Lemma generate_hero_str objs self h :
  catalog_hero objs self = true ->
  exists self' h',
    _generate_hero (Hero_str objs self) h = Ok (self', h')
    /\ extends h h'
    /\ Forall (fun id => (id < next h')%nat) (_cards (_deck self'))
    /\ Forall (fun id => (id < next h')%nat) (_hand self')
    /\ hero_stats self' = hero_stats self
    /\ get_energy self' = get_max_energy self
    /\ symbols (cells h') (_cards (_deck self')) = symbols objs (_cards (_deck self))
    /\ symbols (cells h') (_hand self') = symbols objs (_hand self).
Proof.
  intros Hc. pose proof Hc as Hc'. unfold catalog_hero in Hc'.
  apply andb_true_iff in Hc'. destruct Hc' as [Hdeck Hhand].
  unfold _generate_hero, Hero_str, CardDeck_str. fold (stats_text self).
  rewrite !sep_app.
  rewrite split_app by (apply stats_text_free; left; reflexivity).
  rewrite split_app by (apply joined_symbols_free; [left; reflexivity | exact Hdeck]).
  rewrite split_free by (apply joined_symbols_free; [left; reflexivity | exact Hhand]).
  unfold stats_text at 1. rewrite !sep_app.
  rewrite split_app by (apply str_free_separator; reflexivity).
  rewrite split_app by (apply str_free_separator; reflexivity).
  rewrite split_free by (apply str_free_separator; reflexivity).
  destruct (generate_cards_symbols objs (_cards (_deck self)) h Hdeck)
    as (deck & h1 & Hrun1 & Hext1 & Hfresh1 & Hsym1).
  destruct (generate_cards_symbols objs (_hand self) h1 Hhand)
    as (hand & h2 & Hrun2 & Hext2 & Hfresh2 & Hsym2).
  rewrite Hrun1. cbn [bind]. rewrite Hrun2. cbn [bind].
  rewrite !int_str. cbn [of_option bind].
  eexists _, h2. split; [reflexivity |].
  cbn [Hero_new _deck _cards _hand hero_stats hero_entity _health _shield
       _energy_capacity get_energy get_max_energy _energy].
  split; [eapply extends_trans; eassumption |].
  split; [eapply fresh_weaken; eassumption |].
  split; [exact Hfresh2 |].
  split; [reflexivity |]. split; [reflexivity |].
  split; [| exact Hsym2].
  unfold symbols in *. rewrite (extends_map get_symbol h1 h2 deck Hext2 Hfresh1).
  exact Hsym1.
Qed.

End RoundTrip.

(** The constructors of the source build cards of the catalog, and
    [increment_turn] keeps a Fireball in it. *)
Lemma constructors_in_catalog :
  catalog_card Card_new = true /\ catalog_card Shield = true
  /\ catalog_card Heal = true
  /\ (forall t, 0 <= t -> catalog_card (Fireball t) = true
                          /\ catalog_card (increment_turn (Fireball t)) = true)
  /\ (forall h s, catalog_minion (Minion h s) = true
                  /\ catalog_minion (Wyrm h s) = true
                  /\ catalog_minion (Raptor h s) = true).
Proof.
  repeat split; try reflexivity.
  - unfold catalog_card. cbn. rewrite String.eqb_refl.
    destruct (Z.leb_spec 0 t); [reflexivity | lia].
  - unfold catalog_card. cbn. rewrite String.eqb_refl.
    destruct (Z.leb_spec 0 (t + 1)); [reflexivity | lia].
Qed.

(** C4: for a state whose hand and deck cards and roster minions are cards
    of the catalog, reading the snapshot string of the state succeeds and
    gives a model with the same health, shield and energy capacity for both
    heroes (the energy being the capacity), the same deck and hand symbols
    in order, and the same (symbol, health, shield) triples in both rosters
    in order. *)
Theorem snapshot_round_trip (m : HearthModel) :
  catalog_state m = true ->
  exists m',
    load_game (HearthModel_str m) = Ok m'
    /\ hero_stats (_player m') = hero_stats (_player m)
    /\ hero_stats (_enemy m') = hero_stats (_enemy m)
    /\ get_energy (_player m') = get_max_energy (_player m)
    /\ get_energy (_enemy m') = get_max_energy (_enemy m)
    /\ symbols (objects m') (_cards (_deck (_player m')))
       = symbols (objects m) (_cards (_deck (_player m)))
    /\ symbols (objects m') (_hand (_player m'))
       = symbols (objects m) (_hand (_player m))
    /\ symbols (objects m') (_cards (_deck (_enemy m')))
       = symbols (objects m) (_cards (_deck (_enemy m)))
    /\ symbols (objects m') (_hand (_enemy m'))
       = symbols (objects m) (_hand (_enemy m))
    /\ minion_triples (objects m') (_active_player_minions m')
       = minion_triples (objects m) (_active_player_minions m)
    /\ minion_triples (objects m') (_active_enemy_minions m')
       = minion_triples (objects m) (_active_enemy_minions m).
Proof.
  intros Hc. unfold catalog_state in Hc.
  apply andb_true_iff in Hc. destruct Hc as [Hc Hem].
  apply andb_true_iff in Hc. destruct Hc as [Hc Hpm].
  apply andb_true_iff in Hc. destruct Hc as [Hp He].
  unfold load_game, HearthModel_str. rewrite !sep_app.
  rewrite split_app by (apply Hero_str_free, Hp).
  rewrite split_app by (apply minion_info_free, Hpm).
  rewrite split_app by (apply Hero_str_free, He).
  rewrite split_free by (apply minion_info_free, Hem).
  destruct (generate_hero_str (objects m) (_player m) empty_heap Hp)
    as (player & h1 & Hrun1 & Hext1 & Hpd & Hph & Hps & Hpe & Hpds & Hphs).
  destruct (generate_minions_triples (objects m) (_active_player_minions m) h1 Hpm)
    as (pms & h2 & Hrun2 & Hext2 & Hpmf & Hpmt).
  destruct (generate_hero_str (objects m) (_enemy m) h2 He)
    as (enemy & h3 & Hrun3 & Hext3 & Hed & Heh & Hes & Hee & Heds & Hehs).
  destruct (generate_minions_triples (objects m) (_active_enemy_minions m) h3 Hem)
    as (ems & h4 & Hrun4 & Hext4 & Hemf & Hemt).
  rewrite Hrun1. cbn [bind]. rewrite Hrun2. cbn [bind].
  rewrite Hrun3. cbn [bind]. rewrite Hrun4. cbn [bind].
  eexists. split; [reflexivity |].
  cbn [objects _player _enemy _active_player_minions _active_enemy_minions].
  pose proof (extends_trans _ _ _ Hext3 Hext4) as Hext34.
  pose proof (extends_trans _ _ _ Hext2 Hext34) as Hext24.
  repeat split; try assumption.
  - unfold symbols in *. rewrite (extends_map get_symbol h1 h4 _ Hext24 Hpd). exact Hpds.
  - unfold symbols in *. rewrite (extends_map get_symbol h1 h4 _ Hext24 Hph). exact Hphs.
  - unfold symbols in *. rewrite (extends_map get_symbol h3 h4 _ Hext4 Hed). exact Heds.
  - unfold symbols in *. rewrite (extends_map get_symbol h3 h4 _ Hext4 Heh). exact Hehs.
  - unfold minion_triples in *.
    rewrite (extends_map
               (fun c => (get_symbol c, get_health (as_entity c), get_shield (as_entity c)))
               h2 h4 _ Hext34 Hpmf).
    exact Hpmt.
Qed.

Lemma snapshot_round_trip_witness :
  exists m',
    load_game (HearthModel_str Samples.last_draw) = Ok m'
    /\ symbols (objects m') (_cards (_deck (_player m')))
       = symbols (objects Samples.last_draw) (_cards (_deck (_player Samples.last_draw)))
    /\ minion_triples (objects m') (_active_player_minions m')
       = minion_triples (objects Samples.last_draw)
                        (_active_player_minions Samples.last_draw).
Proof.
  destruct (snapshot_round_trip Samples.last_draw)
    as (m' & Hrun & _ & _ & _ & _ & Hdeck & _ & _ & _ & Hpm & _).
  - reflexivity.
  - exists m'. split; [exact Hrun | split; [exact Hdeck | exact Hpm]].
Defined.

(** ** Runs on sample states *)

Lemma play_card_false_iff_unaffordable_witness :
  play_card 0%nat EnemyHero Samples.broke_player = Ok (false, Samples.broke_player).
Proof.
  destruct (play_card_false_iff_unaffordable Samples.broke_player 0%nat EnemyHero)
    as (_ & Hsame & _).
  apply Hsame. cbn. lia.
Defined.

(** With six minions in the roster the loop after the [append] is entered
    and the call raises. *)
Example play_card_six_minions_raises :
  play_card 6%nat PlayerHero Samples.six_minions = Raise TypeError.
Proof. reflexivity. Qed.

(** A card that is not in the hand: the energy is paid, then [remove]
    raises. *)
Example play_card_absent_raises :
  play_card 1%nat PlayerHero Samples.full_board = Raise ValueError.
Proof. reflexivity. Qed.

(** An enemy turn: the player's Raptor hits the enemy hero for 2; the enemy
    draws five cards and has 3 energy; it plays the Heal (cost 2), restarts,
    skips the Fireball and plays the first Shield (cost 1); the Fireball,
    the Wyrm and the second Shield stay in hand; the player then draws its
    two cards and has 2 energy. *)
Example end_turn_enemy_plays :
  match end_turn Samples.enemy_turn with
  | Some (played, m') =>
      played = ["Heal"; "Shield"]%string
      /\ get_hand (_enemy m') = [1; 3; 4]%nat
      /\ get_energy (_enemy m') = 0
      /\ hero_entity (_enemy m') = mkEntity 10 5
      /\ get_energy (_player m') = 2
      /\ get_hand (_player m') = [6; 7]%nat
  | None => False
  end.
Proof. vm_compute. repeat split. Qed.

(** Reading fails on a line with fewer than four fields, and on a hero
    field that does not have three parts. *)
Example load_game_short_line :
  load_game "10,0,1;;|R,1,0|10,0,1;;"%string = Raise IndexError.
Proof. reflexivity. Qed.

Example load_game_bad_hero :
  load_game "10,0,1;S|||"%string = Raise ValueError.
Proof. reflexivity. Qed.

(** A Fireball whose count of turns were negative would not be read back:
    its symbol is no string of digits. *)
Example negative_count_not_reread :
  card_of_symbol (get_symbol (Fireball (-1))) = Ok None.
Proof. reflexivity. Qed.

(** * Further properties *)

(** ** CardDeck.draw_cards *)

Lemma draw_cards_app num deck :
  fst (draw_cards num deck) ++ _cards (snd (draw_cards num deck)) = _cards deck.
Proof.
  unfold draw_cards. destruct (Z.ltb _ _); cbn [fst snd _cards].
  - apply app_nil_r.
  - apply firstn_skipn.
Qed.

Lemma draw_cards_length num deck :
  0 <= num ->
  length (fst (draw_cards num deck))
  = Nat.min (Z.to_nat num) (length (_cards deck)).
Proof.
  intros Hnum. rewrite draw_cards_front by exact Hnum. cbn [fst].
  rewrite length_firstn. lia.
Qed.

(** X1: [draw_cards] splits the deck in two: the cards drawn followed by the
    cards left are the deck as it was, for every count.  A count that is
    not negative draws [min(num, size)] cards; a negative count, which
    reaches the slice, draws all but the last [-num] cards. *)
Theorem draw_cards_splits_deck (num : Z) (deck : CardDeck) :
  let drawn := fst (draw_cards num deck) in
  let left := _cards (snd (draw_cards num deck)) in
  drawn ++ left = _cards deck
  /\ (0 <= num -> length drawn = Nat.min (Z.to_nat num) (length (_cards deck)))
  /\ (num < 0 -> length drawn = (length (_cards deck) - Z.to_nat (- num))%nat)
  /\ (Z.of_nat (length (_cards deck)) <= num -> is_empty (snd (draw_cards num deck)) = true).
Proof.
  unfold draw_cards.
  destruct (Z.ltb_spec (Z.of_nat (length (_cards deck))) num) as [Hshort | Hlong];
    cbn [fst snd _cards].
  - rewrite app_nil_r. repeat split; intros; lia.
  - unfold slice_to, del_slice_to, slice_stop.
    split; [apply firstn_skipn |].
    destruct (Z.ltb_spec num 0) as [Hneg | Hpos];
      repeat split; intros; try lia;
      try (rewrite length_firstn; lia);
      try (unfold is_empty; cbn [_cards]; rewrite length_skipn;
           apply Nat.eqb_eq; lia).
Qed.

(** ** Hero.new_turn: no card is lost *)

Lemma new_turn_hand objs self :
  _hand (snd (new_turn objs self))
  = _hand self ++ fst (draw_cards (5 - Z.of_nat (length (_hand self))) (_deck self))
  /\ _deck (snd (new_turn objs self))
     = snd (draw_cards (5 - Z.of_nat (length (_hand self))) (_deck self))
  /\ hero_entity (snd (new_turn objs self)) = hero_entity self
  /\ _energy_capacity (snd (new_turn objs self)) = _energy_capacity self + 1
  /\ _energy (snd (new_turn objs self)) = _energy_capacity self + 1.
Proof. unfold new_turn. destruct (draw_cards _ _). repeat split. Qed.

Lemma new_turn_hand_bounded objs self :
  (length (_hand self) <= 5)%nat ->
  (length (_hand (snd (new_turn objs self))) <= 5)%nat.
Proof.
  intros Hlen. destruct (new_turn_hand objs self) as (Hh & _). rewrite Hh.
  rewrite length_app, draw_cards_length by lia. lia.
Qed.

(** X2: for every hero, whatever the size of its hand, [new_turn] loses and
    duplicates no card: the new hand followed by the new deck is the old
    hand followed by the old deck.  A hand of at most five cards stays at
    most five, and reaches five when hand and deck together hold five
    cards; health and shield are not touched. *)
Theorem new_turn_keeps_every_card (objs : oid -> Card) (self : Hero) :
  let self' := snd (new_turn objs self) in
  _hand self' ++ _cards (_deck self') = _hand self ++ _cards (_deck self)
  /\ (exists drawn, _hand self' = _hand self ++ drawn)
  /\ ((length (_hand self) <= 5)%nat -> (length (_hand self') <= 5)%nat)
  /\ ((length (_hand self) <= 5)%nat ->
      (5 <= length (_hand self) + length (_cards (_deck self)))%nat ->
      length (_hand self') = 5%nat)
  /\ hero_entity self' = hero_entity self.
Proof.
  cbn zeta. destruct (new_turn_hand objs self) as (Hh & Hd & He & _).
  split; [| split; [| split; [| split]]].
  - rewrite Hh, Hd, <- app_assoc, draw_cards_app. reflexivity.
  - eexists. exact Hh.
  - apply new_turn_hand_bounded.
  - intros Hlen Hsum. rewrite Hh, length_app, draw_cards_length by lia. lia.
  - exact He.
Qed.

(** ** discard_card *)

Lemma remove_length x l :
  contains x l = true -> S (length (remove x l)) = length l.
Proof.
  unfold contains. induction l as [| y l IH]; cbn; [discriminate |].
  destruct (Nat.eqb x y); cbn; [reflexivity |].
  intros H. rewrite IH by exact H. reflexivity.
Qed.

Lemma remove_shorter x l : (length (remove x l) <= length l)%nat.
Proof.
  induction l as [| y l IH]; cbn; [lia |].
  destruct (Nat.eqb x y); cbn; lia.
Qed.

Lemma remove_incl x l : incl (remove x l) l.
Proof.
  induction l as [| y l IH]; cbn; [apply incl_refl |].
  destruct (Nat.eqb x y).
  - apply incl_tl, incl_refl.
  - intros z [<- | Hz]; [left; reflexivity | right; apply IH, Hz].
Qed.

(** X3: [discard_card] raises [ValueError] exactly when the card is not in
    the player's hand.  Otherwise the card leaves the hand (its first
    place there) and becomes the last card of the deck; the player's
    health, shield, energy and capacity, the enemy, the rosters and every
    object are as before, and the player, whose deck is now not empty, is
    alive exactly when its health is positive. *)
Theorem discard_card_moves_to_deck (m : HearthModel) (card : oid) :
  (contains card (get_hand (_player m)) = false ->
   discard_card card m = Raise ValueError)
  /\ (contains card (get_hand (_player m)) = true ->
      exists m',
        discard_card card m = Ok m'
        /\ _hand (_player m') = remove card (_hand (_player m))
        /\ _cards (_deck (_player m')) = _cards (_deck (_player m)) ++ [card]
        /\ S (length (_hand (_player m'))) = length (_hand (_player m))
        /\ hero_entity (_player m') = hero_entity (_player m)
        /\ _energy (_player m') = _energy (_player m)
        /\ _energy_capacity (_player m') = _energy_capacity (_player m)
        /\ _enemy m' = _enemy m
        /\ _active_player_minions m' = _active_player_minions m
        /\ _active_enemy_minions m' = _active_enemy_minions m
        /\ objects m' = objects m
        /\ Hero_is_alive (_player m') = is_alive (hero_entity (_player m))).
Proof.
  unfold discard_card, get_hand, get_deck. cbn [_hand set_deck]. split; intros H; rewrite H.
  - reflexivity.
  - eexists. split; [reflexivity |].
    cbn [_player set_player _hand set_hand _deck set_deck add_card _cards
         hero_entity _energy _energy_capacity _enemy _active_player_minions
         _active_enemy_minions objects].
    repeat split.
    + apply remove_length, H.
    + unfold Hero_is_alive, remaining_count.
      cbn [hero_entity _deck _cards set_hand set_deck add_card].
      rewrite length_app. cbn [length].
      destruct (Z.ltb_spec 0 (Z.of_nat (length (_cards (_deck (_player m))) + 1)));
        [apply andb_true_r | lia].
Qed.

(** ** _use_effect *)

Lemma filter_twice {A} (f g : A -> bool) (l : list A) :
  filter f (filter g l) = filter (fun x => g x && f x) l.
Proof.
  induction l as [| x l IH]; cbn; [reflexivity |].
  destruct (g x); cbn; [destruct (f x) |]; rewrite IH; reflexivity.
Qed.

Lemma use_effect_rosters card target m :
  let m' := _use_effect card target m in
  _active_player_minions m'
  = filter (fun id => minion_alive m id && minion_alive m' id)
           (_active_player_minions m)
  /\ _active_enemy_minions m'
     = filter (fun id => minion_alive m id && minion_alive m' id)
              (_active_enemy_minions m).
Proof.
  unfold _use_effect.
  set (m0 := _remove_defeated_minions m).
  destruct (apply_if_present_rosters DAMAGE apply_damage card target m0) as [P1 E1].
  set (m1 := apply_if_present DAMAGE apply_damage card target m0) in *.
  destruct (apply_if_present_rosters HEALTH apply_health card target m1) as [P2 E2].
  set (m2 := apply_if_present HEALTH apply_health card target m1) in *.
  destruct (apply_if_present_rosters SHIELD apply_shield card target m2) as [P3 E3].
  set (m3 := apply_if_present SHIELD apply_shield card target m2) in *.
  cbn zeta.
  change (minion_alive (_remove_defeated_minions m3)) with (minion_alive m3).
  cbn [_remove_defeated_minions _active_player_minions _active_enemy_minions
       set_enemy_minions set_player_minions].
  rewrite P3, P2, P1, E3, E2, E1. unfold m0.
  cbn [_remove_defeated_minions _active_player_minions _active_enemy_minions
       set_enemy_minions set_player_minions].
  rewrite !filter_twice. split; reflexivity.
Qed.

(** X4: when [_use_effect] returns, each roster is the roster it started
    with, in the same order, without the minions that were defeated before
    the effect or are defeated after it: no defeated minion is left in a
    roster, and a minion that was already defeated is removed even when
    the effect heals it. *)
Theorem use_effect_prunes_rosters
    (card : oid) (target : EntityRef) (m : HearthModel) :
  let m' := _use_effect card target m in
  let kept := fun id => minion_alive m id && minion_alive m' id in
  _active_player_minions m' = filter kept (_active_player_minions m)
  /\ _active_enemy_minions m' = filter kept (_active_enemy_minions m)
  /\ Forall (fun id => minion_alive m' id = true) (_active_player_minions m')
  /\ Forall (fun id => minion_alive m' id = true) (_active_enemy_minions m')
  /\ (forall id, minion_alive m id = false ->
        ~ In id (_active_player_minions m') /\ ~ In id (_active_enemy_minions m')).
Proof.
  cbn zeta. destruct (use_effect_rosters card target m) as [HP HE].
  cbn zeta in HP, HE.
  split; [exact HP | split; [exact HE | split; [| split]]].
  - rewrite HP at 1. apply Forall_forall. intros id Hid.
    apply filter_In in Hid. destruct Hid as [_ Hk].
    apply andb_true_iff in Hk. apply Hk.
  - rewrite HE at 1. apply Forall_forall. intros id Hid.
    apply filter_In in Hid. destruct Hid as [_ Hk].
    apply andb_true_iff in Hk. apply Hk.
  - intros id Hdead. rewrite HP, HE. split; intros Hid;
      apply filter_In in Hid; destruct Hid as [_ Hk]; rewrite Hdead in Hk;
      discriminate Hk.
Qed.

Lemma get_effect_twice c : get_effect (get_effect c) = get_effect c.
Proof. unfold get_effect. destruct c as [k ? ? ? ? ? ? ?]. destruct k; reflexivity. Qed.

Lemma get_effect_entity c : as_entity (get_effect c) = as_entity c.
Proof. unfold get_effect. destruct (cls c); reflexivity. Qed.

(** One statement of [_use_effect] on a hero: the card keeps the dictionary
    it returned, the hero receives the amount, and nothing else moves. *)
Lemma apply_if_present_hero key apply card target m :
  target = PlayerHero \/ target = EnemyHero ->
  let m' := apply_if_present key apply card target m in
  let eff := _effect (get_effect (objects m card)) in
  objects m' card = get_effect (objects m card)
  /\ (forall id, id <> card -> objects m' id = objects m id)
  /\ deref m' target = apply_amount apply (key eff) (deref m target)
  /\ (forall other, other = PlayerHero \/ other = EnemyHero -> other <> target ->
        deref m' other = deref m other).
Proof.
  intros Ht. unfold apply_if_present. cbn zeta.
  assert (Hcard : objects (store card (get_effect (objects m card)) m) card
                  = get_effect (objects m card)).
  { cbn. rewrite Nat.eqb_refl. reflexivity. }
  rewrite Hcard.
  assert (Hother : forall id, id <> card ->
            objects (store card (get_effect (objects m card)) m) id = objects m id).
  { intros id Hne. cbn. apply Nat.eqb_neq in Hne. rewrite Hne. reflexivity. }
  destruct (key (_effect (get_effect (objects m card)))) as [amount |];
    destruct Ht as [-> | ->]; cbn [apply_amount assign deref];
    (split; [exact Hcard | split; [exact Hother | split; [reflexivity |]]]);
    intros other [-> | ->] Hne; try congruence; reflexivity.
Qed.

Lemma use_effect_hero card target m :
  target = PlayerHero \/ target = EnemyHero ->
  let m' := _use_effect card target m in
  deref m' target = resolve (_effect (get_effect (objects m card))) (deref m target)
  /\ (forall other, other = PlayerHero \/ other = EnemyHero -> other <> target ->
        deref m' other = deref m other)
  /\ (forall id, as_entity (objects m' id) = as_entity (objects m id)).
Proof.
  intros Ht. unfold _use_effect.
  set (m0 := _remove_defeated_minions m).
  pose proof (apply_if_present_hero DAMAGE apply_damage card target m0 Ht) as H1.
  set (m1 := apply_if_present DAMAGE apply_damage card target m0) in *.
  pose proof (apply_if_present_hero HEALTH apply_health card target m1 Ht) as H2.
  set (m2 := apply_if_present HEALTH apply_health card target m1) in *.
  pose proof (apply_if_present_hero SHIELD apply_shield card target m2 Ht) as H3.
  set (m3 := apply_if_present SHIELD apply_shield card target m2) in *.
  cbn zeta in H1, H2, H3.
  destruct H1 as (C1 & O1 & T1 & R1), H2 as (C2 & O2 & T2 & R2),
           H3 as (C3 & O3 & T3 & R3).
  change (objects m0) with (objects m) in *.
  rewrite C1, get_effect_twice in C2, T2.
  rewrite C2, get_effect_twice in C3, T3.
  assert (D0 : forall r, r = PlayerHero \/ r = EnemyHero -> deref m0 r = deref m r).
  { intros r [-> | ->]; reflexivity. }
  assert (DF : forall r, r = PlayerHero \/ r = EnemyHero ->
                 deref (_remove_defeated_minions m3) r = deref m3 r).
  { intros r [-> | ->]; reflexivity. }
  cbn zeta. split; [| split].
  - rewrite (DF target Ht), T3, T2, T1, (D0 target Ht). reflexivity.
  - intros other Ho Hne.
    rewrite (DF other Ho), (R3 other Ho Hne), (R2 other Ho Hne), (R1 other Ho Hne).
    apply D0, Ho.
  - intros id. change (objects (_remove_defeated_minions m3)) with (objects m3).
    destruct (Nat.eq_dec id card) as [-> | Hne].
    + rewrite C3. apply get_effect_entity.
    + rewrite (O3 id Hne), (O2 id Hne), (O1 id Hne). reflexivity.
Qed.

(** X5: an effect resolved on a hero applies, in this order, the damage,
    the health and the shield of the card's effect (as [get_effect] returns
    it when the call starts) to that hero; the other hero and the health
    and shield of every minion are as before, and so are the hands, decks,
    energy and capacity of both heroes. *)
Theorem use_effect_on_hero_in_order (card : oid) (m : HearthModel) :
  let eff := _effect (get_effect (objects m card)) in
  (let m' := _use_effect card PlayerHero m in
   hero_entity (_player m') = resolve eff (hero_entity (_player m))
   /\ hero_entity (_enemy m') = hero_entity (_enemy m)
   /\ (forall id, as_entity (objects m' id) = as_entity (objects m id))
   /\ effect_frame m m')
  /\ (let m' := _use_effect card EnemyHero m in
      hero_entity (_enemy m') = resolve eff (hero_entity (_enemy m))
      /\ hero_entity (_player m') = hero_entity (_player m)
      /\ (forall id, as_entity (objects m' id) = as_entity (objects m id))
      /\ effect_frame m m').
Proof.
  cbn zeta. split.
  - destruct (use_effect_hero card PlayerHero m (or_introl eq_refl)) as (T & R & O).
    cbn zeta in T, R, O. split; [exact T | split; [| split; [exact O |]]].
    + apply (R EnemyHero); [right; reflexivity | discriminate].
    + apply use_effect_frame.
  - destruct (use_effect_hero card EnemyHero m (or_intror eq_refl)) as (T & R & O).
    cbn zeta in T, R, O. split; [exact T | split; [| split; [exact O |]]].
    + apply (R PlayerHero); [left; reflexivity | discriminate].
    + apply use_effect_frame.
Qed.

(** ** play_card when the card is played *)

Lemma play_card_true m card target m' :
  play_card card target m = Ok (true, m') ->
  let paid :=
    set_player
      (set_hand (remove card (_hand (_player m)))
         (set_energy (_energy (_player m) - get_cost (objects m card)) (_player m)))
      m in
  contains card (_hand (_player m)) = true
  /\ get_cost (objects m card) <= _energy (_player m)
  /\ (is_permanent (objects m card) = true ->
      m' = set_player_minions (place_minion card (_active_player_minions m)) paid)
  /\ (is_permanent (objects m card) = false -> m' = _use_effect card target paid).
Proof.
  unfold play_card, spend_energy, get_hand.
  destruct (Z.leb_spec (get_cost (objects m card)) (_energy (_player m)))
    as [Hle | Hgt]; [| discriminate].
  cbn [_hand set_energy].
  destruct (contains card (_hand (_player m))); [| discriminate].
  cbn [objects set_player].
  destruct (is_permanent (objects m card)).
  - cbn [_active_player_minions set_player set_player_minions].
    destruct (5 <? _)%nat; [discriminate |].
    intros Hrun. injection Hrun as <-.
    repeat split; first [exact Hle | discriminate | idtac].
  - intros Hrun. injection Hrun as <-.
    repeat split; first [exact Hle | discriminate | idtac].
Qed.

Lemma play_card_true_frame
    (m : HearthModel) (card : oid) (target : EntityRef) (m' : HearthModel) :
  play_card card target m = Ok (true, m') ->
  contains card (_hand (_player m)) = true
  /\ get_cost (objects m card) <= _energy (_player m)
  /\ _hand (_player m') = remove card (_hand (_player m))
  /\ _energy (_player m') = _energy (_player m) - get_cost (objects m card)
  /\ _energy_capacity (_player m') = _energy_capacity (_player m)
  /\ _deck (_player m') = _deck (_player m)
  /\ hero_static (_enemy m') = hero_static (_enemy m)
  /\ (forall id, card_static (objects m' id) = card_static (objects m id))
  /\ (is_permanent (objects m card) = true ->
      _active_player_minions m' = place_minion card (_active_player_minions m)
      /\ _active_enemy_minions m' = _active_enemy_minions m
      /\ objects m' = objects m
      /\ hero_entity (_player m') = hero_entity (_player m)
      /\ _enemy m' = _enemy m).
Proof.
  intros Hrun. destruct (play_card_true m card target m' Hrun) as (Hin & Hcost & Hperm & Hnot).
  cbn zeta in Hperm, Hnot.
  split; [exact Hin | split; [exact Hcost |]].
  destruct (is_permanent (objects m card)).
  - rewrite (Hperm eq_refl). cbn. repeat split.
  - rewrite (Hnot eq_refl).
    match goal with |- context [_use_effect card target ?p] =>
      destruct (use_effect_frame card target p) as (Hp & He & Hc) end.
    unfold hero_static in Hp. injection Hp as Hcap Hen Hdeck Hhand.
    cbn in Hcap, Hen, Hdeck, Hhand, He, Hc.
    split; [exact Hhand | split; [exact Hen | split; [exact Hcap |
      split; [exact Hdeck | split; [exact He | split; [exact Hc |]]]]]].
    intros Hperm'. discriminate Hperm'.
Qed.

(** X6: when [play_card] returns [True], the card was in the hand and
    affordable; the hand is the old hand without the card, the energy is
    the old energy less the cost, and the player's deck and capacity and
    the enemy's hand, deck, energy and capacity are as before.  A permanent
    card changes nothing else but the player's roster; any other card
    leaves the costs, names and symbols of all objects as they were and
    brings no minion into a roster. *)
Theorem play_card_true_pays_and_removes
    (m : HearthModel) (card : oid) (target : EntityRef) (m' : HearthModel) :
  play_card card target m = Ok (true, m') ->
  contains card (_hand (_player m)) = true
  /\ get_cost (objects m card) <= _energy (_player m)
  /\ _hand (_player m') = remove card (_hand (_player m))
  /\ _energy (_player m') = _energy (_player m) - get_cost (objects m card)
  /\ _energy_capacity (_player m') = _energy_capacity (_player m)
  /\ _deck (_player m') = _deck (_player m)
  /\ hero_static (_enemy m') = hero_static (_enemy m)
  /\ (forall id, card_static (objects m' id) = card_static (objects m id))
  /\ (is_permanent (objects m card) = true ->
      _active_player_minions m' = place_minion card (_active_player_minions m)
      /\ _active_enemy_minions m' = _active_enemy_minions m
      /\ objects m' = objects m
      /\ hero_entity (_player m') = hero_entity (_player m)
      /\ _enemy m' = _enemy m)
  /\ (is_permanent (objects m card) = false ->
      incl (_active_player_minions m') (_active_player_minions m)
      /\ incl (_active_enemy_minions m') (_active_enemy_minions m)).
Proof.
  intros Hrun.
  destruct (play_card_true_frame m card target m' Hrun)
    as (H1 & H2 & H3 & H4 & H5 & H6 & H7 & H8 & H9).
  repeat (split; [assumption |]).
  intros Hperm.
  destruct (play_card_true m card target m' Hrun) as (_ & _ & _ & Hnot).
  cbn zeta in Hnot. rewrite (Hnot Hperm).
  match goal with |- context [_use_effect card target ?p] =>
    destruct (use_effect_rosters card target p) as [HP HE] end.
  cbn zeta in HP, HE. rewrite HP, HE.
  cbn [_active_player_minions _active_enemy_minions set_player].
  split; intros id Hid; apply filter_In in Hid; apply Hid.
Qed.

Lemma play_card_true_pays_and_removes_witness :
  exists m',
    play_card 5%nat PlayerHero Samples.full_board = Ok (true, m')
    /\ _hand (_player m') = []
    /\ _energy (_player m') = 2.
Proof.
  eexists. split; [reflexivity |].
  destruct (play_card_true_pays_and_removes Samples.full_board 5%nat PlayerHero _ eq_refl)
    as (_ & _ & Hh & He & _).
  split; [exact Hh | exact He].
Defined.

(** ** Invariants of the engine's operations *)

(** A property kept by each step of [end_turn] holds when it returns. *)
Lemma minions_act_invariant (P : HearthModel -> Prop)
    (step_target : HearthModel -> oid -> EntityRef) :
  (forall c t m, P m -> P (_use_effect c t m)) ->
  forall l m, P m ->
    P (fold_left (fun m _minion => _use_effect _minion (step_target m _minion) m) l m).
Proof.
  intros Hstep. induction l as [| x l IH]; intros m HP; cbn [fold_left];
    [exact HP | apply IH, Hstep, HP].
Qed.

Lemma end_turn_invariant (P : HearthModel -> Prop) :
  (forall c t m, P m -> P (_use_effect c t m)) ->
  (forall m, P m -> P (enemy_new_turn m)) ->
  (forall m card, P m -> In card (get_hand (_enemy m)) ->
                  affordable m card = true -> P (enemy_played card m)) ->
  (forall m, P m -> P (player_new_turn m)) ->
  forall m l m', P m -> end_turn m = Some (l, m') -> P m'.
Proof.
  intros Huse Henemy Hplay Hplayer m l m' HP. unfold end_turn.
  assert (H1 : P (player_minions_act m)).
  { apply (minions_act_invariant P
             (fun m _minion =>
                choose_target m _minion PlayerHero EnemyHero
                              (_active_player_minions m) (_active_enemy_minions m)));
      assumption. }
  set (m2 := enemy_new_turn (player_minions_act m)).
  assert (H2 : P m2) by (apply Henemy, H1).
  destruct (negb (Hero_is_alive (_enemy m2))).
  - intros H. injection H as _ <-. exact H2.
  - destruct (enemy_play_loop_invariant P Hplay (enemy_rounds m2) m2 [])
      as (l3 & m3 & Hrun & H3); [unfold enemy_rounds; lia | exact H2 |].
    rewrite Hrun. intros H. injection H as _ <-.
    apply Hplayer.
    apply (minions_act_invariant P
             (fun m _minion =>
                choose_target m _minion EnemyHero PlayerHero
                              (_active_enemy_minions m) (_active_player_minions m)));
      assumption.
Qed.

(** The state after the enemy has paid for a card and played it, against
    the state before. *)
Lemma enemy_played_against m card :
  let m' := enemy_played card m in
  hero_static (_player m') = hero_static (_player m)
  /\ _energy_capacity (_enemy m') = _energy_capacity (_enemy m)
  /\ _energy (_enemy m') = _energy (_enemy m) - get_cost (objects m card)
  /\ _deck (_enemy m') = _deck (_enemy m)
  /\ _hand (_enemy m') = remove card (_hand (_enemy m))
  /\ (forall id, card_static (objects m' id) = card_static (objects m id)).
Proof.
  unfold enemy_played.
  match goal with |- context [enemy_plays card ?p] =>
    destruct (enemy_plays_frame card p) as (Hp & Hcap & Hen & Hd & Hh & Hc & _) end.
  cbn [set_enemy _player _enemy _hand set_energy _energy _energy_capacity _deck
       objects] in Hp, Hcap, Hen, Hd, Hh, Hc.
  cbn zeta. repeat split; assumption.
Qed.

Lemma hands_bounded_static m m' :
  hero_static (_player m') = hero_static (_player m) ->
  hero_static (_enemy m') = hero_static (_enemy m) ->
  hands_bounded m -> hands_bounded m'.
Proof.
  unfold hero_static, hands_bounded. intros Hp He [H1 H2].
  injection Hp as _ _ _ Hp. injection He as _ _ _ He. rewrite Hp, He.
  split; assumption.
Qed.

Lemma end_turn_hands_bounded m l m' :
  hands_bounded m -> end_turn m = Some (l, m') -> hands_bounded m'.
Proof.
  apply (end_turn_invariant hands_bounded).
  - intros c t m0. destruct (use_effect_frame c t m0) as (Hp & He & _).
    apply hands_bounded_static; assumption.
  - intros m0 [H1 H2]. unfold hands_bounded, enemy_new_turn.
    pose proof (new_turn_hand_bounded (objects m0) (_enemy m0) H2) as Hb.
    destruct (new_turn (objects m0) (_enemy m0)). split; [exact H1 | exact Hb].
  - intros m0 card [H1 H2] _ _.
    destruct (enemy_played_against m0 card) as (Hp & _ & _ & _ & Hh & _).
    cbn zeta in Hp, Hh. apply (f_equal snd) in Hp. cbn [hero_static snd] in Hp.
    unfold hands_bounded. rewrite Hp, Hh. split; [exact H1 |].
    pose proof (remove_shorter card (_hand (_enemy m0))) as Hs.
    eapply Nat.le_trans; [exact Hs | exact H2].
  - intros m0 [H1 H2]. unfold hands_bounded, player_new_turn.
    pose proof (new_turn_hand_bounded (objects m0) (_player m0) H1) as Hb.
    destruct (new_turn (objects m0) (_player m0)). split; [exact Hb | exact H2].
Qed.

(** X7: from hands of at most five cards, [play_card], [discard_card] and
    [end_turn] lead to hands of at most five cards, so the count that
    [new_turn] hands to [draw_cards] is never negative in the next turn. *)
Theorem hands_stay_bounded (m : HearthModel) :
  hands_bounded m ->
  (forall card target b m',
     play_card card target m = Ok (b, m') -> hands_bounded m')
  /\ (forall card m', discard_card card m = Ok m' -> hands_bounded m')
  /\ (forall l m', end_turn m = Some (l, m') -> hands_bounded m').
Proof.
  intros Hb. split; [| split].
  - intros card target b m' Hrun. destruct b.
    + destruct (play_card_true_frame m card target m' Hrun)
        as (_ & _ & Hh & _ & _ & _ & He & _).
      destruct Hb as [H1 H2]. unfold hands_bounded.
      unfold hero_static in He. injection He as _ _ _ He. rewrite Hh, He.
      split; [| exact H2].
      eapply Nat.le_trans; [apply remove_shorter | exact H1].
    + unfold play_card in Hrun. destruct (spend_energy _ _) as [spent player].
      destruct spent.
      * destruct (contains card (get_hand player)); [| discriminate].
        destruct (is_permanent _); [destruct (5 <? _)%nat |]; discriminate.
      * injection Hrun as <-. exact Hb.
  - intros card m'. unfold discard_card.
    destruct (contains card _); [| discriminate].
    intros H. injection H as <-. destruct Hb as [H1 H2]. split; [| exact H2].
    cbn. eapply Nat.le_trans; [apply remove_shorter |].
    cbn. exact H1.
  - intros l m' Hrun. exact (end_turn_hands_bounded m l m' Hb Hrun).
Qed.

Lemma hands_stay_bounded_witness :
  hands_bounded Samples.enemy_turn
  /\ exists l m', end_turn Samples.enemy_turn = Some (l, m') /\ hands_bounded m'.
Proof.
  assert (Hb : hands_bounded Samples.enemy_turn) by (split; cbn; lia).
  split; [exact Hb |].
  destruct (end_turn_returns Samples.enemy_turn) as (l & m' & Hrun).
  exists l, m'. split; [exact Hrun |].
  destruct (hands_stay_bounded Samples.enemy_turn Hb) as (_ & _ & Hend).
  exact (Hend l m' Hrun).
Defined.

(** ** load_game: the objects it creates *)

(** Reading pieces, whatever they are: the objects created take the next
    identifiers of the heap in order, each is an object [build] returned,
    and every other cell of the heap is as before. *)
Lemma generate_from_created (build : string -> result (option Card))
    (Q : Card -> Prop) :
  (forall p c, build p = Ok (Some c) -> Q c) ->
  forall pieces h ids h',
    generate_from build pieces h = Ok (ids, h') -> created Q h ids h'.
Proof.
  intros HQ. unfold created.
  induction pieces as [| piece rest IH]; intros h ids h' Hrun.
  - cbn in Hrun. injection Hrun as <- <-. cbn.
    repeat split; [lia | constructor].
  - cbn [generate_from] in Hrun.
    destruct (build piece) as [[c |] | e] eqn:Hb; cbn [bind] in Hrun.
    + unfold alloc in Hrun.
      set (h1 := mkHeap (fun j => if Nat.eqb j (next h) then c else cells h j)
                        (S (next h))) in Hrun.
      destruct (generate_from build rest h1) as [[ids1 h2] | e] eqn:Hrest;
        cbn [bind] in Hrun; [| discriminate].
      injection Hrun as <- <-.
      destruct (IH h1 ids1 h2 Hrest) as (Hids & Hn & Hc & Hall).
      cbn [next h1] in Hids, Hn. cbn [length seq].
      split; [rewrite <- Hids; reflexivity |].
      split; [lia |].
      split.
      * intros j Hj. rewrite Hc by (cbn [next h1]; lia).
        cbn [cells h1]. destruct (Nat.eqb_spec j (next h)); [lia | reflexivity].
      * constructor; [| exact Hall].
        rewrite Hc by (left; cbn [next h1]; lia).
        cbn [cells h1]. rewrite Nat.eqb_refl. apply (HQ piece), Hb.
    + apply (IH h ids h' Hrun).
    + discriminate.
Qed.

Lemma created_nil Q h : created Q h [] h.
Proof. unfold created. cbn. repeat split; [lia | constructor]. Qed.

Lemma created_weaken (Q Q' : Card -> Prop) h ids h' :
  (forall c, Q c -> Q' c) -> created Q h ids h' -> created Q' h ids h'.
Proof.
  intros HQ (Hids & Hn & Hc & Hall). repeat split; try assumption.
  eapply Forall_impl; [| exact Hall]. intros id. apply HQ.
Qed.

(** Objects created earlier are not touched by a later creation. *)
Lemma created_later (Q Q' : Card -> Prop) h ids h1 ids' h2 :
  created Q h ids h1 -> created Q' h1 ids' h2 ->
  Forall (fun id => Q (cells h2 id)) ids.
Proof.
  intros (Hids & Hn & _ & Hall) (_ & _ & Hc & _).
  apply Forall_forall. intros id Hid.
  rewrite Forall_forall in Hall. specialize (Hall id Hid).
  rewrite Hids in Hid. apply in_seq in Hid.
  rewrite Hc by (left; lia). exact Hall.
Qed.

Lemma created_app (Q : Card -> Prop) h ids h1 ids' h2 :
  created Q h ids h1 -> created Q h1 ids' h2 -> created Q h (ids ++ ids') h2.
Proof.
  intros H1 H2. pose proof (created_later Q Q h ids h1 ids' h2 H1 H2) as Hfirst.
  destruct H1 as (Hids & Hn & Hc & _), H2 as (Hids' & Hn' & Hc' & Hall').
  unfold created. rewrite length_app. split; [| split; [| split]].
  - rewrite seq_app, <- Hids, <- Hn, <- Hids'. reflexivity.
  - lia.
  - intros j Hj. rewrite Hc' by lia. apply Hc. lia.
  - apply Forall_app. split; assumption.
Qed.

(** Whatever holds of every cell of the heap and of the objects created
    holds of every cell afterwards. *)
Lemma created_cells (Q : Card -> Prop) h ids h' :
  created Q h ids h' -> (forall j, Q (cells h j)) -> forall j, Q (cells h' j).
Proof.
  intros (Hids & Hn & Hc & Hall) Hold j.
  destruct (Nat.lt_ge_cases j (next h)) as [Hlt | Hge].
  - rewrite Hc by (left; exact Hlt). apply Hold.
  - destruct (Nat.lt_ge_cases j (next h')) as [Hlt' | Hge'].
    + rewrite Forall_forall in Hall. apply Hall.
      rewrite Hids. apply in_seq. lia.
    + rewrite Hc by (right; exact Hge'). apply Hold.
Qed.

Section Reader.

Local Open Scope string_scope.

Lemma digit_char_not_space c : is_digit_char c = true -> is_space c = false.
Proof.
  destruct c as [[] [] [] [] [] [] [] []]; intros H;
    first [reflexivity | discriminate H].
Qed.

Lemma digit_char_not_sign c :
  is_digit_char c = true -> Ascii.eqb c "-" = false /\ Ascii.eqb c "+" = false.
Proof.
  destruct c as [[] [] [] [] [] [] [] []]; intros H;
    first [split; reflexivity | discriminate H].
Qed.

Lemma digits_not_space s :
  all_chars is_digit_char s = true ->
  all_chars (fun c => negb (is_space c)) s = true.
Proof.
  apply all_chars_impl. intros c Hc. rewrite (digit_char_not_space c Hc). reflexivity.
Qed.

Lemma int_unsigned_nonneg s n : int_unsigned s = Some n -> 0 <= n.
Proof.
  unfold int_unsigned. destruct (drop_underscores s false); [| discriminate].
  destruct (NilEmpty.uint_of_string _); [| discriminate].
  cbn. intros H. injection H as <-. unfold Z.of_uint. apply N2Z.is_nonneg.
Qed.

(** [int] of a string that [isdigit] accepts is not negative when it does
    not raise. *)
Lemma int_isdigit_nonneg s n : isdigit s = true -> int s = Some n -> 0 <= n.
Proof.
  destruct s as [| c r]; [discriminate |].
  cbn [isdigit]. intros Hdig.
  unfold int. rewrite (int_trim_id _ (digits_not_space _ Hdig)).
  cbn [all_chars] in Hdig. apply andb_true_iff in Hdig. destruct Hdig as [Hc _].
  destruct (digit_char_not_sign c Hc) as [-> ->].
  apply int_unsigned_nonneg.
Qed.

Lemma genuine_Fireball n : 0 <= n -> genuine (Fireball n) = true.
Proof.
  intros Hn. unfold genuine, catalog_card. cbn.
  apply Z.leb_le in Hn. rewrite Hn, String.eqb_refl. reflexivity.
Qed.

Lemma card_of_symbol_new p c : card_of_symbol p = Ok (Some c) -> new_card c.
Proof.
  unfold card_of_symbol, new_card.
  repeat match goal with
         | |- (if ?b then _ else _) = _ -> _ => destruct b eqn:?
         end;
    try (intros H; injection H as <-; split; reflexivity);
    try discriminate.
  destruct (int p) as [n |] eqn:Hint; cbn; [| discriminate].
  intros H. injection H as <-. split; [reflexivity |].
  apply genuine_Fireball. eapply int_isdigit_nonneg; eassumption.
Qed.

Lemma minion_of_piece_new p c : minion_of_piece p = Ok (Some c) -> new_minion c.
Proof.
  unfold minion_of_piece, new_minion.
  destruct (split "," p) as [| a [| b [| d [| ? ?]]]]; try discriminate.
  repeat match goal with
         | |- (if ?b then _ else _) = _ -> _ => destruct b eqn:?
         end;
    try discriminate;
    (destruct (int b) as [x |]; cbn; [| discriminate];
     destruct (int d) as [y |]; cbn; [| discriminate];
     intros H; injection H as <-; reflexivity).
Qed.

Lemma new_minion_genuine c :
  new_minion c -> genuine c = true /\ minion_class (cls c) = true.
Proof.
  unfold new_minion, reread_minion. intros ->.
  destruct (cls c); split; reflexivity.
Qed.

Lemma generate_hero_created hero h self h' :
  _generate_hero hero h = Ok (self, h') ->
  created new_card h (_cards (_deck self) ++ _hand self) h'
  /\ _energy self = _energy_capacity self.
Proof.
  unfold _generate_hero.
  destruct (split ";" hero) as [| a [| b [| d [| ? ?]]]]; try discriminate.
  destruct (split "," a) as [| x [| y [| z [| ? ?]]]]; try discriminate.
  unfold _generate_cards.
  destruct (generate_from card_of_symbol (split "," b) h) as [[deck h1] | e] eqn:H1;
    cbn [bind]; [| discriminate].
  destruct (generate_from card_of_symbol (split "," d) h1) as [[hand h2] | e] eqn:H2;
    cbn [bind]; [| discriminate].
  destruct (int x); cbn; [| discriminate].
  destruct (int y); cbn; [| discriminate].
  destruct (int z); cbn; [| discriminate].
  intros H. injection H as <- <-. cbn. split; [| reflexivity].
  eapply created_app; eapply generate_from_created; eauto using card_of_symbol_new.
Qed.

Lemma generate_minions_created minions h ids h' :
  _generate_minions minions h = Ok (ids, h') -> created new_minion h ids h'.
Proof.
  unfold _generate_minions. destruct (String.eqb _ _).
  - intros H. injection H as <- <-. apply created_nil.
  - apply generate_from_created, minion_of_piece_new.
Qed.

End Reader.

(** The four readers of [load_game] in a row. *)
Lemma load_game_created s m :
  load_game s = Ok m ->
  exists h1 h2 h3 h4,
    created new_card empty_heap (_cards (_deck (_player m)) ++ _hand (_player m)) h1
    /\ created new_minion h1 (_active_player_minions m) h2
    /\ created new_card h2 (_cards (_deck (_enemy m)) ++ _hand (_enemy m)) h3
    /\ created new_minion h3 (_active_enemy_minions m) h4
    /\ objects m = cells h4
    /\ _energy (_player m) = _energy_capacity (_player m)
    /\ _energy (_enemy m) = _energy_capacity (_enemy m).
Proof.
  unfold load_game.
  destruct (split "|" s) as [| a [| b [| c [| d rest]]]]; try discriminate.
  destruct (_generate_hero a empty_heap) as [[player h1] | e] eqn:H1;
    cbn [bind]; [| discriminate].
  destruct (_generate_minions b h1) as [[player_minions h2] | e] eqn:H2;
    cbn [bind]; [| discriminate].
  destruct (_generate_hero c h2) as [[enemy h3] | e] eqn:H3;
    cbn [bind]; [| discriminate].
  destruct (_generate_minions d h3) as [[enemy_minions h4] | e] eqn:H4;
    cbn [bind]; [| discriminate].
  intros H. injection H as <-.
  cbn [_player _enemy _active_player_minions _active_enemy_minions objects].
  destruct (generate_hero_created a empty_heap player h1 H1) as [C1 E1].
  destruct (generate_hero_created c h2 enemy h3 H3) as [C3 E3].
  pose proof (generate_minions_created b h1 player_minions h2 H2) as C2.
  pose proof (generate_minions_created d h3 enemy_minions h4 H4) as C4.
  exists h1, h2, h3, h4.
  split; [exact C1 | split; [exact C2 | split; [exact C3 | split; [exact C4 |]]]].
  split; [reflexivity | split; [exact E1 | exact E3]].
Qed.

Lemma new_card_genuine c : new_card c -> genuine c = true.
Proof. intros [_ H]. exact H. Qed.

Lemma new_minion_genuine' c : new_minion c -> genuine c = true.
Proof. intros H. apply new_minion_genuine, H. Qed.

(** X8: the state [load_game] returns is made of objects created for it,
    one for each card and minion read, in the order of the line: no object
    stands in two places.  The cards of the hands and decks are as their
    constructors build them (a Fireball with a count of turns that is not
    negative, a minion with 1 health and no shield), the minions of the
    rosters are as the constructor of their class builds them from the
    health and shield read, and each hero starts with its capacity as
    energy.  Every object of the store is genuine and the rosters hold
    minions. *)
Theorem load_game_creates_objects (s : string) (m : HearthModel) :
  load_game s = Ok m ->
  let player_cards := _cards (_deck (_player m)) ++ _hand (_player m) in
  let enemy_cards := _cards (_deck (_enemy m)) ++ _hand (_enemy m) in
  well_formed m
  /\ (exists n,
        player_cards ++ _active_player_minions m
        ++ enemy_cards ++ _active_enemy_minions m = seq 0 n)
  /\ Forall (fun id => new_card (objects m id)) (player_cards ++ enemy_cards)
  /\ Forall (fun id => new_minion (objects m id))
            (_active_player_minions m ++ _active_enemy_minions m)
  /\ _energy (_player m) = _energy_capacity (_player m)
  /\ _energy (_enemy m) = _energy_capacity (_enemy m).
Proof.
  intros Hload. cbn zeta.
  destruct (load_game_created s m Hload)
    as (h1 & h2 & h3 & h4 & C1 & C2 & C3 & C4 & Hobj & E1 & E2).
  unfold well_formed. rewrite Hobj.
  set (G := fun c => genuine c = true).
  pose proof (created_weaken _ G _ _ _ new_card_genuine C1) as G1.
  pose proof (created_weaken _ G _ _ _ new_minion_genuine' C2) as G2.
  pose proof (created_weaken _ G _ _ _ new_card_genuine C3) as G3.
  pose proof (created_weaken _ G _ _ _ new_minion_genuine' C4) as G4.
  pose proof (created_app G _ _ _ _ _ G3 G4) as G34.
  pose proof (created_app G _ _ _ _ _ G2 G34) as G234.
  pose proof (created_app G _ _ _ _ _ G1 G234) as Gall.
  (* the minions of the player's roster, then the enemy's cards, in [h4] *)
  pose proof (created_later _ _ _ _ _ _ _ C2 G34) as M2.
  pose proof (created_later _ _ _ _ _ _ _ C1 G234) as K1.
  pose proof (created_later _ _ _ _ _ _ _ C3 C4) as K3.
  destruct C4 as (_ & _ & _ & M4).
  assert (Hminion : forall l, Forall (fun id => new_minion (cells h4 id)) l ->
            Forall (fun id => minion_class (cls (cells h4 id)) = true) l).
  { intros l. apply Forall_impl. intros id H. apply new_minion_genuine, H. }
  split; [| split; [| split; [| split; [| split]]]].
  - split; [| split].
    + apply (created_cells G _ _ _ Gall). intros j. reflexivity.
    + apply Hminion, M2.
    + apply Hminion, M4.
  - eexists. destruct Gall as (Hids & _). exact Hids.
  - apply Forall_app. split; assumption.
  - apply Forall_app. split; assumption.
  - exact E1.
  - exact E2.
Qed.

Lemma load_game_creates_objects_witness :
  exists m,
    load_game "10,0,1;S,H;3|R,2,0|7,5,2;H,M;W,0|M,1,1;W,3,0"%string = Ok m
    /\ well_formed m
    /\ _energy (_enemy m) = 2.
Proof.
  eexists. split; [vm_compute; reflexivity |].
  match goal with |- well_formed ?m /\ _ =>
    destruct (load_game_creates_objects
                "10,0,1;S,H;3|R,2,0|7,5,2;H,M;W,0|M,1,1;W,3,0"%string m eq_refl)
      as (Hwf & _)
  end.
  split; [exact Hwf | reflexivity].
Defined.

(** ** Genuine objects stay genuine *)

Lemma genuine_static c c' :
  card_static c' = card_static c -> genuine c' = genuine c.
Proof.
  unfold card_static. intros H. injection H as Hcls Hname Hsym Hcost Hperm Hturns.
  unfold genuine, catalog_card. rewrite Hcls, Hname, Hsym, Hcost, Hperm, Hturns.
  reflexivity.
Qed.

Lemma genuine_parts c :
  genuine c = true ->
  catalog_card c = true
  /\ _name c = type_name (cls c)
  /\ _is_permanent c = minion_class (cls c)
  /\ _cost c = class_cost (cls c).
Proof.
  unfold genuine. intros H.
  apply andb_true_iff in H. destruct H as [H Hcost].
  apply andb_true_iff in H. destruct H as [H Hperm].
  apply andb_true_iff in H. destruct H as [Hcat Hname].
  repeat split.
  - exact Hcat.
  - apply String.eqb_eq, Hname.
  - apply eqb_prop, Hperm.
  - apply Z.eqb_eq, Hcost.
Qed.

Lemma genuine_cost c : genuine c = true -> 1 <= get_cost c <= 3.
Proof.
  intros H. destruct (genuine_parts c H) as (_ & _ & _ & Hcost).
  unfold get_cost. rewrite Hcost. destruct (cls c); cbn; lia.
Qed.

(** Only a Fireball is named [FIREBALL_NAME]; one more turn in the hand
    keeps it genuine. *)
Lemma genuine_increment_turn c :
  genuine c = true -> get_name c = FIREBALL_NAME ->
  genuine (increment_turn c) = true /\ cls (increment_turn c) = cls c.
Proof.
  intros Hg Hname. split; [| reflexivity].
  destruct (genuine_parts c Hg) as (Hcat & Hn & Hperm & Hcost).
  unfold get_name in Hname. rewrite Hn in Hname.
  unfold genuine, catalog_card, increment_turn in *. cbn [cls _symbol _turns_in_hand
    _name _is_permanent _cost].
  destruct (cls c); try discriminate Hname.
  apply andb_true_iff in Hcat. destruct Hcat as [Ht _]. apply Z.leb_le in Ht.
  rewrite Hn, Hperm, Hcost, String.eqb_refl. cbn.
  assert (Ht' : (0 <=? _turns_in_hand c + 1) = true) by (apply Z.leb_le; lia).
  rewrite Ht'. reflexivity.
Qed.

Lemma genuine_iter_increment_turn n : forall c,
  genuine c = true -> get_name c = FIREBALL_NAME ->
  genuine (Nat.iter n increment_turn c) = true
  /\ cls (Nat.iter n increment_turn c) = cls c.
Proof.
  induction n as [| n IH]; intros c Hg Hname; [split; [exact Hg | reflexivity] |].
  rewrite Nat.iter_succ_r.
  destruct (genuine_increment_turn c Hg Hname) as [Hg' Hcls].
  destruct (IH (increment_turn c) Hg' Hname) as [H1 H2].
  split; [exact H1 | rewrite H2; exact Hcls].
Qed.

Lemma age_fireballs_genuine objs hand :
  (forall id, genuine (objs id) = true) ->
  forall id, genuine (age_fireballs objs hand id) = true
             /\ cls (age_fireballs objs hand id) = cls (objs id).
Proof.
  intros Hg id. rewrite age_fireballs_count.
  destruct (String.eqb (get_name (objs id)) FIREBALL_NAME) eqn:Hname.
  - apply genuine_iter_increment_turn; [apply Hg | apply String.eqb_eq, Hname].
  - split; [apply Hg | reflexivity].
Qed.

(** A state whose objects are genuine and keep their classes, and whose
    rosters gained nothing but minions, is well formed. *)
Lemma well_formed_from m m' :
  well_formed m ->
  (forall id, genuine (objects m' id) = true /\ cls (objects m' id) = cls (objects m id)) ->
  (forall id, In id (_active_player_minions m') ->
     In id (_active_player_minions m) \/ minion_class (cls (objects m id)) = true) ->
  (forall id, In id (_active_enemy_minions m') ->
     In id (_active_enemy_minions m) \/ minion_class (cls (objects m id)) = true) ->
  well_formed m'.
Proof.
  intros (Hg & Hp & He) Hobj Hpl Hen. rewrite Forall_forall in Hp, He.
  split; [intros id; apply Hobj | split]; apply Forall_forall; intros id Hid;
    destruct (Hobj id) as [_ ->].
  - destruct (Hpl id Hid) as [Hin | Hm]; [apply Hp, Hin | exact Hm].
  - destruct (Hen id Hid) as [Hin | Hm]; [apply He, Hin | exact Hm].
Qed.

Lemma well_formed_static m m' :
  well_formed m ->
  (forall id, card_static (objects m' id) = card_static (objects m id)) ->
  (forall id, In id (_active_player_minions m') ->
     In id (_active_player_minions m) \/ minion_class (cls (objects m id)) = true) ->
  (forall id, In id (_active_enemy_minions m') ->
     In id (_active_enemy_minions m) \/ minion_class (cls (objects m id)) = true) ->
  well_formed m'.
Proof.
  intros Hwf Hc. apply well_formed_from; [exact Hwf |].
  intros id. split.
  - rewrite (genuine_static _ _ (Hc id)). apply Hwf.
  - specialize (Hc id). unfold card_static in Hc. injection Hc as H _ _ _ _ _. exact H.
Qed.

Lemma place_minion_in card roster id :
  In id (place_minion card roster) -> In id roster \/ id = card.
Proof.
  unfold place_minion. intros H. apply in_app_or in H. destruct H as [H | [H | []]].
  - left. destruct (Nat.eqb _ _); [| exact H].
    destruct roster; [exact H | right; exact H].
  - right. symmetry. exact H.
Qed.

Lemma use_effect_well_formed c t m : well_formed m -> well_formed (_use_effect c t m).
Proof.
  intros Hwf. destruct (use_effect_frame c t m) as (_ & _ & Hc).
  destruct (use_effect_rosters c t m) as [HP HE]. cbn zeta in HP, HE.
  apply (well_formed_static m); [exact Hwf | exact Hc | |];
    intros id Hid; left; [rewrite HP in Hid | rewrite HE in Hid];
    apply filter_In in Hid; apply Hid.
Qed.

Lemma enemy_new_turn_well_formed m : well_formed m -> well_formed (enemy_new_turn m).
Proof.
  intros Hwf. destruct (enemy_new_turn_frame m) as (_ & HP & HE).
  apply (well_formed_from m); [exact Hwf | | |].
  - unfold enemy_new_turn, new_turn. destruct (draw_cards _ _). cbn [objects set_enemy set_objects].
    apply age_fireballs_genuine, Hwf.
  - intros id Hid. left. rewrite <- HP. exact Hid.
  - intros id Hid. left. rewrite <- HE. exact Hid.
Qed.

Lemma player_new_turn_well_formed m : well_formed m -> well_formed (player_new_turn m).
Proof.
  intros Hwf. destruct (player_new_turn_frame m) as (_ & HP & HE).
  apply (well_formed_from m); [exact Hwf | | |].
  - unfold player_new_turn, new_turn. destruct (draw_cards _ _). cbn [objects set_player set_objects].
    apply age_fireballs_genuine, Hwf.
  - intros id Hid. left. rewrite <- HP. exact Hid.
  - intros id Hid. left. rewrite <- HE. exact Hid.
Qed.

(** The rosters after the enemy played a card: nothing new but the card,
    when it is permanent. *)
Lemma enemy_plays_rosters card m :
  let m' := enemy_plays card m in
  (forall id, In id (_active_player_minions m') -> In id (_active_player_minions m))
  /\ (forall id, In id (_active_enemy_minions m') ->
        In id (_active_enemy_minions m)
        \/ (id = card /\ is_permanent (objects m card) = true)).
Proof.
  unfold enemy_plays. destruct (is_permanent (objects m card)) eqn:Hperm.
  - cbn. split; [intros id H; exact H |].
    intros id H. apply place_minion_in in H. destruct H as [H | H]; [left | right]; auto.
  - assert (Hgoal : forall t,
      let m1 := _use_effect card t (store card (get_effect (objects m card)) m) in
      let m' := set_enemy (set_hand (remove card (get_hand (_enemy m1))) (_enemy m1)) m1 in
      (forall id, In id (_active_player_minions m') -> In id (_active_player_minions m))
      /\ (forall id, In id (_active_enemy_minions m') ->
            In id (_active_enemy_minions m) \/ (id = card /\ false = true))).
    { intros t. cbn zeta.
      destruct (use_effect_rosters card t (store card (get_effect (objects m card)) m))
        as [HP HE]. cbn zeta in HP, HE.
      cbn [_active_player_minions _active_enemy_minions set_enemy].
      rewrite HP, HE. cbn [_active_player_minions _active_enemy_minions store set_objects].
      split; intros id Hid; apply filter_In in Hid; [| left]; apply Hid. }
    destruct (DAMAGE (_effect (get_effect (objects m card)))); apply Hgoal.
Qed.

Lemma enemy_played_well_formed m card :
  well_formed m -> well_formed (enemy_played card m).
Proof.
  intros Hwf.
  destruct (enemy_played_against m card) as (_ & _ & _ & _ & _ & Hc). cbn zeta in Hc.
  unfold enemy_played in *.
  match goal with |- context [enemy_plays card ?p] =>
    destruct (enemy_plays_rosters card p) as [HP HE] end.
  cbn zeta in HP, HE.
  cbn [_active_player_minions _active_enemy_minions set_enemy objects] in HP, HE.
  apply (well_formed_static m); [exact Hwf | exact Hc | |].
  - intros id Hid. left. apply HP, Hid.
  - intros id Hid. destruct (HE id Hid) as [Hin | [-> Hperm]]; [left; exact Hin | right].
    destruct (genuine_parts _ (proj1 Hwf card)) as (_ & _ & Hp & _).
    unfold is_permanent in Hperm. rewrite <- Hp. exact Hperm.
Qed.

Lemma end_turn_well_formed m l m' :
  well_formed m -> end_turn m = Some (l, m') -> well_formed m'.
Proof.
  apply (end_turn_invariant well_formed).
  - intros c t m0. apply use_effect_well_formed.
  - apply enemy_new_turn_well_formed.
  - intros m0 card H _ _. apply enemy_played_well_formed, H.
  - apply player_new_turn_well_formed.
Qed.

Lemma play_card_well_formed m card target b m' :
  well_formed m -> play_card card target m = Ok (b, m') -> well_formed m'.
Proof.
  intros Hwf Hrun. destruct b.
  - destruct (play_card_true m card target m' Hrun) as (_ & _ & Hperm & Hnot).
    cbn zeta in Hperm, Hnot.
    destruct (is_permanent (objects m card)) eqn:Hp.
    + rewrite (Hperm eq_refl).
      apply (well_formed_static m); [exact Hwf | reflexivity | |]; cbn.
      * intros id Hid. apply place_minion_in in Hid.
        destruct Hid as [Hin | ->]; [left; exact Hin | right].
        destruct (genuine_parts _ (proj1 Hwf card)) as (_ & _ & Hp' & _).
        unfold is_permanent in Hp. rewrite <- Hp'. exact Hp.
      * intros id Hid. left. exact Hid.
    + rewrite (Hnot eq_refl). apply use_effect_well_formed.
      destruct Hwf as (Hg & HP & HE). split; [exact Hg | split; assumption].
  - unfold play_card in Hrun. destruct (spend_energy _ _) as [spent player].
    destruct spent.
    + destruct (contains card (get_hand player)); [| discriminate].
      destruct (is_permanent _); [destruct (5 <? _)%nat |]; discriminate.
    + injection Hrun as <-. exact Hwf.
Qed.

Lemma discard_card_well_formed m card m' :
  well_formed m -> discard_card card m = Ok m' -> well_formed m'.
Proof.
  unfold discard_card. destruct (contains card _); [| discriminate].
  intros Hwf H. injection H as <-.
  destruct Hwf as (Hg & HP & HE). split; [exact Hg | split; assumption].
Qed.

Lemma well_formed_catalog m : well_formed m -> catalog_state m = true.
Proof.
  intros (Hg & HP & HE).
  assert (Hcard : forall l, forallb (fun id => catalog_card (objects m id)) l = true).
  { intros l. apply forallb_forall. intros id _.
    apply (genuine_parts _ (Hg id)). }
  assert (Hminion : forall l,
            Forall (fun id => minion_class (cls (objects m id)) = true) l ->
            forallb (fun id => catalog_minion (objects m id)) l = true).
  { intros l Hl. apply forallb_forall. intros id Hid.
    rewrite Forall_forall in Hl. specialize (Hl id Hid).
    pose proof (proj1 (genuine_parts _ (Hg id))) as Hcat.
    unfold catalog_minion. destruct (cls (objects m id)); first [exact Hcat | discriminate Hl]. }
  unfold catalog_state, catalog_hero.
  rewrite !Hcard, (Hminion _ HP), (Hminion _ HE). reflexivity.
Qed.

(** X9: a well-formed state (genuine objects, minions in the rosters) stays
    well formed through [play_card], [discard_card] and [end_turn], and its
    snapshot is one the reader accepts: every card of its hands and decks
    and every minion of its rosters is of the catalog. *)
Theorem well_formed_is_kept (m : HearthModel) :
  well_formed m ->
  (forall card target b m',
     play_card card target m = Ok (b, m') -> well_formed m')
  /\ (forall card m', discard_card card m = Ok m' -> well_formed m')
  /\ (forall l m', end_turn m = Some (l, m') -> well_formed m')
  /\ catalog_state m = true.
Proof.
  intros Hwf. split; [| split; [| split]].
  - intros card target b m'. apply play_card_well_formed, Hwf.
  - intros card m'. apply discard_card_well_formed, Hwf.
  - intros l m'. apply end_turn_well_formed, Hwf.
  - apply well_formed_catalog, Hwf.
Qed.

Lemma well_formed_is_kept_witness :
  well_formed Samples.enemy_turn /\ catalog_state Samples.enemy_turn = true.
Proof.
  assert (Hwf : well_formed Samples.enemy_turn).
  { split; [| split].
    - intros id. do 9 (destruct id as [| id]; [reflexivity |]).
      destruct id; reflexivity.
    - repeat constructor.
    - constructor. }
  split; [exact Hwf |].
  destruct (well_formed_is_kept Samples.enemy_turn Hwf) as (_ & _ & _ & Hcat).
  exact Hcat.
Defined.

(** ** Energy stays between zero and the capacity *)

Lemma cost_iter_increment_turn n c :
  get_cost (Nat.iter n increment_turn c) = get_cost c.
Proof.
  induction n as [| n IH]; [reflexivity |].
  rewrite Nat.iter_succ. exact IH.
Qed.

Lemma age_fireballs_cost objs hand id :
  get_cost (age_fireballs objs hand id) = get_cost (objs id).
Proof.
  rewrite age_fireballs_count. destruct (String.eqb _ _); [| reflexivity].
  apply cost_iter_increment_turn.
Qed.

Lemma static_cost c c' : card_static c' = card_static c -> get_cost c' = get_cost c.
Proof. unfold card_static. intros H. injection H as _ _ _ H _ _. exact H. Qed.

Lemma hero_static_parts h h' :
  hero_static h' = hero_static h ->
  _energy_capacity h' = _energy_capacity h /\ _energy h' = _energy h
  /\ _deck h' = _deck h /\ _hand h' = _hand h.
Proof. unfold hero_static. intros H. injection H as H1 H2 H3 H4. auto. Qed.

Lemma new_turn_energy objs self :
  energy_bounded self -> energy_bounded (snd (new_turn objs self)).
Proof.
  unfold energy_bounded. intros H.
  destruct (new_turn_hand objs self) as (_ & _ & _ & Hcap & Hen).
  rewrite Hcap, Hen. lia.
Qed.

Lemma use_effect_energies c t m :
  energies_bounded m -> energies_bounded (_use_effect c t m).
Proof.
  intros (Hcost & Hp & He).
  destruct (use_effect_frame c t m) as (Sp & Se & Sc).
  destruct (hero_static_parts _ _ Sp) as (Pcap & Pen & _).
  destruct (hero_static_parts _ _ Se) as (Ecap & Een & _).
  unfold energies_bounded, energy_bounded, costs_not_negative in *.
  rewrite Pcap, Pen, Ecap, Een.
  split; [| split; assumption].
  intros id. rewrite (static_cost _ _ (Sc id)). apply Hcost.
Qed.

Lemma enemy_new_turn_energies m :
  energies_bounded m -> energies_bounded (enemy_new_turn m).
Proof.
  intros (Hcost & Hp & He). pose proof (new_turn_energy (objects m) (_enemy m) He) as Hn.
  unfold energies_bounded, costs_not_negative, enemy_new_turn, new_turn in *.
  destruct (draw_cards _ _). cbn in *.
  split; [| split; assumption].
  intros id. rewrite age_fireballs_cost. apply Hcost.
Qed.

Lemma player_new_turn_energies m :
  energies_bounded m -> energies_bounded (player_new_turn m).
Proof.
  intros (Hcost & Hp & He). pose proof (new_turn_energy (objects m) (_player m) Hp) as Hn.
  unfold energies_bounded, costs_not_negative, player_new_turn, new_turn in *.
  destruct (draw_cards _ _). cbn in *.
  split; [| split; assumption].
  intros id. rewrite age_fireballs_cost. apply Hcost.
Qed.

Lemma enemy_played_energies m card :
  energies_bounded m -> affordable m card = true ->
  energies_bounded (enemy_played card m).
Proof.
  intros (Hcost & Hp & He) Haff.
  destruct (enemy_played_against m card) as (Sp & Ecap & Een & _ & _ & Sc).
  cbn zeta in Sp, Ecap, Een, Sc.
  destruct (hero_static_parts _ _ Sp) as (Pcap & Pen & _).
  unfold affordable, get_energy in Haff. apply Z.leb_le in Haff.
  unfold energies_bounded, energy_bounded, costs_not_negative in *.
  rewrite Pcap, Pen, Ecap, Een.
  split; [| split; [assumption |]].
  - intros id. rewrite (static_cost _ _ (Sc id)). apply Hcost.
  - specialize (Hcost card). lia.
Qed.

Lemma end_turn_energies m l m' :
  energies_bounded m -> end_turn m = Some (l, m') -> energies_bounded m'.
Proof.
  apply (end_turn_invariant energies_bounded).
  - intros c t m0. apply use_effect_energies.
  - apply enemy_new_turn_energies.
  - intros m0 card H _ Haff. apply enemy_played_energies; assumption.
  - apply player_new_turn_energies.
Qed.

(** When the turn runs to its end, the player's energy is its capacity. *)
Lemma end_turn_refills_player m l m' :
  end_turn m = Some (l, m') -> Hero_is_alive (_enemy m') = true ->
  _energy (_player m') = _energy_capacity (_player m').
Proof.
  unfold end_turn.
  destruct (negb (Hero_is_alive (_enemy (enemy_new_turn (player_minions_act m)))))
    eqn:Hdead.
  - intros H. injection H as _ <-. intros Halive. rewrite Halive in Hdead.
    discriminate Hdead.
  - destruct (enemy_play_loop _ _ _) as [[played m3] |]; [| discriminate].
    intros H. injection H as _ <-. intros _.
    unfold player_new_turn, new_turn. destruct (draw_cards _ _). reflexivity.
Qed.

(** X10: when no object has a negative cost and each hero's energy lies
    between zero and its capacity, this is so again after [play_card],
    [discard_card] and [end_turn]; a card played by [play_card] lowers the
    player's energy by its cost, and after an [end_turn] that leaves the
    enemy alive the player's energy is its capacity. *)
Theorem energy_stays_bounded (m : HearthModel) :
  energies_bounded m ->
  (forall card target b m',
     play_card card target m = Ok (b, m') ->
     energies_bounded m'
     /\ _energy (_player m')
        = _energy (_player m) - (if b then get_cost (objects m card) else 0))
  /\ (forall card m', discard_card card m = Ok m' -> energies_bounded m')
  /\ (forall l m', end_turn m = Some (l, m') ->
        energies_bounded m'
        /\ (Hero_is_alive (_enemy m') = true ->
            _energy (_player m') = _energy_capacity (_player m'))).
Proof.
  intros Hb. split; [| split].
  - intros card target b m' Hrun. destruct b.
    + destruct (play_card_true_frame m card target m' Hrun)
        as (_ & Hle & _ & Hen & Hcap & _ & Se & Sc & _).
      destruct Hb as (Hcost & Hp & He).
      destruct (hero_static_parts _ _ Se) as (Ecap & Een & _).
      split; [| exact Hen].
      unfold energies_bounded, energy_bounded, costs_not_negative in *.
      rewrite Hen, Hcap, Ecap, Een.
      split; [| split; [| assumption]].
      * intros id. rewrite (static_cost _ _ (Sc id)). apply Hcost.
      * specialize (Hcost card). lia.
    + unfold play_card in Hrun. destruct (spend_energy _ _) as [spent player].
      destruct spent.
      * destruct (contains card (get_hand player)); [| discriminate].
        destruct (is_permanent _); [destruct (5 <? _)%nat |]; discriminate.
      * injection Hrun as <-. split; [exact Hb | lia].
  - intros card m'. unfold discard_card.
    destruct (contains card _); [| discriminate].
    intros H. injection H as <-. exact Hb.
  - intros l m' Hrun. split.
    + exact (end_turn_energies m l m' Hb Hrun).
    + exact (end_turn_refills_player m l m' Hrun).
Qed.

Lemma energy_stays_bounded_witness :
  energies_bounded Samples.enemy_turn
  /\ exists l m', end_turn Samples.enemy_turn = Some (l, m') /\ energies_bounded m'.
Proof.
  assert (Hb : energies_bounded Samples.enemy_turn).
  { split; [| split; unfold energy_bounded; cbn; lia].
    intros id. do 9 (destruct id as [| id]; [cbn; lia |]).
    destruct id; cbn; lia. }
  split; [exact Hb |].
  destruct (end_turn_returns Samples.enemy_turn) as (l & m' & Hrun).
  exists l, m'. split; [exact Hrun |].
  destruct (energy_stays_bounded Samples.enemy_turn Hb) as (_ & _ & Hend).
  apply (Hend l m' Hrun).
Defined.

(** ** load_game: how it fails *)

Section ReaderErrors.

Local Open Scope string_scope.

Lemma of_option_raises {A} (o : option A) e :
  of_option ValueError o = Raise e -> e = ValueError.
Proof. destruct o; cbn; intros H; [discriminate | injection H as <-; reflexivity]. Qed.

Lemma generate_from_raises (build : string -> result (option Card)) :
  (forall p e, build p = Raise e -> e = ValueError) ->
  forall pieces h e, generate_from build pieces h = Raise e -> e = ValueError.
Proof.
  intros Hb. induction pieces as [| piece rest IH]; intros h e; cbn [generate_from];
    [discriminate |].
  destruct (build piece) as [[c |] | e'] eqn:Hp; cbn [bind].
  - destruct (alloc c h) as [id h1].
    destruct (generate_from build rest h1) as [[ids h2] | e''] eqn:Hr; cbn [bind];
      [discriminate |].
    intros H. injection H as <-. apply (IH h1 e'' Hr).
  - apply IH.
  - intros H. injection H as <-. apply (Hb piece e' Hp).
Qed.

Lemma card_of_symbol_raises p e : card_of_symbol p = Raise e -> e = ValueError.
Proof.
  unfold card_of_symbol.
  repeat match goal with
         | |- (if ?b then _ else _) = _ -> _ => destruct b
         end; try discriminate.
  destruct (int p); cbn; intros H; [discriminate | injection H as <-; reflexivity].
Qed.

Lemma minion_of_piece_raises p e : minion_of_piece p = Raise e -> e = ValueError.
Proof.
  unfold minion_of_piece.
  assert (Hbuild : forall (a b : string) (make : Z -> Z -> Card),
            bind (of_option ValueError (int a)) (fun health =>
            bind (of_option ValueError (int b)) (fun shield =>
            Ok (Some (make health shield)))) = Raise e -> e = ValueError).
  { intros a b make. destruct (int a); cbn; [| intros H; injection H as <-; reflexivity].
    destruct (int b); cbn; intros H; [discriminate | injection H as <-; reflexivity]. }
  destruct (split "," p) as [| a [| b [| d [| ? ?]]]];
    try (intros H; injection H as <-; reflexivity).
  repeat match goal with
         | |- (if ?b then _ else _) = _ -> _ => destruct b
         end; try discriminate; apply Hbuild.
Qed.

Lemma generate_hero_raises hero h e : _generate_hero hero h = Raise e -> e = ValueError.
Proof.
  unfold _generate_hero, _generate_cards.
  destruct (split ";" hero) as [| a [| b [| d [| ? ?]]]];
    try (intros H; injection H as <-; reflexivity).
  destruct (split "," a) as [| x [| y [| z [| ? ?]]]];
    try (intros H; injection H as <-; reflexivity).
  destruct (generate_from card_of_symbol (split "," b) h) as [[deck h1] | e1] eqn:H1;
    cbn [bind].
  - destruct (generate_from card_of_symbol (split "," d) h1) as [[hand h2] | e2] eqn:H2;
      cbn [bind].
    + destruct (int x); cbn; [| intros H; injection H as <-; reflexivity].
      destruct (int y); cbn; [| intros H; injection H as <-; reflexivity].
      destruct (int z); cbn; [discriminate | intros H; injection H as <-; reflexivity].
    + intros H. injection H as <-.
      apply (generate_from_raises card_of_symbol card_of_symbol_raises _ _ _ H2).
  - intros H. injection H as <-.
    apply (generate_from_raises card_of_symbol card_of_symbol_raises _ _ _ H1).
Qed.

Lemma generate_minions_raises minions h e :
  _generate_minions minions h = Raise e -> e = ValueError.
Proof.
  unfold _generate_minions. destruct (String.eqb _ _); [discriminate |].
  apply generate_from_raises, minion_of_piece_raises.
Qed.

(** With four fields or more, [load_game] reads the first four and can
    only fail with [ValueError]. *)
Lemma load_game_four_fields a b c d rest s :
  split "|" s = a :: b :: c :: d :: rest ->
  load_game s
  = bind (_generate_hero a empty_heap) (fun '(player, h1) =>
    bind (_generate_minions b h1) (fun '(player_minions, h2) =>
    bind (_generate_hero c h2) (fun '(enemy, h3) =>
    bind (_generate_minions d h3) (fun '(enemy_minions, h4) =>
    Ok (mkHearthModel (cells h4) player player_minions enemy enemy_minions)))))
  /\ forall e, load_game s = Raise e -> e = ValueError.
Proof.
  intros Hs. unfold load_game. rewrite Hs. split; [reflexivity |].
  intros e.
  destruct (_generate_hero a empty_heap) as [[player h1] | e1] eqn:H1; cbn [bind];
    [| intros H; injection H as <-; apply (generate_hero_raises _ _ _ H1)].
  destruct (_generate_minions b h1) as [[pm h2] | e2] eqn:H2; cbn [bind];
    [| intros H; injection H as <-; apply (generate_minions_raises _ _ _ H2)].
  destruct (_generate_hero c h2) as [[enemy h3] | e3] eqn:H3; cbn [bind];
    [| intros H; injection H as <-; apply (generate_hero_raises _ _ _ H3)].
  destruct (_generate_minions d h3) as [[em h4] | e4] eqn:H4; cbn [bind];
    [discriminate | intros H; injection H as <-; apply (generate_minions_raises _ _ _ H4)].
Qed.

Lemma split_pieces_app sep a b :
  split_pieces sep (a ++ String sep b)
  = (fst (split_pieces sep a), (snd (split_pieces sep a) ++ split sep b)%list).
Proof.
  induction a as [| x a IH]; cbn [append split_pieces].
  - rewrite Ascii.eqb_refl. unfold split. destruct (split_pieces sep b). reflexivity.
  - rewrite IH. destruct (split_pieces sep a) as [piece pieces]. cbn [fst snd].
    destruct (Ascii.eqb x sep); reflexivity.
Qed.

(** [split] of two texts joined by the separator: the pieces of the first,
    then the pieces of the second. *)
Lemma split_app_any sep a b :
  split sep (a ++ String sep b) = (split sep a ++ split sep b)%list.
Proof.
  unfold split at 1 2. rewrite split_pieces_app.
  destruct (split_pieces sep a). reflexivity.
Qed.

End ReaderErrors.

(** X11: [load_game] raises [IndexError] exactly when the line has fewer
    than four fields between [|]; on a line of four fields or more it can
    only raise [ValueError], so it never raises [TypeError]; and the
    fields after the fourth are not read: the line may be followed by [|]
    and any text. *)
Theorem load_game_failures (s : string) :
  (load_game s = Raise IndexError <-> (length (split "|"%char s) < 4)%nat)
  /\ (forall e, load_game s = Raise e ->
        (e = IndexError /\ (length (split "|"%char s) < 4)%nat)
        \/ (e = ValueError /\ (4 <= length (split "|"%char s))%nat))
  /\ (forall t, (4 <= length (split "|"%char s))%nat ->
        load_game (s ++ String "|"%char t)%string = load_game s).
Proof.
  destruct (split "|"%char s) as [| a [| b [| c [| d rest]]]] eqn:Hs.
  1-4: (split; [| split];
        [ split; [intros _; cbn; lia | intros _; unfold load_game; rewrite Hs; reflexivity]
        | intros e; unfold load_game; rewrite Hs; intros H; injection H as <-;
          left; split; [reflexivity | cbn; lia]
        | cbn; intros t Hlen; lia ]).
  destruct (load_game_four_fields a b c d rest s Hs) as [Hrun Hraise].
  split; [| split].
  - split.
    + intros H. specialize (Hraise _ H). discriminate Hraise.
    + cbn. lia.
  - intros e H. right. split; [apply Hraise, H | cbn; lia].
  - intros t _.
    assert (Hs' : split "|" (s ++ String "|"%char t)%string
                  = a :: b :: c :: d :: (rest ++ split "|"%char t)).
    { rewrite split_app_any, Hs. reflexivity. }
    destruct (load_game_four_fields a b c d _ _ Hs') as [Hrun' _].
    rewrite Hrun, Hrun'. reflexivity.
Qed.

(** ** The controller's commands *)

Section Commands.

Local Open Scope string_scope.

Lemma lower_char_twice c : PyStr.lower_char (PyStr.lower_char c) = PyStr.lower_char c.
Proof. destruct c as [[] [] [] [] [] [] [] []]; reflexivity. Qed.

Lemma lower_twice s : PyStr.lower (PyStr.lower s) = PyStr.lower s.
Proof.
  induction s as [| c r IH]; cbn; [reflexivity |].
  rewrite lower_char_twice, IH. reflexivity.
Qed.

Lemma digit_char_not_underscore c :
  is_digit_char c = true -> Ascii.eqb c "_" = false.
Proof.
  destruct c as [[] [] [] [] [] [] [] []]; intros H;
    first [reflexivity | discriminate H].
Qed.

Lemma drop_underscores_superscript s : forall after_digit,
  all_chars is_digit_char s = true ->
  all_chars is_decimal_char s = false ->
  drop_underscores s after_digit = None.
Proof.
  induction s as [| c r IH]; intros b; cbn [all_chars drop_underscores];
    [discriminate |].
  intros Hdig Hdec. apply andb_true_iff in Hdig. destruct Hdig as [Hc Hr].
  destruct (is_decimal_char c).
  - rewrite (IH true Hr Hdec). reflexivity.
  - rewrite (digit_char_not_underscore c Hc). reflexivity.
Qed.

(** [int] raises on a string that [isdigit] accepts for a superscript
    digit in it. *)
Lemma int_superscript s :
  isdigit s = true -> all_chars is_decimal_char s = false -> int s = None.
Proof.
  destruct s as [| c r]; [discriminate |]. cbn [isdigit]. intros Hdig Hdec.
  unfold int. rewrite (int_trim_id _ (digits_not_space _ Hdig)).
  pose proof Hdig as Hdig'.
  cbn [all_chars] in Hdig'. apply andb_true_iff in Hdig'. destruct Hdig' as [Hc _].
  destruct (digit_char_not_sign c Hc) as [-> ->].
  unfold int_unsigned. rewrite (drop_underscores_superscript _ false Hdig Hdec).
  reflexivity.
Qed.

(** The outcomes of the test of [get_command]. *)
Lemma command_test_true _model cmd :
  command_test _model cmd = Ok true ->
  cmd = HELP_COMMAND \/ cmd = END_TURN_COMMAND
  \/ exists first second,
       PyStr.split_whitespace cmd = [first; second]
       /\ (first = LOAD_COMMAND
           \/ ((first = PLAY_COMMAND \/ first = DISCARD_COMMAND)
               /\ exists n, int second = Some n
                    /\ 1 <= n <= Z.of_nat (length (get_hand (get_player _model))))).
Proof.
  unfold command_test.
  destruct (String.eqb_spec cmd HELP_COMMAND) as [-> | _]; [left; reflexivity |].
  destruct (String.eqb_spec cmd END_TURN_COMMAND) as [-> | _];
    [right; left; reflexivity |].
  cbn [orb]. intros H. right. right.
  destruct (PyStr.split_whitespace cmd) as [| first [| second [| ? ?]]];
    try discriminate H.
  exists first, second. split; [reflexivity |].
  destruct (String.eqb_spec first LOAD_COMMAND) as [-> | _]; [left; reflexivity |].
  right.
  assert (Hfirst : first = PLAY_COMMAND \/ first = DISCARD_COMMAND
                   \/ (String.eqb first PLAY_COMMAND || String.eqb first DISCARD_COMMAND
                       = false)).
  { destruct (String.eqb_spec first PLAY_COMMAND); [left; assumption |].
    destruct (String.eqb_spec first DISCARD_COMMAND); [right; left; assumption |].
    right; right; reflexivity. }
  destruct Hfirst as [-> | [-> | Hno]]; [| | rewrite Hno in H; discriminate H];
    cbn [String.eqb orb] in H;
    (destruct (isdigit second); [| discriminate H];
     destruct (int second) as [n |]; cbn in H; [| discriminate H];
     injection H as H; apply andb_true_iff in H; destruct H as [H1 H2];
     apply Z.leb_le in H1; apply Z.ltb_lt in H2;
     split; [auto | exists n; split; [reflexivity | lia]]).
Qed.

(** The test raises on [play] or [discard] and a word that [isdigit] accepts
    and [int] does not read. *)
Lemma command_test_raises _model cmd first second :
  PyStr.split_whitespace cmd = [first; second] ->
  first = PLAY_COMMAND \/ first = DISCARD_COMMAND ->
  isdigit second = true ->
  all_chars is_decimal_char second = false ->
  command_test _model cmd = Raise ValueError.
Proof.
  intros Hsplit Hfirst Hdig Hdec. unfold command_test.
  assert (Hnot : String.eqb cmd HELP_COMMAND || String.eqb cmd END_TURN_COMMAND
                 = false).
  { destruct (String.eqb_spec cmd HELP_COMMAND) as [-> | _];
      [discriminate Hsplit |].
    destruct (String.eqb_spec cmd END_TURN_COMMAND) as [-> | _]; [| reflexivity].
    cbn in Hsplit. injection Hsplit as <- _.
    destruct Hfirst as [H | H]; discriminate H. }
  rewrite Hnot, Hsplit.
  assert (Hload : String.eqb first LOAD_COMMAND = false)
    by (destruct Hfirst as [-> | ->]; reflexivity).
  assert (Hpd : String.eqb first PLAY_COMMAND || String.eqb first DISCARD_COMMAND
                = true)
    by (destruct Hfirst as [-> | ->]; reflexivity).
  rewrite Hload, Hpd, Hdig, (int_superscript second Hdig Hdec). reflexivity.
Qed.

(** The run of [get_command] that returns a command: the lines refused,
    each answered on the screen, then the line returned. *)
Lemma get_command_run update_display _model lines cmd :
  get_command update_display _model lines = Ok (Some cmd) ->
  exists before line after,
    lines = (before ++ line :: after)%list
    /\ Forall (fun l => command_test _model (PyStr.lower l) = Ok false) before
    /\ (before = [] \/ update_display _model [INVALID_COMMAND] = Ok tt)
    /\ cmd = PyStr.lower line
    /\ command_test _model cmd = Ok true.
Proof.
  induction lines as [| line rest IH]; cbn [get_command]; [discriminate |].
  destruct (command_test _model (PyStr.lower line)) as [[|] | e] eqn:Htest;
    cbn [bind].
  - intros H. injection H as <-. exists [], line, rest.
    repeat split; [constructor | left; reflexivity | exact Htest].
  - destruct (update_display _model [INVALID_COMMAND]) as [[] | e] eqn:Hshow;
      cbn [bind]; [| discriminate].
    intros H. destruct (IH H) as (before & l & after & -> & Hb & _ & Hc & Ht).
    exists (line :: before), l, after.
    repeat split; [constructor; assumption | right; reflexivity | exact Hc | exact Ht].
  - discriminate.
Qed.

Lemma get_command_stops update_display _model before line after :
  Forall (fun l => command_test _model (PyStr.lower l) = Ok false) before ->
  before = [] \/ update_display _model [INVALID_COMMAND] = Ok tt ->
  get_command update_display _model (before ++ line :: after)
  = bind (command_test _model (PyStr.lower line)) (fun valid =>
      if valid then Ok (Some (PyStr.lower line))
      else
        bind (update_display _model [INVALID_COMMAND]) (fun _ =>
          get_command update_display _model after)).
Proof.
  intros Hbefore Hshow.
  induction Hbefore as [| l before Hl _ IH]; [reflexivity |].
  destruct Hshow as [Hnil | Hshow]; [discriminate Hnil |].
  assert (Hstep : get_command update_display _model ((l :: before) ++ line :: after)
                  = get_command update_display _model (before ++ line :: after)).
  { cbn [app get_command]. rewrite Hl. cbn [bind]. rewrite Hshow. reflexivity. }
  rewrite Hstep. apply IH. right. exact Hshow.
Qed.

Lemma index_in_range {A} (l : list A) (n : Z) :
  1 <= n <= Z.of_nat (length l) ->
  exists x, PyStr.index l (n - 1) = Ok x
            /\ nth_error l (Z.to_nat (n - 1)) = Some x.
Proof.
  intros Hn. unfold PyStr.index. cbn zeta.
  destruct (Z.leb_spec 0 (n - 1)); [| lia].
  destruct (Z.ltb_spec (n - 1) (Z.of_nat (length l))); [| lia].
  cbn [andb].
  destruct (nth_error l (Z.to_nat (n - 1))) as [x |] eqn:Hx.
  - exists x. split; reflexivity.
  - apply nth_error_None in Hx. lia.
Qed.

Lemma contains_in x l : In x l -> contains x l = true.
Proof.
  intros H. unfold contains. apply existsb_exists. exists x.
  split; [exact H | apply Nat.eqb_refl].
Qed.

End Commands.

(** X12: the command [get_command] returns is the first line entered that
    passes its test, in lower case (so the file name of a load command is
    lowered too); the lines before it were refused, and each refusal was
    shown on the screen.  It is [help], [end turn], or two words: [load]
    and any word, or [play] or [discard] and a number from 1 to the size of
    the player's hand. *)
Theorem get_command_returns_first_valid
    (update_display : HearthModel -> list string -> result unit)
    (_model : HearthModel) (lines : list string) (cmd : string) :
  get_command update_display _model lines = Ok (Some cmd) ->
  (exists before line after,
     lines = before ++ line :: after
     /\ Forall (fun l => command_test _model (PyStr.lower l) = Ok false) before
     /\ (before = [] \/ update_display _model [INVALID_COMMAND] = Ok tt)
     /\ cmd = PyStr.lower line)
  /\ PyStr.lower cmd = cmd
  /\ (cmd = HELP_COMMAND \/ cmd = END_TURN_COMMAND
      \/ exists first second,
           PyStr.split_whitespace cmd = [first; second]
           /\ (first = LOAD_COMMAND
               \/ ((first = PLAY_COMMAND \/ first = DISCARD_COMMAND)
                   /\ exists n, int second = Some n
                        /\ 1 <= n <= Z.of_nat (length (get_hand (get_player _model)))))).
Proof.
  intros Hrun.
  destruct (get_command_run update_display _model lines cmd Hrun)
    as (before & line & after & Hlines & Hbefore & Hshow & Hcmd & Htest).
  split; [| split].
  - exists before, line, after. repeat split; assumption.
  - rewrite Hcmd. apply lower_twice.
  - apply command_test_true, Htest.
Qed.

Lemma get_command_returns_first_valid_witness :
  get_command (fun _ _ => Ok tt) (player_new_turn Samples.enemy_turn)
    ["PLAY 3"; "discard"; " Play  2 "; "help"]%string
  = Ok (Some " play  2 "%string)
  /\ PyStr.lower " play  2 " = " play  2 "%string.
Proof.
  split; [reflexivity |].
  destruct (get_command_returns_first_valid
              (fun _ _ => Ok tt) (player_new_turn Samples.enemy_turn)
              ["PLAY 3"; "discard"; " Play  2 "; "help"]%string
              " play  2 "%string eq_refl) as (_ & Hlow & _).
  exact Hlow.
Defined.

(** X13: when the first line [get_command] does not refuse is [play] or
    [discard] followed by a word that [isdigit] accepts and that holds a
    superscript two, three or one, [get_command] raises [ValueError]: [int]
    does not read the word, and the line is neither refused nor returned.
    (The refusals before that line must have been shown: an exception of
    [update_display] ends the call at the line it answers.) *)
Theorem get_command_raises_on_superscript
    (update_display : HearthModel -> list string -> result unit)
    (_model : HearthModel) (before : list string) (line : string)
    (after : list string) (first second : string) :
  Forall (fun l => command_test _model (PyStr.lower l) = Ok false) before ->
  before = [] \/ update_display _model [INVALID_COMMAND] = Ok tt ->
  PyStr.split_whitespace (PyStr.lower line) = [first; second] ->
  first = PLAY_COMMAND \/ first = DISCARD_COMMAND ->
  isdigit second = true ->
  all_chars is_decimal_char second = false ->
  int second = None
  /\ command_test _model (PyStr.lower line) = Raise ValueError
  /\ get_command update_display _model (before ++ line :: after)
     = Raise ValueError.
Proof.
  intros Hbefore Hshow Hsplit Hfirst Hdig Hdec.
  assert (Htest : command_test _model (PyStr.lower line) = Raise ValueError).
  { apply (command_test_raises _model _ first second); assumption. }
  split; [apply int_superscript; assumption | split; [exact Htest |]].
  rewrite (get_command_stops update_display _model before line after Hbefore Hshow).
  rewrite Htest. reflexivity.
Qed.

(** A line refused and shown, then [play] and a superscript two. *)
Lemma get_command_raises_on_superscript_witness :
  get_command (fun _ _ => Ok tt) Samples.enemy_turn
    ["play"; String.append "Play " (String (ascii_of_nat 178) ""); "help"]%string
  = Raise ValueError.
Proof.
  apply (get_command_raises_on_superscript
           (fun _ _ => Ok tt) Samples.enemy_turn
           ["play"%string]
           (String.append "Play " (String (ascii_of_nat 178) ""))
           ["help"%string] "play"%string (String (ascii_of_nat 178) "")).
  - repeat constructor.
  - right. reflexivity.
  - reflexivity.
  - left. reflexivity.
  - reflexivity.
  - reflexivity.
Defined.

(** A refusal that cannot be shown ends the call with the exception of the
    screen. *)
Example get_command_display_error :
  get_command (fun _ _ => Raise DisplayError) Samples.enemy_turn
    ["play"; "help"]%string
  = Raise DisplayError.
Proof. reflexivity. Qed.

(** X14: a play or discard command that passed the test of [get_command]
    names a card of the hand, the one at the position entered, counted from
    1: reading it as [play] does raises nothing, discarding that card
    succeeds, and playing it does not raise [ValueError] (the card is in
    the hand). *)
Theorem accepted_command_names_card
    (_model : HearthModel) (cmd first second : string) :
  command_test _model cmd = Ok true ->
  PyStr.split_whitespace cmd = [first; second] ->
  first = PLAY_COMMAND \/ first = DISCARD_COMMAND ->
  exists n card,
    int second = Some n
    /\ 1 <= n <= Z.of_nat (length (get_hand (get_player _model)))
    /\ nth_error (get_hand (get_player _model)) (Z.to_nat (n - 1)) = Some card
    /\ commanded_card _model cmd = Ok card
    /\ (exists m', run_discard _model cmd = Ok m'
                   /\ _cards (_deck (_player m'))
                      = _cards (_deck (_player _model)) ++ [card])
    /\ (forall target,
          run_play _model cmd target = play_card card target _model
          /\ run_play _model cmd target <> Raise ValueError
          /\ run_play _model cmd target <> Raise IndexError).
Proof.
  intros Htest Hsplit Hfirst.
  destruct (command_test_true _model cmd Htest)
    as [-> | [-> | (first' & second' & Hsplit' & Hcase)]];
    [discriminate Hsplit | | ].
  { cbn in Hsplit. injection Hsplit as <- _. destruct Hfirst as [H | H]; discriminate H. }
  rewrite Hsplit in Hsplit'. injection Hsplit' as <- <-.
  destruct Hcase as [-> | [_ (n & Hint & Hn)]];
    [destruct Hfirst as [H | H]; discriminate H |].
  destruct (index_in_range (get_hand (get_player _model)) n Hn) as (card & Hidx & Hnth).
  assert (Hcard : commanded_card _model cmd = Ok card).
  { unfold commanded_card. rewrite Hsplit, Hint. cbn [of_option bind]. exact Hidx. }
  assert (Hin : contains card (get_hand (_player _model)) = true).
  { apply contains_in. eapply nth_error_In. exact Hnth. }
  assert (Hplay : forall target,
            play_card card target _model <> Raise ValueError
            /\ play_card card target _model <> Raise IndexError).
  { intros target. unfold play_card, spend_energy.
    destruct (Z.leb _ _); [| split; discriminate].
    unfold get_hand in *. cbn [_hand set_energy]. rewrite Hin.
    destruct (is_permanent _); [destruct (Nat.ltb _ _) |]; split; discriminate. }
  exists n, card.
  split; [exact Hint | split; [exact Hn | split; [exact Hnth | split; [exact Hcard |]]]].
  split.
  - unfold run_discard. rewrite Hcard. cbn [bind]. unfold discard_card.
    unfold get_hand, get_deck in *. cbn [_hand set_deck]. rewrite Hin.
    eexists. split; reflexivity.
  - intros target. unfold run_play. rewrite Hcard. cbn [bind].
    split; [reflexivity | apply Hplay].
Qed.

Lemma accepted_command_names_card_witness :
  exists card,
    commanded_card (player_new_turn Samples.enemy_turn) "discard 2"%string = Ok card
    /\ nth_error (get_hand (get_player (player_new_turn Samples.enemy_turn))) 1
       = Some card.
Proof.
  destruct (accepted_command_names_card
              (player_new_turn Samples.enemy_turn)
              "discard 2"%string "discard"%string "2"%string
              eq_refl eq_refl (or_intror eq_refl))
    as (n & card & Hint & _ & Hnth & Hcard & _).
  exists card. split; [exact Hcard |].
  cbn in Hint. injection Hint as <-. exact Hnth.
Defined.

(** ** end_turn: what each hero draws and receives *)

Lemma enemy_new_turn_enemy m :
  _enemy (enemy_new_turn m) = snd (new_turn (objects m) (_enemy m)).
Proof. unfold enemy_new_turn. destruct (new_turn _ _). reflexivity. Qed.

Lemma player_new_turn_player m :
  _player (player_new_turn m) = snd (new_turn (objects m) (_player m)).
Proof. unfold player_new_turn. destruct (new_turn _ _). reflexivity. Qed.

(** The hero [new_turn] returns depends on the hand, the deck and the
    capacity only. *)
Lemma new_turn_static objs objs' self self' :
  hero_static self' = hero_static self ->
  hero_static (snd (new_turn objs' self')) = hero_static (snd (new_turn objs self)).
Proof.
  intros H. destruct (hero_static_parts _ _ H) as (Hcap & _ & Hdeck & Hhand).
  unfold new_turn. rewrite Hcap, Hdeck, Hhand.
  destruct (draw_cards _ _). reflexivity.
Qed.

(** X15: [end_turn] returns, and the enemy's part of it is one [new_turn]
    of the enemy as the turn found it: its capacity is one more, its deck
    is the deck left by that draw, and its hand holds no card but those of
    the old hand and the cards drawn.  When the enemy is alive after its
    draw, the player's hand, deck, capacity and energy are those one
    [new_turn] gives from the hand, deck and capacity the player had when
    [end_turn] was called: no step before it moves a card or the energy of
    the player. *)
Theorem end_turn_is_one_new_turn_each (m : HearthModel) :
  exists l m',
    end_turn m = Some (l, m')
    /\ (let enemy := snd (new_turn (objects m) (_enemy m)) in
        _energy_capacity (_enemy m') = _energy_capacity (_enemy m) + 1
        /\ _deck (_enemy m') = _deck enemy
        /\ incl (_hand (_enemy m')) (_hand enemy))
    /\ (Hero_is_alive (_enemy (enemy_new_turn (player_minions_act m))) = true ->
        hero_static (_player m')
        = hero_static (snd (new_turn (objects m) (_player m)))).
Proof.
  unfold end_turn.
  set (m1 := player_minions_act m). set (m2 := enemy_new_turn m1).
  destruct (player_minions_act_frame m) as (_ & (Hp1 & He1 & _)). fold m1 in Hp1, He1.
  destruct (enemy_new_turn_frame m1) as (Hp2 & _). fold m2 in Hp2.
  pose proof (enemy_new_turn_enemy m1) as He2. fold m2 in He2.
  pose proof (new_turn_static (objects m) (objects m1) _ _ He1) as Hs2.
  rewrite <- He2 in Hs2.
  destruct (hero_static_parts _ _ Hs2) as (Hcap2 & _ & Hdeck2 & Hhand2).
  destruct (new_turn_hand (objects m) (_enemy m)) as (_ & _ & _ & Hcap & _).
  set (P := fun m0 : HearthModel =>
              hero_static (_player m0) = hero_static (_player m)
              /\ _energy_capacity (_enemy m0) = _energy_capacity (_enemy m) + 1
              /\ _deck (_enemy m0) = _deck (snd (new_turn (objects m) (_enemy m)))
              /\ incl (_hand (_enemy m0)) (_hand (snd (new_turn (objects m) (_enemy m))))).
  assert (H2 : P m2).
  { unfold P. rewrite Hp2, Hcap2, Hdeck2, Hhand2.
    split; [exact Hp1 | split; [exact Hcap | split; [reflexivity | apply incl_refl]]]. }
  destruct (negb (Hero_is_alive (_enemy m2))) eqn:Hdead.
  - exists [], m2. split; [reflexivity |].
    destruct H2 as (_ & H2a & H2b & H2c).
    split; [cbn zeta; auto |].
    intros Halive. rewrite Halive in Hdead. discriminate Hdead.
  - assert (Hstep : forall m0 card, P m0 -> In card (get_hand (_enemy m0)) ->
              affordable m0 card = true -> P (enemy_played card m0)).
    { intros m0 card (Q1 & Q2 & Q3 & Q4) _ _.
      destruct (enemy_played_against m0 card) as (Sp & Ecap & _ & Edeck & Ehand & _).
      cbn zeta in Sp, Ecap, Edeck, Ehand.
      unfold P. rewrite Sp, Ecap, Edeck, Ehand.
      split; [exact Q1 | split; [exact Q2 | split; [exact Q3 |]]].
      eapply incl_tran; [apply remove_incl | exact Q4]. }
    destruct (enemy_play_loop_invariant P Hstep (enemy_rounds m2) m2 [])
      as (l & m3 & Hrun & H3); [unfold enemy_rounds; lia | exact H2 |].
    rewrite Hrun. eexists _, _. split; [reflexivity |].
    destruct H3 as (Q1 & Q2 & Q3 & Q4).
    destruct (enemy_minions_act_frame m3) as (_ & (Hp4 & He4 & _)).
    set (m4 := enemy_minions_act m3) in *.
    destruct (player_new_turn_frame m4) as (He5 & _).
    destruct (hero_static_parts _ _ He4) as (Ecap & _ & Edeck & Ehand).
    split.
    + cbn zeta. rewrite He5, Ecap, Edeck, Ehand. auto.
    + intros _. rewrite player_new_turn_player.
      apply new_turn_static. rewrite Hp4. exact Q1.
Qed.
